(** * Shard synchronisation: a shallow embedding of
      [arangod/Cluster/SynchronizeShard.cpp]

    The follower-side job [SynchronizeShard] drives a remote leader through
    a lock handshake (soft lock, then exclusive lock), interleaved with bulk
    replication and WAL tailing.  The job is effectful: it talks to the
    leader over the network, polls the cluster metadata, sleeps, and updates
    process-wide counters.  We embed it in a small monad

      [M A := Env -> St -> Outcome A * St]

    - [Env] is the outside world: one oracle per external call.  Each
      oracle sees the whole history of events so far, so the answers of the
      leader may depend on everything the follower did before;
    - [St] carries the event history, the job object, the maintenance
      feature's store, the steady clock and the stack of live scope guards;
    - [Outcome] is a normal return, a thrown C++ exception, or the end of
      the fuel that bounds the loops which have no bound of their own.

    Times are rationals (seconds); [uint64_t] values are [N].  Left out
    are the failure-injection hooks ([TRI_IF_FAILURE], compiled out of
    production builds), the assertions, and the log output together with
    the messages that are built for the log alone (and the look at the
    clock that building such a message takes), but for the one message whose
    building can throw (line 1444); the replication configuration built by
    [first] is taken to be valid. *)

From Stdlib Require Import Ascii QArith Qround Qminmax Lqa.
From stdpp Require Import gmap strings list pretty.

Set Warnings "-register-all".
Local Open Scope string_scope.

(** ** Error codes and results *)

(** The codes this file distinguishes; every other code is [TRI_ERROR_other]. *)
Inductive ErrorCode :=
| TRI_ERROR_NO_ERROR
| TRI_ERROR_FAILED
| TRI_ERROR_INTERNAL
| TRI_ERROR_SHUTTING_DOWN
| TRI_ERROR_ARANGO_DATABASE_NOT_FOUND
| TRI_ERROR_ARANGO_DATA_SOURCE_NOT_FOUND
| TRI_ERROR_REPLICATION_WRONG_CHECKSUM
| TRI_ERROR_REPLICATION_SHARD_NONEMPTY
| TRI_ERROR_REPLICATION_SHARD_SYNC_ATTEMPT_TIMEOUT_EXCEEDED
| TRI_ERROR_ACTION_UNFINISHED
| TRI_ERROR_other (n : N).

#[global] Instance ErrorCode_eq_dec : EqDecision ErrorCode.
Proof. solve_decision. Defined.

Record Result := mkResult { errorNumber : ErrorCode; errorMessage : string }.

#[global] Instance Result_eq_dec : EqDecision Result.
Proof. solve_decision. Defined.

Definition Result_success : Result := mkResult TRI_ERROR_NO_ERROR "".
Definition Result_ok (r : Result) : bool :=
  bool_decide (errorNumber r = TRI_ERROR_NO_ERROR).
Definition Result_fail (r : Result) : bool := negb (Result_ok r).
Definition Result_is (r : Result) (c : ErrorCode) : bool :=
  bool_decide (errorNumber r = c).

(** [ResultT<T>]: an error, or a value. *)
Inductive ResultT (T : Type) :=
| ResultT_error (r : Result)
| ResultT_success (v : T).
Arguments ResultT_error {T} r.
Arguments ResultT_success {T} v.

(** ** Exceptions *)

Inductive Exn :=
| basics_Exception (code : ErrorCode) (what : string)
| std_exception (what : string).

Definition Exn_what (e : Exn) : string :=
  match e with
  | basics_Exception _ w => w
  | std_exception w => w
  end.

(** What an external call hands back: a value, or an exception. *)
Inductive Answer (A : Type) :=
| Returns (a : A)
| Throws (e : Exn).
Arguments Returns {A} a.
Arguments Throws {A} e.

(** How a piece of the job ends.  [OutOfFuel] only arises from the polling
    loops, which the model runs for a bounded number of rounds. *)
Inductive Outcome (A : Type) :=
| Ret (a : A)
| Throw (e : Exn)
| OutOfFuel.
Arguments Ret {A} a.
Arguments Throw {A} e.
Arguments OutOfFuel {A}.

(** ** VelocyPack values, as far as the job inspects them

    The velocypack library is not part of the sources; its values and
    accessors are modelled as the library documents them.  A number is an
    unsigned integer ([VNumber]), a signed integer ([VInt]) or a double
    ([VDouble]); doubles are rationals here. *)

Inductive VPackSlice :=
| VNone
| VBool (b : bool)
| VNumber (n : N)
| VInt (z : Z)
| VDouble (q : Q)
| VString (s : string)
| VArray (items : list VPackSlice)
| VObject (members : list (string * VPackSlice)).

Fixpoint assoc_get (key : string) (members : list (string * VPackSlice))
  : VPackSlice :=
  match members with
  | [] => VNone
  | (k, v) :: rest => if String.eqb k key then v else assoc_get key rest
  end.

Definition VPack_get (s : VPackSlice) (key : string) : VPackSlice :=
  match s with
  | VObject members => assoc_get key members
  | _ => VNone
  end.

Definition VPack_isObject (s : VPackSlice) : bool :=
  match s with VObject _ => true | _ => false end.

(** [isNumber()]: integers and doubles alike. *)
Definition VPack_isNumber (s : VPackSlice) : bool :=
  match s with VNumber _ | VInt _ | VDouble _ => true | _ => false end.

(** [getNumber<uint64_t>()].  A negative number is out of range, and so is
    a double above 2^64; a double in range is cut off towards zero.  (The
    conversion of the double 2^64 itself is undefined in C++; it is left as
    it is here.)  What is not a number has no number. *)
Definition VPack_getNumber (s : VPackSlice) : Answer N :=
  match s with
  | VNumber n => Returns n
  | VInt z =>
      if (z <? 0)%Z then Throws (std_exception "Number out of range")
      else Returns (Z.to_N z)
  | VDouble q =>
      if negb (Qle_bool 0 q) || negb (Qle_bool q (2 ^ 64))
      then Throws (std_exception "Number out of range")
      else Returns (Z.to_N (Qfloor q))
  | _ => Throws (std_exception "Expecting numeric type")
  end.

(** [isNumber()] holds and [getNumber<uint64_t>()] returns the number. *)
Definition VPack_number (s : VPackSlice) : option N :=
  match VPack_getNumber s with
  | Returns n => Some n
  | Throws _ => None
  end.

Definition VPack_copyString (s : VPackSlice) : option string :=
  match s with VString x => Some x | _ => None end.

Definition VPack_length (s : VPackSlice) : nat :=
  match s with
  | VArray items => length items
  | VObject members => length members
  | _ => 0
  end.

Definition VPack_at (s : VPackSlice) (i : nat) : VPackSlice :=
  match s with
  | VArray items => default VNone (items !! i)
  | _ => VNone
  end.

(** [std::to_string] / [StringUtils::itoa] on an unsigned number. *)
Definition to_string (n : N) : string := pretty n.
Definition itoa (n : N) : string := pretty n.

(** ** The network layer *)

Inductive RestVerb := Get | Post | Put | Delete.

Inductive fuerte_Error :=
| fuerte_NoError
| fuerte_CouldNotConnect
| fuerte_OtherError (n : nat).

#[global] Instance fuerte_Error_eq_dec : EqDecision fuerte_Error.
Proof. solve_decision. Defined.

Record RequestOptions := mkOptions {
  opt_database : string;
  opt_timeout : Q;
  opt_skipScheduler : bool
}.

(** What [network::sendRequest(..).get()] hands back.  [combinedResult]
    is computed by the network layer from the transport error and the HTTP
    answer; the job only reads it. *)
Record Response := mkResponse {
  error : fuerte_Error;
  combinedResult : Result;
  slice : VPackSlice
}.

(** The strings of the REST interface. *)
Definition ID := "id".
Definition NAME := "name".
Definition COLLECTION := "collection".
Definition COLLECTIONS := "collections".
Definition SHARD := "shard".
Definition FOLLOWER_ID := "followerId".
Definition ENDPOINT := "endpoint".
Definition LEADER_ID := "leaderId".
Definition LAST_LOG_TICK := "lastLogTick".
Definition TTL := "ttl".
Definition INCLUDE := "include".
Definition INCLUDE_SYSTEM := "includeSystem".
Definition INCREMENTAL := "incremental".
Definition RESTRICT_TYPE := "restrictType".
Definition RESTRICT_COLLECTIONS := "restrictCollections".
Definition SKIP_CREATE_DROP := "skipCreateDrop".
Definition API_REPLICATION := "/_api/replication/".
Definition REPL_ADD_FOLLOWER := API_REPLICATION +:+ "addFollower".
Definition REPL_HOLD_READ_LOCK := API_REPLICATION +:+ "holdReadLockCollection".
Definition StaticStrings_RebootId := "rebootId".
Definition StaticStrings_ReplicationSoftLockOnly := "doSoftLockOnly".
Definition StaticStrings_FollowingTermId := "followingTermId".

(** ** Events: everything the job does to the outside world *)

Inductive ActionState := READY | EXECUTING | WAITING | COMPLETE | FAILED.

#[global] Instance ActionState_eq_dec : EqDecision ActionState.
Proof. solve_decision. Defined.

Inductive Event :=
(* network *)
| EvPool
| EvSendRequest (verb : RestVerb) (url : string) (body : VPackSlice)
    (options : RequestOptions)
(* local shard and syncers *)
| EvDatabaseGuard (database : string)
| EvLookupCollection (shard : string)
| EvCollectionCount
| EvRecalculateCounts
| EvSetTheLeader (leaderId : string)
| EvBuildTailingSyncer (endpoint : string)
| EvSyncerSetLeaderId (leaderId : string)
| EvInitialSyncerCreate (leaderId : string)
| EvInitialSyncRun (incremental : bool)
| EvInitialSyncerQuery
| EvGetCollectionName
| EvSyncCollectionCatchup (fromTick : N) (budget : Q)
| EvSyncCollectionFinalize (fromTick : N) (toTick : N)
| EvSetTailingCancellationCheck
| EvWrongChecksumCounter
(* cluster metadata *)
| EvIsStopping
| EvGetShardServers (shard : string)
| EvGetCollectionNT (database planId : string)
| EvGetCollectionCurrent (database cid shard : string)
| EvGetServerEndpoint (server : string)
| EvAttemptTimeout
| EvFetchCurrentVersion
| EvWaitForCurrentVersion (v : N)
(* time *)
| EvNow
| EvSleep (seconds : Q).

Definition Trace := list Event.

(** ** The outside world *)

Record Env := mkEnv {
  (* this server *)
  ServerState_getId : string;
  ServerState_getRebootId : N;
  ServerIdFeature_getId : N;
  (* library functions the job calls and does not define *)
  std_stoull : string -> option N;
  toJson : VPackSlice -> string;
  urlEncode : string -> string;
  timepointToString : Q -> string;
  (* network: is the connection pool there, and what a request returns *)
  nf_pool : Trace -> bool;
  sendRequest_get : Trace -> Answer Response;
  (* local shard *)
  databaseGuard : Trace -> Answer unit;
  lookupCollection : Trace -> bool;
  collectionCount_ext : Trace -> Answer (Result * N);
  recalculateCounts : Trace -> Answer N;
  getCollectionName : Trace -> string;
  (* syncers *)
  buildTailingSyncer_ext : Trace -> Answer unit;
  initialSyncer_syncerId : Trace -> N;
  initialSyncer_run : Trace -> Answer Result;
  initialSyncer_progress : Trace -> string;
  initialSyncer_getLastLogTick : Trace -> N;
  initialSyncer_getProcessedCollections : Trace -> list (N * string);
  syncCollectionCatchup : Trace -> Answer (Result * N * bool);
  syncCollectionFinalize : Trace -> Answer Result;
  (* cluster metadata *)
  isStopping : Trace -> bool;
  getShardServers : Trace -> Result * list string;
  getCollectionNT : Trace -> option N;
  currentServers : Trace -> list string;
  getServerEndpoint : Trace -> string;
  shardSynchronizationAttemptTimeout : Trace -> Q;
  fetchCurrentVersion : Trace -> Answer (ResultT N);
  (* time that passed since the clock was last looked at, in microseconds *)
  elapsed : Trace -> N;
  (* logger: are DEBUG messages of the maintenance topic written *)
  Logger_isEnabled_DEBUG : Trace -> bool
}.

(** ** The job object and the maintenance feature's store *)

Record ActionDescription := mkDescription {
  DATABASE : string;
  desc_SHARD : string;
  desc_COLLECTION : string;
  THE_LEADER : string;
  FORCED_RESYNC : bool;
  SYNC_BY_REVISION : bool
}.

Definition NORMAL_PRIORITY : Z := 1.
Definition SLOW_OP_PRIORITY : Z := 0.

Record SynchronizeShard := mkJob {
  _description : ActionDescription;
  _state : ActionState;
  _result : Result;
  _priority : Z;
  _requeueRequested : option Z;
  _followingTermId : N;
  _tailingUpperBoundTick : N;
  _initialDocCountOnLeader : N;
  _initialDocCountOnFollower : N;
  _docCountAtEnd : N;
  _endTimeForAttempt : Q;
  _clientInfoString : string
}.

(** The job as its constructor leaves it. *)
Definition SynchronizeShard_new (desc : ActionDescription) (priority : Z)
  : SynchronizeShard :=
  mkJob desc READY Result_success priority None 0 0 0 0 0 0 "".

(** Modelled from the spec: the MaintenanceFeature is not part of the
    sources.  It owns the per-(database, shard) consecutive-failure counter
    (incremented by one on [storeReplicationError], wiped by
    [removeReplicationError]), the set of shards locked for scheduling, the
    local shard version counters and the count of timed-out attempts. *)
Record MaintenanceFeature := mkFeature {
  _replErrors : gmap (string * string) N;
  _shardLocks : gset string;
  _shardVersion : gmap string N;
  _timedOutSyncAttempts : N
}.

(** Modelled from the spec: [MaintenanceFeature::replicationErrors], the
    number of failures in a row recorded for the shard; none recorded is 0. *)
Definition replicationErrors (f : MaintenanceFeature) (database shard : string)
  : N := default 0%N (_replErrors f !! (database, shard)).

(** Modelled from the spec: [MaintenanceFeature::storeReplicationError]
    increments the counter of the shard. *)
Definition storeReplicationError (database shard : string)
  (f : MaintenanceFeature) : MaintenanceFeature :=
  mkFeature (<[(database, shard) := (replicationErrors f database shard + 1)%N]>
               (_replErrors f))
            (_shardLocks f) (_shardVersion f) (_timedOutSyncAttempts f).

(** Modelled from the spec: [MaintenanceFeature::removeReplicationError]
    resets the counter of the shard to zero. *)
Definition removeReplicationError (database shard : string)
  (f : MaintenanceFeature) : MaintenanceFeature :=
  mkFeature (delete (database, shard) (_replErrors f))
            (_shardLocks f) (_shardVersion f) (_timedOutSyncAttempts f).

(** Modelled from the spec: [MaintenanceFeature::unlockShard] releases the
    scheduling lock of the shard. *)
Definition unlockShard (shard : string) (f : MaintenanceFeature)
  : MaintenanceFeature :=
  mkFeature (_replErrors f) (_shardLocks f ∖ {[shard]}) (_shardVersion f)
            (_timedOutSyncAttempts f).

(** Modelled from the spec: the local version counter of the shard. *)
Definition shardVersion (f : MaintenanceFeature) (shard : string) : N :=
  default 0%N (_shardVersion f !! shard).

(** Modelled from the spec: [MaintenanceFeature::incShardVersion] bumps the
    local version counter of the shard. *)
Definition incShardVersion (shard : string) (f : MaintenanceFeature)
  : MaintenanceFeature :=
  mkFeature (_replErrors f) (_shardLocks f)
            (<[shard := (shardVersion f shard + 1)%N]> (_shardVersion f))
            (_timedOutSyncAttempts f).

(** Modelled from the spec: [MaintenanceFeature::countTimedOutSyncAttempt]
    tracks attempt timeouts apart from the failure counter. *)
Definition countTimedOutSyncAttempt (f : MaintenanceFeature)
  : MaintenanceFeature :=
  mkFeature (_replErrors f) (_shardLocks f) (_shardVersion f)
            (_timedOutSyncAttempts f + 1)%N.

(** ** Machine state and the monad *)

Record St := mkSt {
  trace : Trace;          (* newest event first *)
  clock : Q;              (* steady clock, seconds *)
  guards : list bool;     (* live scope guards, innermost first: armed? *)
  job : SynchronizeShard;
  feature : MaintenanceFeature
}.

Definition M (A : Type) : Type := Env -> St -> Outcome A * St.

#[global] Instance M_ret : MRet M := fun A a _ st => (Ret a, st).

#[global] Instance M_bind : MBind M := fun A B f m env st =>
  match m env st with
  | (Ret a, st') => f a env st'
  | (Throw e, st') => (Throw e, st')
  | (OutOfFuel, st') => (OutOfFuel, st')
  end.

Definition throw {A} (e : Exn) : M A := fun _ st => (Throw e, st).

(** [try { m } catch (e) { handler e }] *)
Definition try_catch {A} (m : M A) (handler : Exn -> M A) : M A :=
  fun env st =>
    match m env st with
    | (Throw e, st') => handler e env st'
    | other => other
    end.

Definition get_job : M SynchronizeShard := fun _ st => (Ret (job st), st).
Definition get_feature : M MaintenanceFeature :=
  fun _ st => (Ret (feature st), st).
Definition get_env : M Env := fun env st => (Ret env, st).

Definition set_trace (t : Trace) (st : St) : St :=
  mkSt t (clock st) (guards st) (job st) (feature st).
Definition set_clock (c : Q) (st : St) : St :=
  mkSt (trace st) c (guards st) (job st) (feature st).
Definition set_guards (g : list bool) (st : St) : St :=
  mkSt (trace st) (clock st) g (job st) (feature st).
Definition set_job (j : SynchronizeShard) (st : St) : St :=
  mkSt (trace st) (clock st) (guards st) j (feature st).
Definition set_feature (f : MaintenanceFeature) (st : St) : St :=
  mkSt (trace st) (clock st) (guards st) (job st) f.

Definition modify_job (f : SynchronizeShard -> SynchronizeShard) : M unit :=
  fun _ st => (Ret tt, set_job (f (job st)) st).
Definition modify_feature (f : MaintenanceFeature -> MaintenanceFeature)
  : M unit :=
  fun _ st => (Ret tt, set_feature (f (feature st)) st).

(** An effect with no answer. *)
Definition emit (e : Event) : M unit :=
  fun _ st => (Ret tt, set_trace (e :: trace st) st).

(** An external call: it is recorded, then the world answers, knowing the
    history including this call. *)
Definition ask {T} (e : Event) (oracle : Env -> Trace -> T) : M T :=
  fun env st =>
    let t := e :: trace st in (Ret (oracle env t), set_trace t st).

(** An external call that may throw. *)
Definition ask_exn {T} (e : Event) (oracle : Env -> Trace -> Answer T)
  : M T :=
  fun env st =>
    let t := e :: trace st in
    match oracle env t with
    | Returns a => (Ret a, set_trace t st)
    | Throws ex => (Throw ex, set_trace t st)
    end.

Definition out_of_fuel {A} : M A := fun _ st => (OutOfFuel, st).

(** The message of a [LOG_TOPIC(_, DEBUG, Logger::MAINTENANCE)] statement is
    built only when the logger writes such messages. *)
Definition logsDebug : M bool :=
  fun env st => (Ret (Logger_isEnabled_DEBUG env (trace st)), st).

(** [slice.get(key)]: only an object has members; on anything else the
    library throws. *)
Definition Slice_get (s : VPackSlice) (key : string) : M VPackSlice :=
  match s with
  | VObject members => mret (assoc_get key members)
  | _ => throw (std_exception "Expecting Object")
  end.

(** [slice.getNumber<uint64_t>()], which throws when the number is out of
    range. *)
Definition getNumber (s : VPackSlice) : M N :=
  match VPack_getNumber s with
  | Returns n => mret n
  | Throws e => throw e
  end.

(** [VelocyPackHelper::getNumericValue<uint64_t>(slice, name, default)]:
    the member if it is a number, the default otherwise. *)
Definition getNumericValue (s : VPackSlice) (name : string)
  (defaultValue : N) : M N :=
  let sub := VPack_get s name in
  if VPack_isNumber sub then getNumber sub else mret defaultValue.

(** Field updates of the job object. *)
Definition with_state (s : ActionState) (j : SynchronizeShard) :=
  mkJob (_description j) s (_result j) (_priority j) (_requeueRequested j)
    (_followingTermId j) (_tailingUpperBoundTick j)
    (_initialDocCountOnLeader j) (_initialDocCountOnFollower j)
    (_docCountAtEnd j) (_endTimeForAttempt j) (_clientInfoString j).
Definition with_result (r : Result) (j : SynchronizeShard) :=
  mkJob (_description j) (_state j) r (_priority j) (_requeueRequested j)
    (_followingTermId j) (_tailingUpperBoundTick j)
    (_initialDocCountOnLeader j) (_initialDocCountOnFollower j)
    (_docCountAtEnd j) (_endTimeForAttempt j) (_clientInfoString j).
Definition with_requeueRequested (p : Z) (j : SynchronizeShard) :=
  mkJob (_description j) (_state j) (_result j) (_priority j) (Some p)
    (_followingTermId j) (_tailingUpperBoundTick j)
    (_initialDocCountOnLeader j) (_initialDocCountOnFollower j)
    (_docCountAtEnd j) (_endTimeForAttempt j) (_clientInfoString j).
Definition with_followingTermId (n : N) (j : SynchronizeShard) :=
  mkJob (_description j) (_state j) (_result j) (_priority j)
    (_requeueRequested j) n (_tailingUpperBoundTick j)
    (_initialDocCountOnLeader j) (_initialDocCountOnFollower j)
    (_docCountAtEnd j) (_endTimeForAttempt j) (_clientInfoString j).
Definition with_tailingUpperBoundTick (n : N) (j : SynchronizeShard) :=
  mkJob (_description j) (_state j) (_result j) (_priority j)
    (_requeueRequested j) (_followingTermId j) n
    (_initialDocCountOnLeader j) (_initialDocCountOnFollower j)
    (_docCountAtEnd j) (_endTimeForAttempt j) (_clientInfoString j).
Definition with_initialDocCountOnLeader (n : N) (j : SynchronizeShard) :=
  mkJob (_description j) (_state j) (_result j) (_priority j)
    (_requeueRequested j) (_followingTermId j) (_tailingUpperBoundTick j)
    n (_initialDocCountOnFollower j)
    (_docCountAtEnd j) (_endTimeForAttempt j) (_clientInfoString j).
Definition with_initialDocCountOnFollower (n : N) (j : SynchronizeShard) :=
  mkJob (_description j) (_state j) (_result j) (_priority j)
    (_requeueRequested j) (_followingTermId j) (_tailingUpperBoundTick j)
    (_initialDocCountOnLeader j) n
    (_docCountAtEnd j) (_endTimeForAttempt j) (_clientInfoString j).
Definition with_docCountAtEnd (n : N) (j : SynchronizeShard) :=
  mkJob (_description j) (_state j) (_result j) (_priority j)
    (_requeueRequested j) (_followingTermId j) (_tailingUpperBoundTick j)
    (_initialDocCountOnLeader j) (_initialDocCountOnFollower j)
    n (_endTimeForAttempt j) (_clientInfoString j).
Definition with_endTimeForAttempt (t : Q) (j : SynchronizeShard) :=
  mkJob (_description j) (_state j) (_result j) (_priority j)
    (_requeueRequested j) (_followingTermId j) (_tailingUpperBoundTick j)
    (_initialDocCountOnLeader j) (_initialDocCountOnFollower j)
    (_docCountAtEnd j) t (_clientInfoString j).
Definition with_clientInfoString (s : string) (j : SynchronizeShard) :=
  mkJob (_description j) (_state j) (_result j) (_priority j)
    (_requeueRequested j) (_followingTermId j) (_tailingUpperBoundTick j)
    (_initialDocCountOnLeader j) (_initialDocCountOnFollower j)
    (_docCountAtEnd j) (_endTimeForAttempt j) s.

(** Modelled from the spec: [ActionBase::result(code, message)] records
    the result of the attempt; [ActionBase] is not part of the sources. *)
Definition result (code : ErrorCode) (message : string) : M unit :=
  modify_job (with_result (mkResult code message)).

Definition getDatabase : M string :=
  j ← get_job; mret (DATABASE (_description j)).
Definition getShard : M string :=
  j ← get_job; mret (desc_SHARD (_description j)).

(** ** Time *)

Definition micros (n : N) : Q := (inject_Z (Z.of_N n) / 1000000)%Q.

(** [std::chrono::steady_clock::now()]: the clock never runs backwards. *)
Definition steady_clock_now : M Q :=
  fun env st =>
    let t := EvNow :: trace st in
    let c := (clock st + micros (elapsed env t))%Q in
    (Ret c, set_clock c (set_trace t st)).

(** [std::this_thread::sleep_for(d)]: at least [d] passes. *)
Definition sleep_for (d : Q) : M unit :=
  fun env st =>
    let t := EvSleep d :: trace st in
    (Ret tt, set_clock (clock st + Qmax 0 d)%Q (set_trace t st)).

(** ** Scope guards

    [Basics/ScopeGuard.h] is not part of the sources.  A scope guard is "a
    deferred action that fires unless explicitly disarmed": the action runs
    when the scope is left, by return or by exception, if the guard is still
    armed.  The guarded actions of this file are [noexcept] and catch their
    own exceptions. *)

(** Modelled from the spec: [ScopeGuard::cancel] disarms the innermost
    guard. *)
Definition guard_cancel : M unit :=
  fun _ st =>
    match guards st with
    | _ :: rest => (Ret tt, set_guards (false :: rest) st)
    | [] => (Ret tt, st)
    end.

(** Modelled from the spec: [ScopeGuard::fire] runs the action at once if
    the guard is armed, and disarms it. *)
Definition guard_fire (action : M unit) : M unit :=
  fun env st =>
    match guards st with
    | true :: rest => action env (set_guards (false :: rest) st)
    | _ => (Ret tt, st)
    end.

(** Modelled from the spec: [scopeGuard(action)] arms a guard for [body];
    when [body] is left, by return or by exception, the action runs if the
    guard is still armed. *)
Definition scopeGuard {A} (action : M unit) (body : M A) : M A :=
  fun env st =>
    let '(o, st1) := body env (set_guards (true :: guards st) st) in
    match guards st1 with
    | armed :: rest =>
        let st2 := set_guards rest st1 in
        if armed then (o, (action env st2).2) else (o, st2)
    | [] => (o, st1)
    end.

(** ** Leader-side RPCs *)

(** [network::sendRequest(pool, endpoint, verb, url, body, options).get()] *)
Definition sendRequest (endpoint : string) (verb : RestVerb) (url : string)
  (body : VPackSlice) (options : RequestOptions) : M Response :=
  ask_exn (EvSendRequest verb url body options) sendRequest_get.

(** [nf.pool()]: [false] is the null pointer of a controlled shutdown. *)
Definition NetworkFeature_pool : M bool := ask EvPool nf_pool.

(** [maintenance::collectionCount(collection, c)] *)
Definition collectionCount : M (Result * N) :=
  ask_exn EvCollectionCount collectionCount_ext.

Definition getReadLockId (pool : bool) (endpoint database clientId : string)
  (timeout : Q) (id : N) : M (Result * N) :=
  if negb pool then
    mret (mkResult TRI_ERROR_SHUTTING_DOWN
            "startReadLockOnLeader: Shutting down", id)
  else
    let error := "startReadLockOnLeader: Failed to get read lock" in
    let options := mkOptions database timeout true in
    response ← sendRequest endpoint Get REPL_HOLD_READ_LOCK VNone options;
    let res := combinedResult response in
    if Result_ok res then
      env ← get_env;
      let idSlice := slice response in
      match VPack_copyString (VPack_get idSlice ID) ≫= std_stoull env with
      | Some v => mret (res, v)
      | None =>
          mret (mkResult TRI_ERROR_INTERNAL
                  (error +:+ " - expecting id to be uint64_t "
                         +:+ toJson env idSlice), id)
      end
    else mret (res, id).

Definition collectionReCount (c : N) : M (Result * N) :=
  try_catch
    (n ← ask_exn EvRecalculateCounts recalculateCounts;
     mret (Result_success, n))
    (fun e =>
       match e with
       | basics_Exception code message => mret (mkResult code message, c)
       | _ => throw e
       end).

(** The out-parameter [docCountAtEnd] is the member [_docCountAtEnd] at the
    only call site, so the assignment goes to the job object. *)
Definition addShardFollower (pool : bool)
  (endpoint database shard : string) (lockJobId : N) (clientId : string)
  (syncerId : N) (clientInfoString : string) (timeout : Q) : M Result :=
  if negb pool then
    mret (mkResult TRI_ERROR_SHUTTING_DOWN
            "startReadLockOnLeader: Shutting down")
  else
    try_catch
      (ask_exn (EvDatabaseGuard database) databaseGuard;;
       found ← ask (EvLookupCollection shard) lookupCollection;
       if negb found then
         mret (mkResult TRI_ERROR_ARANGO_DATA_SOURCE_NOT_FOUND
                 ("SynchronizeShard::addShardFollower: Failed to lookup collection "
                    +:+ database +:+ "/" +:+ shard))
       else
         '(res, docCount) ← collectionCount;
         if Result_fail res then mret res
         else
           modify_job (with_docCountAtEnd docCount);;
           env ← get_env;
           let body :=
             VObject
               ([(FOLLOWER_ID, VString (ServerState_getId env));
                 (SHARD, VString shard);
                 ("checksum", VString (to_string docCount));
                 ("serverId", VString (itoa (ServerIdFeature_getId env)))]
                ++ (if bool_decide (syncerId ≠ 0%N)
                    then [("syncerId", VString (to_string syncerId))] else [])
                ++ (if bool_decide (clientInfoString ≠ "")
                    then [("clientInfo", VString clientInfoString)] else [])
                ++ (if bool_decide (lockJobId ≠ 0%N)
                    then [("readLockId", VString (to_string lockJobId))]
                    else [])) in
           let options := mkOptions database timeout true in
           response ← sendRequest endpoint Put REPL_ADD_FOLLOWER body options;
           let result := combinedResult response in
           if Result_fail result then
             let errorMsg :=
               "addShardFollower: could not add us to the leader's follower list for "
                 +:+ database +:+ "/" +:+ shard in
             if bool_decide (lockJobId ≠ 0%N) then
               mret (mkResult (errorNumber result)
                       (errorMsg +:+ ", " +:+ errorMessage result))
             else if Result_is result TRI_ERROR_REPLICATION_SHARD_NONEMPTY
             then mret result (* hand on leader protest *)
             else
               mret (mkResult (errorNumber result)
                       (errorMsg +:+ ", " +:+ errorMessage result))
           else mret Result_success)
      (fun e =>
         mret (mkResult TRI_ERROR_ARANGO_DATABASE_NOT_FOUND
                 ("SynchronizeShard::addShardFollower: Failed to lookup database "
                    +:+ database +:+ " exception: " +:+ Exn_what e))).

Definition cancelReadLockOnLeader (pool : bool) (endpoint database : string)
  (lockJobId : N) (clientId : string) (timeout : Q) : M Result :=
  if negb pool then
    mret (mkResult TRI_ERROR_SHUTTING_DOWN
            "cancelReadLockOnLeader: Shutting down")
  else
    let body := VObject [(ID, VString (to_string lockJobId))] in
    let options := mkOptions database timeout true in
    response ← sendRequest endpoint Delete REPL_HOLD_READ_LOCK body options;
    let res := combinedResult response in
    if Result_is res TRI_ERROR_ARANGO_DATABASE_NOT_FOUND then
      (* database is gone. that means our lock is also gone *)
      mret Result_success
    else if Result_fail res then
      mret (mkResult TRI_ERROR_INTERNAL (errorMessage res))
    else mret Result_success.

(** [SynchronizeShard::collectionCountOnLeader] *)
Definition collectionCountOnLeader (leaderEndpoint : string)
  : M (Result * N) :=
  pool ← NetworkFeature_pool;
  database ← getDatabase;
  shard ← getShard;
  let options := mkOptions database 60 true in
  response ← sendRequest leaderEndpoint Get
               ("/_api/collection/" +:+ shard +:+ "/count") VNone options;
  let res := combinedResult response in
  if Result_fail res then mret (res, 0%N)
  else
    count ← Slice_get (slice response) "count";
    try_catch
      (docCountOnLeader ← getNumber count;
       mret (Result_success, docCountOnLeader))
      (fun exc => mret (mkResult TRI_ERROR_INTERNAL (Exn_what exc), 0%N)).

(** The body and the options of the lock request in [getReadLock]. *)
Definition getReadLock_body (env : Env) (collection : string) (rlid : N)
  (soft : bool) (timeout : Q) : VPackSlice :=
  VObject [(ID, VString (to_string rlid));
           (COLLECTION, VString collection);
           (TTL, VDouble timeout);
           ("serverId", VString (ServerState_getId env));
           (StaticStrings_RebootId, VNumber (ServerState_getRebootId env));
           (StaticStrings_ReplicationSoftLockOnly, VBool soft);
           (* added in 3.8.3: the follower can handle following term ids *)
           ("wantFollowingTerm", VBool true)].

Definition getReadLock_options (database : string) (soft : bool)
  (timeout : Q) : RequestOptions :=
  (* In the hardLock case we want to bypass the scheduler *)
  mkOptions database timeout (negb soft).

Definition getReadLock (pool : bool) (endpoint collection clientId : string)
  (rlid : N) (soft : bool) (timeout : Q) : M Result :=
  (* nullptr only happens during controlled shutdown *)
  if negb pool then
    mret (mkResult TRI_ERROR_SHUTTING_DOWN "getReadLock: Shutting down")
  else
    env ← get_env;
    database ← getDatabase;
    let buf := getReadLock_body env collection rlid soft timeout in
    let options := getReadLock_options database soft timeout in
    response ← sendRequest endpoint Post REPL_HOLD_READ_LOCK buf options;
    let res := combinedResult response in
    if Result_ok res then
      (* Habemus clausum, we have a lock *)
      (if negb soft then
         (* Now store the random followingTermId: *)
         let body := slice response in
         if VPack_isObject body then
           let followingTermIdSlice :=
             VPack_get body StaticStrings_FollowingTermId in
           (if VPack_isNumber followingTermIdSlice then
              n ← getNumber followingTermIdSlice;
              modify_job (with_followingTermId n)
            else mret tt);;
           (* check if the leader sent us a "lastLogTick" value. if yes, we
              pick it up and use it as an upper bound until which we at most
              need to do WAL tailing under the exclusive lock *)
           let lastLogTickSlice := VPack_get body "lastLogTick" in
           (if VPack_isNumber lastLogTickSlice then
              n ← getNumber lastLogTickSlice;
              modify_job (with_tailingUpperBoundTick n)
            else mret tt)
         else mret tt
       else mret tt);;
      mret Result_success
    else if bool_decide (error response = fuerte_CouldNotConnect) then
      (* We MUSTN'T exit without trying to clean up a lock that was maybe
         acquired *)
      mret (mkResult TRI_ERROR_INTERNAL
              "startReadLockOnLeader: couldn't POST lock body, giving up.")
    else
      (* Ambiguous POST, we'll try to DELETE a potentially acquired lock *)
      try_catch
        (cancelResponse ← sendRequest endpoint Delete REPL_HOLD_READ_LOCK
                            buf options;
         mret tt)
        (fun e => mret tt);;
      (* original response that we received when ordering the lock *)
      mret res.

(** The default of the [timeout] parameter, from the class declaration. *)
Definition startReadLockOnLeader_timeout : Q := 300%Q.

Definition startReadLockOnLeader (endpoint collection clientId : string)
  (soft : bool) (timeout : Q) : M (Result * N) :=
  pool ← NetworkFeature_pool;
  database ← getDatabase;
  '(result, rlid) ← getReadLockId pool endpoint database clientId timeout 0;
  if negb (Result_ok result) then mret (result, rlid)
  else
    r ← getReadLock pool endpoint collection clientId rlid soft timeout;
    mret (r, rlid).

(** ** Catching up under the soft lock *)

(** The deferred action of both [readLockGuard]s: cancel the lock on the
    leader, whatever happens; failures are only logged. *)
Definition readLockGuard_action (ep : string) (lockJobId : N)
  (clientId : string) : M unit :=
  try_catch
    (pool ← NetworkFeature_pool;
     database ← getDatabase;
     res ← cancelReadLockOnLeader pool ep database lockJobId clientId 60;
     mret tt)
    (fun ex => mret tt).

(** One round of the [while (didTimeout && tries++ < 18)] loop.  The
    answer is [inl r] when the round returns [r] from the function, and
    [inr (tickReached, didTimeout)] when the loop goes on. *)
Definition catchupWithReadLock_round (ep collection_name clientId : string)
  (lastLogTick tickReached : N) : M (ResultT N + N * bool) :=
  let timeout : Q := 300%Q in
  stopping ← ask EvIsStopping isStopping;
  if (stopping : bool) then
    mret (inl (ResultT_error
                 (mkResult TRI_ERROR_SHUTTING_DOWN
                    "SynchronizeShard: startReadLockOnLeader (soft): shutting down")))
  else
    (* Now ask for a "soft stop" on the leader *)
    '(res, lockJobId) ← startReadLockOnLeader ep collection_name clientId
                          true timeout;
    if negb (Result_ok res) then
      mret (inl (ResultT_error
                   (mkResult (errorNumber res)
                      ("SynchronizeShard: error in startReadLockOnLeader (soft):"
                         +:+ errorMessage res))))
    else
      scopeGuard (readLockGuard_action ep lockJobId clientId)
        ((* From now on, we need to cancel the read lock on the leader
            regardless if things go wrong or right! *)
         '(res, tickReached', didTimeout) ←
           try_catch
             (ask_exn (EvSyncCollectionCatchup lastLogTick (timeout * (6 # 10))%Q)
                      syncCollectionCatchup)
             (fun ex =>
                mret (mkResult TRI_ERROR_INTERNAL (Exn_what ex),
                      tickReached, false));
         if negb (Result_ok res) then
           database ← getDatabase;
           shard ← getShard;
           mret (inl (ResultT_error
                        (mkResult (errorNumber res)
                           ("synchronizeOneShard: error in syncCollectionCatchup for shard "
                              +:+ database +:+ "/" +:+ shard +:+ ": "
                              +:+ errorMessage res))))
         else
           (* Stop the read lock again: *)
           pool ← NetworkFeature_pool;
           database ← getDatabase;
           res ← cancelReadLockOnLeader pool ep database lockJobId clientId 60;
           (* We removed the readlock *)
           guard_cancel;;
           if negb (Result_ok res) then
             let errorMsg :=
               "synchronizeOneShard: error when cancelling soft read lock: "
                 +:+ errorMessage res in
             result TRI_ERROR_INTERNAL errorMsg;;
             mret (inl (ResultT_error (mkResult TRI_ERROR_INTERNAL errorMsg)))
           else mret (inr (tickReached', didTimeout))).

(** The loop itself: [remaining] is [18 - tries]. *)
Fixpoint catchupWithReadLock_loop (remaining : nat)
  (ep collection_name clientId : string)
  (didTimeout : bool) (lastLogTick tickReached : N) : M (ResultT N) :=
  if negb didTimeout then mret (ResultT_success tickReached)
  else
    match remaining with
    | O => mret (ResultT_success tickReached)
    | S remaining' =>
        r ← catchupWithReadLock_round ep collection_name clientId
              lastLogTick tickReached;
        match r with
        | inl answer => mret answer
        | inr (tickReached', didTimeout') =>
            (* lastLogTick = tickReached *)
            catchupWithReadLock_loop remaining' ep collection_name clientId
              didTimeout' tickReached' tickReached'
        end
    end.

Definition catchupWithReadLock (ep collection_name clientId leader : string)
  (lastLogTick : N) : M (ResultT N) :=
  catchupWithReadLock_loop 18 ep collection_name clientId true lastLogTick 0.

(** ** Finalizing under the exclusive lock *)

Definition leaderIdWithTerm (leader : string) (followingTermId : N)
  : string :=
  if bool_decide (followingTermId ≠ 0%N)
  then leader +:+ "_" +:+ itoa followingTermId
  else leader.

(** Lines 1369-1456: the leader answered add-follower with a checksum
    mismatch [res].  [readLockGuard] is the deferred release of the
    exclusive lock. *)
Definition recountAfterWrongChecksum (ep collection_name : string)
  (readLockGuard : M unit) (res : Result) : M Result :=
  (* give up the lock on the leader, so writes aren't stopped unncessarily
     on the leader while we are recalculating the counts *)
  guard_fire readLockGuard;;
  emit EvWrongChecksumCounter;;
  database ← getDatabase;
  shard ← getShard;
  (* recalculate collection count on follower *)
  '(countRes, docCount) ← collectionCount;
  if Result_fail countRes then mret countRes
  else
    (* store current count value *)
    let oldCount := docCount in
    (* recalculate on follower. this can take a long time *)
    '(countRes, docCount) ← collectionReCount docCount;
    if Result_fail countRes then mret countRes
    else if bool_decide (oldCount = docCount) then
      (* no change happened due to recalculation. now try recounting on
         leader too. this is last resort and should not happen often! *)
      env ← get_env;
      let options := mkOptions database 900 true in
      let url := "/_api/collection/" +:+ urlEncode env collection_name
                   +:+ "/recalculateCount" in
      r ← sendRequest ep Put url (VObject []) options;
      let result := combinedResult r in
      if Result_fail result then
        mret (mkResult (errorNumber result)
                ("addShardFollower: could not add us to the leader's follower list for "
                   +:+ database +:+ "/" +:+ shard
                   +:+ ", error while recalculating count on leader: "
                   +:+ errorMessage result))
      else
        c ← Slice_get (slice r) "count";
        (if VPack_isNumber c then
           (* the count goes into a debug message *)
           logged ← logsDebug;
           if (logged : bool) then n ← getNumber c; mret tt else mret tt
         else mret tt);;
        (* still let the operation fail here, because we gave up the lock
           already and cannot be sure the data on the leader hasn't changed
           in the meantime *)
        mret res
    else mret res.

(** Lines 1336-1471: WAL tailing under the exclusive lock, then the
    registration as a follower. *)
Definition finalizeAndRegister (ep collection_name clientId : string)
  (syncerId lastLogTick lockJobId : N) (readLockGuard : M unit) : M Result :=
  j ← get_job;
  res ← try_catch
          (ask_exn (EvSyncCollectionFinalize lastLogTick
                      (_tailingUpperBoundTick j))
                   syncCollectionFinalize)
          (fun ex => mret (mkResult TRI_ERROR_INTERNAL (Exn_what ex)));
  database ← getDatabase;
  shard ← getShard;
  if negb (Result_ok res) then
    mret (mkResult (errorNumber res)
            ("synchronizeOneshard: error in syncCollectionFinalize for shard "
               +:+ database +:+ "/" +:+ collection_name +:+ ": "
               +:+ errorMessage res))
  else
    pool ← NetworkFeature_pool;
    j ← get_job;
    res ← addShardFollower pool ep database shard lockJobId clientId
            syncerId (_clientInfoString j) 60;
    (* if we get a checksum mismatch, it means that we got different
       counts of documents on the leader and the follower *)
    if Result_is res TRI_ERROR_REPLICATION_WRONG_CHECKSUM then
      recountAfterWrongChecksum ep collection_name readLockGuard res
    else if negb (Result_ok res) then
      (* no more retrying... *)
      mret (mkResult (errorNumber res)
              ("synchronizeOneshard: error in addShardFollower: "
                 +:+ errorMessage res))
    else
      (* Report success: *)
      result TRI_ERROR_NO_ERROR "";;
      mret Result_success.

Definition catchupWithExclusiveLock (ep collection_name clientId leader : string)
  (syncerId : N) (lastLogTick : N) : M Result :=
  '(res, lockJobId) ← startReadLockOnLeader ep collection_name clientId
                        false startReadLockOnLeader_timeout;
  if negb (Result_ok res) then
    mret (mkResult (errorNumber res)
            ("SynchronizeShard: error in startReadLockOnLeader (hard): "
               +:+ errorMessage res))
  else
    let readLockGuard := readLockGuard_action ep lockJobId clientId in
    scopeGuard readLockGuard
      ((* Now we have got a unique id for this following term and have
          stored it in _followingTermId, so we can use it to set the
          leader *)
       j ← get_job;
       let leaderId := leaderIdWithTerm leader (_followingTermId j) in
       (* If _followingTermId is 0, then this is a leader before the
          update, we tolerate this and simply use its ID without a term *)
       emit (EvSetTheLeader leaderId);;
       (* repurpose tailingSyncer *)
       emit (EvSyncerSetLeaderId leaderId);;
       finalizeAndRegister ep collection_name clientId syncerId lastLogTick
         lockJobId readLockGuard).

(** ** The attempt: [SynchronizeShard::first] *)

Definition Qlt_bool (a b : Q) : bool := negb (Qle_bool b a).

(** [std::chrono::system_clock::now()]; the model keeps one clock. *)
Definition system_clock_now : M Q := steady_clock_now.

Definition AppendShardInformationToMessage (database shard planId : string)
  (startTime : Q) (msg : string) : M string :=
  endTime ← system_clock_now;
  env ← get_env;
  mret (msg +:+ "local shard: '" +:+ database +:+ "/" +:+ shard +:+ "', "
            +:+ "for central: '" +:+ database +:+ "/" +:+ planId +:+ "', "
            +:+ "started: " +:+ timepointToString env startTime +:+ ", "
            +:+ "ended: " +:+ timepointToString env endTime).

(** *** Stepping on the brake after repeated failures (lines 716-752) *)

(** [size_t] arithmetic wraps at 64 bits. *)
Definition wrap64 (n : N) : N := (n mod 2 ^ 64)%N.

(** from this many number of failures in a row, we will step on the brake *)
Definition delayThreshold : N := 4.
Definition sleepPerRound : Q := 1 # 2.

Definition backoff_sleepTime (failuresInRow : N) : Q :=
  let sleepTime :=
    (2 + (1 # 10) * inject_Z (Z.of_N (wrap64 (failuresInRow
                                               * wrap64 (failuresInRow + 1))
                                      / 2)))%Q in
  (* cap sleep time to 15 seconds *)
  Qmin sleepTime 15.

(** [while (sleepTime > 0.0)]: [Some b] means that [first] returns [b]. *)
Fixpoint backoff_loop (fuel : nat) (sleepTime : Q) : M (option bool) :=
  if Qlt_bool 0 sleepTime then
    stopping ← ask EvIsStopping isStopping;
    if (stopping : bool) then
      result TRI_ERROR_SHUTTING_DOWN "";;
      mret (Some false)
    else
      (* sleep only for up to 0.5 seconds at a time so we can react quickly
         to shutdown *)
      sleep_for (Qmin sleepTime sleepPerRound);;
      match fuel with
      | O => out_of_fuel
      | S fuel' => backoff_loop fuel' (sleepTime - sleepPerRound)%Q
      end
  else mret None.

(** The sleep time is at most 15 s, so 30 rounds of 0.5 s are enough. *)
Definition backoff : M (option bool) :=
  database ← getDatabase;
  shard ← getShard;
  f ← get_feature;
  let failuresInRow := wrap64 (replicationErrors f database shard) in
  if (delayThreshold <=? failuresInRow)%N then
    backoff_loop 30 (backoff_sleepTime failuresInRow)
  else mret None.

(** *** Waiting for the leader (lines 768-853) *)

Fixpoint waitForLeader (fuel : nat)
  (database planId shard leader ourselves : string) (forcedResync : bool)
  (startTime : Q) : M (option bool) :=
  stopping ← ask EvIsStopping isStopping;
  if (stopping : bool) then
    result TRI_ERROR_SHUTTING_DOWN "";;
    mret (Some false)
  else
    '(res, planned) ← ask (EvGetShardServers shard) getShardServers;
    if negb (Result_ok res)
       || negb (bool_decide (ourselves ∈ planned))
       || negb (bool_decide (head planned = Some leader))
    then
      (* Things have changed again, simply terminate: *)
      error ← AppendShardInformationToMessage database shard planId
                startTime "cancelled, ";
      result TRI_ERROR_FAILED error;;
      mret (Some false)
    else
      ci ← ask (EvGetCollectionNT database planId) getCollectionNT;
      match ci with
      | None =>
          msg ← AppendShardInformationToMessage database shard planId
                  startTime "exception in getCollection, ";
          result TRI_ERROR_FAILED msg;;
          mret (Some false)
      | Some id =>
          let cid := to_string id in
          current ← ask (EvGetCollectionCurrent database cid shard)
                      currentServers;
          match current with
          | [] =>
              (* no servers in 'Current': keep waiting *)
              sleep_for (2 # 10);;
              match fuel with
              | O => out_of_fuel
              | S fuel' =>
                  waitForLeader fuel' database planId shard leader ourselves
                    forcedResync startTime
              end
          | front :: _ =>
              if bool_decide (front = leader) then
                if negb (bool_decide (ourselves ∈ current)) then
                  mret None (* start synchronization work *)
                else if forcedResync then
                  (* found ourselves in Current, but resyncing anyways
                     because of a recent restart *)
                  mret None
                else
                  (* Otherwise, we give up on the job, since we do not want
                     to repeat a SynchronizeShard if we are already in
                     Current: *)
                  error ← AppendShardInformationToMessage database shard
                            planId startTime "already done, ";
                  result TRI_ERROR_FAILED error;;
                  mret (Some false)
              else
                (* we need to immediately exit, as the planned leader is
                   not yet leading in current *)
                result TRI_ERROR_FAILED
                  "Planned leader has not taken over leadership";;
                mret (Some false)
          end
      end.

(** *** Bulk synchronisation *)

(** What [replicationSynchronize] writes into [sy] on success. *)
Definition syncSummary (lastLogTick : N) (processed : list (N * string))
  : VPackSlice :=
  VObject
    [(LAST_LOG_TICK, VNumber lastLogTick);
     (COLLECTIONS,
      VArray (map (fun i : N * string =>
                     VObject [(ID, VNumber i.1); (NAME, VString i.2)])
                  processed))].

Definition replicationSynchronize (config : VPackSlice)
  : M (ResultT N * VPackSlice) :=
  let leaderId := default "" (VPack_copyString (VPack_get config LEADER_ID)) in
  let incremental :=
    match VPack_get config INCREMENTAL with VBool b => b | _ => false end in
  (* In this phase we use the normal leader ID without following term id *)
  syncerId ← ask (EvInitialSyncerCreate leaderId) initialSyncer_syncerId;
  try_catch
    (r ← ask_exn (EvInitialSyncRun incremental) initialSyncer_run;
     if Result_fail r then mret (ResultT_error r, VNone)
     else
       lastLogTick ← ask EvInitialSyncerQuery initialSyncer_getLastLogTick;
       processed ← ask EvInitialSyncerQuery
                     initialSyncer_getProcessedCollections;
       mret (ResultT_success syncerId, syncSummary lastLogTick processed))
    (fun ex =>
       progress ← ask EvInitialSyncerQuery initialSyncer_progress;
       let s := "cannot sync from remote endpoint: " +:+ Exn_what ex
                  +:+ ". last progress message was '" +:+ progress +:+ "'" in
       match ex with
       | basics_Exception code _ => mret (ResultT_error (mkResult code s), VNone)
       | std_exception _ =>
           mret (ResultT_error (mkResult TRI_ERROR_INTERNAL s), VNone)
       end).

(** [collections.length() == 0 || collections[0].get("name") != shard] *)
Definition shardGoneFromLeader (sy : VPackSlice) (shard : string) : bool :=
  let collections := VPack_get sy COLLECTIONS in
  bool_decide (VPack_length collections = 0%nat)
  || negb (bool_decide
             (VPack_copyString (VPack_get (VPack_at collections 0) "name")
              = Some shard)).

(** Lines 1061-1106: the bulk synchronisation is done; catch up under the
    soft lock, then finalize under the exclusive lock. *)
Definition first_catchup (shard leader clientId ep : string) (syncerId : N)
  (sy : VPackSlice) : M bool :=
  emit EvSetTailingCancellationCheck;;
  lastTick ← getNumericValue sy LAST_LOG_TICK 0;
  tickResult ← catchupWithReadLock ep shard clientId leader lastTick;
  match tickResult with
  | ResultT_error r =>
      modify_job (with_result r);;
      mret false
  | ResultT_success lastTick =>
      (* Now start an exclusive transaction to stop writes: *)
      res ← catchupWithExclusiveLock ep shard clientId leader syncerId
              lastTick;
      if negb (Result_ok res) then
        modify_job (with_result res);;
        mret false
      else mret false
  end.

(** Lines 1023-1059: what [first] does with the outcome of the bulk
    synchronisation. *)
Definition first_afterSync (database shard leader clientId ep : string)
  (syncRes : ResultT N) (sy : VPackSlice) : M bool :=
  match syncRes with
  | ResultT_error r =>
      (* If this did not work, then we cannot go on: *)
      j ← get_job;
      syncRes' ←
        (if Qlt_bool 0 (_endTimeForAttempt j) then
           now ← steady_clock_now;
           if Qle_bool (_endTimeForAttempt j) now then
             (* we reached the configured timeout. rebrand the error. this
                is important because this is a special error that does not
                count towards the "failed" attempts. *)
             mret (mkResult
                     TRI_ERROR_REPLICATION_SHARD_SYNC_ATTEMPT_TIMEOUT_EXCEEDED
                     "")
           else mret r
         else mret r);
      result (errorNumber syncRes')
        ("could not initially synchronize shard " +:+ database +:+ "/"
           +:+ shard +:+ ": " +:+ errorMessage syncRes');;
      mret false
  | ResultT_success syncerId =>
      if shardGoneFromLeader sy shard then
        result TRI_ERROR_INTERNAL
          ("shard " +:+ database +:+ "/" +:+ shard
             +:+ " seems to be gone from leader, this can happen if a collection was dropped during synchronization!");;
        mret false
      else first_catchup shard leader clientId ep syncerId sy
  end.

(** Lines 973-1021: the bulk synchronisation itself. *)
Definition first_attempt (database shard leader clientId ep : string)
  (docCount : N) : M bool :=
  stopping ← ask EvIsStopping isStopping;
  if (stopping : bool) then
    result TRI_ERROR_SHUTTING_DOWN
      ("SynchronizeShard: synchronization failed for shard " +:+ shard
         +:+ ": shutdown in progress, giving up");;
    mret false
  else
    let config :=
      VObject [(ENDPOINT, VString ep);
               (* use incremental sync if possible *)
               (INCREMENTAL, VBool (0 <? docCount)%N);
               (LEADER_ID, VString leader);
               (SKIP_CREATE_DROP, VBool true);
               (RESTRICT_TYPE, VString INCLUDE);
               (RESTRICT_COLLECTIONS, VArray [VString shard]);
               (INCLUDE_SYSTEM, VBool true);
               ("verbose", VBool false)] in
    (* Configure the shard to follow the leader without any following
       term id: *)
    emit (EvSetTheLeader leader);;
    startTime ← system_clock_now;
    '(syncRes, sy) ← replicationSynchronize config;
    endTime ← system_clock_now;
    first_afterSync database shard leader clientId ep syncRes sy.

(** *** The reschedule check (lines 901-917) *)

Definition needsReschedule (priority : Z) (docCount docCountOnLeader : N)
  : bool :=
  bool_decide (priority ≠ SLOW_OP_PRIORITY)
  && bool_decide (docCount ≠ docCountOnLeader)
  && (((docCount <? docCountOnLeader)
       && (10000 <? docCountOnLeader - docCount))
      || ((docCountOnLeader <? docCount)
          && (10000 <? docCount - docCountOnLeader)))%N.

(** Modelled from the spec: [ActionBase::requeueMe] asks the scheduler to
    resubmit the job at the given priority. *)
Definition requeueMe (priority : Z) : M unit :=
  modify_job (with_requeueRequested priority).

(** Lines 1569-1599.  The configuration and the syncer object are built
    by the world, which may throw; the new syncer is then told the leader,
    in this phase still without a following term id. *)
Definition buildTailingSyncer (endpoint : string) : M unit :=
  ask_exn (EvBuildTailingSyncer endpoint) buildTailingSyncer_ext;;
  j ← get_job;
  let leader := THE_LEADER (_description j) in
  if bool_decide (leader ≠ "") then emit (EvSyncerSetLeaderId leader)
  else mret tt.

(** Lines 901-1129: from the reschedule check to the end of the inner
    [try]. *)
Definition first_fromCounts (database planId shard leader clientId : string)
  (syncByRevision : bool) (ep : string) (docCount docCountOnLeader : N)
  : M bool :=
  j ← get_job;
  if needsReschedule (_priority j) docCount docCountOnLeader then
    (* This could be a larger job, let's reschedule ourselves with
       priority SLOW_OP_PRIORITY: *)
    requeueMe SLOW_OP_PRIORITY;;
    result TRI_ERROR_ACTION_UNFINISHED
      "SynchronizeShard action rescheduled to slow operation priority";;
    mret false
  else
    env ← get_env;
    collectionName ← ask EvGetCollectionName getCollectionName;
    modify_job (with_clientInfoString
                  ("follower " +:+ ServerState_getId env +:+ " of shard "
                     +:+ database +:+ "/" +:+ shard +:+ " of collection "
                     +:+ database +:+ "/" +:+ collectionName));;
    (* determine end timestamp for shard synchronization attempt, if any *)
    (if syncByRevision then
       attemptTimeout ← ask EvAttemptTimeout shardSynchronizationAttemptTimeout;
       if Qlt_bool 0 attemptTimeout then
         now ← steady_clock_now;
         modify_job (with_endTimeForAttempt
                       (now + inject_Z (Qfloor attemptTimeout))%Q)
       else mret tt
     else mret tt);;
    buildTailingSyncer ep;;
    try_catch
      (first_attempt database shard leader clientId ep docCount)
      (fun e =>
         match e with
         | basics_Exception code what => result code what;; mret false
         | std_exception what => result TRI_ERROR_INTERNAL what;; mret false
         end).

(** Lines 858-899: the local shard, the leader's endpoint, both counts. *)
Definition first_sync (database planId shard leader clientId : string)
  (syncByRevision : bool) : M bool :=
  ask_exn (EvDatabaseGuard database) databaseGuard;;
  found ← ask (EvLookupCollection shard) lookupCollection;
  if negb found then
    result TRI_ERROR_ARANGO_DATA_SOURCE_NOT_FOUND
      ("failed to lookup local shard " +:+ database +:+ "/" +:+ shard);;
    mret false
  else
    ep ← ask (EvGetServerEndpoint leader) getServerEndpoint;
    '(res, docCountOnLeader) ← collectionCountOnLeader ep;
    if Result_fail res then
      result (errorNumber res)
        ("failed to get a count on leader " +:+ database +:+ "/" +:+ shard
           +:+ ": " +:+ errorMessage res);;
      mret false
    else
      modify_job (with_initialDocCountOnLeader docCountOnLeader);;
      '(res, docCount) ← collectionCount;
      if Result_fail res then
        result (errorNumber res)
          ("failed to get a count here " +:+ database +:+ "/" +:+ shard
             +:+ ": " +:+ errorMessage res);;
        mret false
      else
        modify_job (with_initialDocCountOnFollower docCount);;
        first_fromCounts database planId shard leader clientId syncByRevision
          ep docCount docCountOnLeader.

(** [fuel] bounds the number of polls of the readiness wait, which has no
    bound of its own. *)
Definition first (fuel : nat) : M bool :=
  j ← get_job;
  let database := DATABASE (_description j) in
  let planId := desc_COLLECTION (_description j) in
  let shard := desc_SHARD (_description j) in
  let leader := THE_LEADER (_description j) in
  let forcedResync := FORCED_RESYNC (_description j) in
  let syncByRevision := SYNC_BY_REVISION (_description j) in
  braked ← backoff;
  match braked with
  | Some answer => mret answer
  | None =>
      env ← get_env;
      let ourselves := ServerState_getId env in
      startTime ← system_clock_now;
      let clientId := database +:+ planId +:+ shard +:+ leader in
      (* First wait until the leader has created the shard (visible in
         Current in the Agency) or we or the shard have vanished from the
         plan: *)
      waited ← waitForLeader fuel database planId shard leader ourselves
                 forcedResync startTime;
      match waited with
      | Some answer => mret answer
      | None =>
          (* Once we get here, we know that the leader is ready for sync,
             so we give it a try: *)
          try_catch
            (first_sync database planId shard leader clientId syncByRevision)
            (fun e => result TRI_ERROR_INTERNAL (Exn_what e);; mret false)
      end
  end.

(** ** The terminal transition: [SynchronizeShard::setState] *)

(** The wait for a Current version from the agency: at most 600 s, with a
    growing snooze between polls. *)
Fixpoint fetchCurrentVersion_loop (fuel : nat) (stoppage snooze : Q) (v : N)
  : M N :=
  stopping ← ask EvIsStopping isStopping;
  if (stopping : bool) then mret v
  else
    now ← steady_clock_now;
    if negb (Qlt_bool now stoppage) then mret v
    else
      v ← try_catch
            (res ← ask_exn EvFetchCurrentVersion fetchCurrentVersion;
             match res with
             | ResultT_success x => mret x
             | ResultT_error _ => mret v
             end)
            (fun e => mret v);
      if (0 <? v)%N then mret v
      else
        sleep_for snooze;;
        let snooze' :=
          if Qlt_bool snooze 2 then (snooze + (1 # 10))%Q else snooze in
        match fuel with
        | O => out_of_fuel
        | S fuel' => fetchCurrentVersion_loop fuel' stoppage snooze' v
        end.

(** Every round that goes on sleeps for at least 100 ms, so the 600 s are
    over after 6000 rounds. *)
Definition fetchCurrentVersion_rounds : nat := 6000.

Definition setState (state : ActionState) : M unit :=
  j ← get_job;
  (if (bool_decide (state = COMPLETE) || bool_decide (state = FAILED))
      && bool_decide (_state j ≠ state)
   then
     (* This error happens if we abort the action because we assumed that
        it would take too long. In this case it has been rescheduled and
        we must not unlock the shard! We also do not report the error in
        the agency. *)
     let haveRequeued := Result_is (_result j) TRI_ERROR_ACTION_UNFINISHED in
     database ← getDatabase;
     shard ← getShard;
     (* by all means we must unlock when we leave this scope *)
     let shardUnlocker :=
       if negb haveRequeued then modify_feature (unlockShard shard)
       else mret tt in
     scopeGuard shardUnlocker
       ((if bool_decide (state = COMPLETE) then
           (* because we succeeded now, we can wipe out all past failures *)
           modify_feature (removeReplicationError database shard)
         else
           (* check if we have hit the configured shard synchronization
              attempt timeout. if so, this does not count as an error *)
           let isTimeoutExceeded :=
             Result_is (_result j)
               TRI_ERROR_REPLICATION_SHARD_SYNC_ATTEMPT_TIMEOUT_EXCEEDED in
           (if negb haveRequeued && negb isTimeoutExceeded then
              (* increase failure counter for this shard *)
              modify_feature (storeReplicationError database shard)
            else mret tt);;
           (if isTimeoutExceeded then
              (* track the number of timeouts *)
              modify_feature countTimedOutSyncAttempt
            else mret tt));;
        (* Acquire current version from agency and wait for it to have been
           dealt with in local current cache. *)
        now ← steady_clock_now;
        let stoppage := (now + 600)%Q in
        v ← fetchCurrentVersion_loop fetchCurrentVersion_rounds stoppage
              (1 # 10) 0;
        (if (0 <? v)%N then emit (EvWaitForCurrentVersion v) else mret tt);;
        modify_feature (incShardVersion shard))
   else mret tt);;
  (* ActionBase::setState(state) *)
  modify_job (with_state state).

(** ** What the proofs look at *)

(** The DELETE requests sent to the leader, newest first: route and body. *)
Fixpoint deletes (t : Trace) : list (string * VPackSlice) :=
  match t with
  | [] => []
  | EvSendRequest Delete url body _ :: t' => (url, body) :: deletes t'
  | _ :: t' => deletes t'
  end.

(** The request that [cancelReadLockOnLeader] sends for a lock: a DELETE
    on the lock route with the lock's id, in decimal, as its body. *)
Definition cancelBody (lockJobId : N) : VPackSlice :=
  VObject [(ID, VString (to_string lockJobId))].
Definition cancelRequest (lockJobId : N) : string * VPackSlice :=
  (REPL_HOLD_READ_LOCK, cancelBody lockJobId).

(** The history right after the request for the exclusive lock [rlid]: the
    pool was asked for, the lock id was asked for (GET), the lock was asked
    for (POST). *)
Definition hardLockRequest (env : Env) (st : St) (collection : string)
  (rlid : N) (timeout : Q) : Trace :=
  let database := DATABASE (_description (job st)) in
  EvSendRequest Post REPL_HOLD_READ_LOCK
    (getReadLock_body env collection rlid false timeout)
    (getReadLock_options database false timeout)
  :: EvSendRequest Get REPL_HOLD_READ_LOCK VNone
       (mkOptions database timeout true)
  :: EvPool :: trace st.

(** The number that an answer carries under [key], if its body is an
    object that has one there; [before] if not. *)
Definition answered (before : N) (response : Response) (key : string) : N :=
  if VPack_isObject (slice response)
  then default before (VPack_number (VPack_get (slice response) key))
  else before.


(** The leader identities handed to the local shard ([inl]) and to the
    tailing syncer ([inr]), newest first. *)
Fixpoint leader_ids (t : Trace) : list (string + string) :=
  match t with
  | [] => []
  | EvSetTheLeader id :: t' => inl id :: leader_ids t'
  | EvSyncerSetLeaderId id :: t' => inr id :: leader_ids t'
  | _ :: t' => leader_ids t'
  end.

(** The sleeps, newest first. *)
Fixpoint sleeps (t : Trace) : list Q :=
  match t with
  | [] => []
  | EvSleep d :: t' => d :: sleeps t'
  | _ :: t' => sleeps t'
  end.

Definition Qsum (l : list Q) : Q := foldr Qplus 0%Q l.

(** The shutdown polls. *)
Fixpoint polls (t : Trace) : nat :=
  match t with
  | [] => 0
  | EvIsStopping :: t' => S (polls t')
  | _ :: t' => polls t'
  end.

Definition lock_view (st : St) := (deletes (trace st), guards st).
Definition term_view (st : St) := _followingTermId (job st).
Definition leader_view (st : St) := leader_ids (trace st).
Definition polls_view (st : St) := polls (trace st).
Definition store_view (st : St) :=
  (feature st, _description (job st), _state (job st), _priority (job st)).

(** [preserves view m]: however [m] ends, [view] is as before. *)
Definition preserves {X A} (view : St -> X) (m : M A) : Prop :=
  forall env st, view (m env st).2 = view st.



(** [grows m]: [m] only adds to the history. *)
Definition grows {A} (m : M A) : Prop :=
  forall env st, exists new, trace (m env st).2 = (new ++ trace st)%list.

(** The sleeps and polls of the brake, newest first, for the given naps. *)
Definition brake_trace (naps : list Q) : Trace :=
  flat_map (fun d => [EvSleep d; EvIsStopping]) naps.

(** A nap of the brake: more than nothing, at most half a second. *)
Definition nap_ok (d : Q) : Prop := (0 < d /\ d <= 1 # 2)%Q.

(** The events of the leader-side RPCs, the DELETE requests apart, and of
    the local counts. *)
Definition rpc_event (e : Event) : bool :=
  match e with
  | EvSendRequest Delete _ _ _ => false
  | EvPool | EvSendRequest _ _ _ _ | EvDatabaseGuard _ | EvLookupCollection _
  | EvCollectionCount | EvRecalculateCounts => true
  | _ => false
  end.

(** A view is blind when the RPCs cannot change it, ... *)
Class Blind {X} (view : St -> X) : Prop := {
  blind_event e st :
    rpc_event e = true -> view (set_trace (e :: trace st) st) = view st;
  blind_docCountAtEnd n st :
    view (set_job (with_docCountAtEnd n (job st)) st) = view st
}.

(** ... blind to the term when the answer to a lock request cannot, ... *)
Class BlindTerm {X} (view : St -> X) : Prop := {
  blind_followingTermId n st :
    view (set_job (with_followingTermId n (job st)) st) = view st;
  blind_tailingUpperBoundTick n st :
    view (set_job (with_tailingUpperBoundTick n (job st)) st) = view st
}.

(** ... blind to cancels when a DELETE request cannot, ... *)
Class BlindCancel {X} (view : St -> X) : Prop :=
  blind_cancel url body options st :
    view (set_trace (EvSendRequest Delete url body options :: trace st) st)
    = view st.

(** ... and blind to guards when arming and disarming scope guards
    cannot. *)
Class BlindGuards {X} (view : St -> X) : Prop :=
  blind_guards g st : view (set_guards g st) = view st.

(** ** A scripted world for the examples *)

Definition digit_of (c : ascii) : option N :=
  let n := N_of_ascii c in
  if ((48 <=? n) && (n <=? 57))%N then Some (n - 48)%N else None.

Fixpoint parse_digits (s : string) (acc : N) : option N :=
  match s with
  | EmptyString => Some acc
  | String c rest =>
      match digit_of c with
      | Some d => parse_digits rest (acc * 10 + d)%N
      | None => None
      end
  end.

Definition parse_decimal (s : string) : option N :=
  match s with
  | EmptyString => None
  | _ => parse_digits s 0
  end.

Definition ok_response (body : VPackSlice) : Response :=
  mkResponse fuerte_NoError Result_success body.

Definition error_response (e : fuerte_Error) (code : ErrorCode) : Response :=
  mkResponse e (mkResult code "leader says no") VNone.

(** A leader that hands out lock id 42 and a count of 100, and answers the
    lock request, the add-follower request, the recount request and the
    cancel requests as told. *)
Definition leader_answers (lockAnswer addFollowerAnswer : Response)
  (recountAnswer cancelAnswer : Answer Response) (t : Trace)
  : Answer Response :=
  match t with
  | EvSendRequest Get url _ _ :: _ =>
      if String.eqb url REPL_HOLD_READ_LOCK
      then Returns (ok_response (VObject [(ID, VString "42")]))
      else Returns (ok_response (VObject [("count", VNumber 100)]))
  | EvSendRequest Post _ _ _ :: _ => Returns lockAnswer
  | EvSendRequest Put url _ _ :: _ =>
      if String.eqb url REPL_ADD_FOLLOWER then Returns addFollowerAnswer
      else recountAnswer
  | EvSendRequest Delete _ _ _ :: _ => cancelAnswer
  | _ => Returns (ok_response VNone)
  end.

Record Script := mkScript {
  script_send : Trace -> Answer Response;
  script_stopping : Trace -> bool;
  script_planned : list string;
  script_current : list string;
  script_bulk : Answer Result;
  script_processed : list (N * string);
  script_catchup : Trace -> Answer (Result * N * bool);
  script_finalize : Answer Result;
  script_localCount : N;
  script_recount : Answer N;
  script_attemptTimeout : Q;
  script_elapsed : N
}.

(** This server is ["follower1"]; [pool] tells when the connection pool is
    there, [debug] whether debug messages are written. *)
Definition world_with (pool : Trace -> bool) (debug : bool) (s : Script)
  : Env :=
  mkEnv "follower1" 1 1
    parse_decimal (fun _ => "{}") (fun url => url) (fun _ => "now")
    pool (script_send s)
    (fun _ => Returns tt) (fun _ => true)
    (fun _ => Returns (Result_success, script_localCount s))
    (fun _ => script_recount s) (fun _ => "c1")
    (fun _ => Returns tt) (fun _ => 7%N) (fun _ => script_bulk s)
    (fun _ => "") (fun _ => 1000%N) (fun _ => script_processed s)
    (script_catchup s) (fun _ => script_finalize s)
    (script_stopping s)
    (fun _ => (Result_success, script_planned s)) (fun _ => Some 5%N)
    (fun _ => script_current s) (fun _ => "tcp://leader1")
    (fun _ => script_attemptTimeout s)
    (fun _ => Returns (ResultT_success 3%N))
    (fun _ => script_elapsed s)
    (fun _ => debug).

Definition world_with_pool (pool : Trace -> bool) (s : Script) : Env :=
  world_with pool false s.

(** A world whose connection pool is always there. *)
Definition world (s : Script) : Env := world_with_pool (fun _ => true) s.


Definition hard_lock_answer : Response :=
  ok_response (VObject [(StaticStrings_FollowingTermId, VNumber 17);
                        (LAST_LOG_TICK, VNumber 2000)]).

(** Everything goes well: one round under the soft lock catches up. *)
Definition calm : Script :=
  mkScript
    (leader_answers hard_lock_answer (ok_response (VObject []))
       (Returns (ok_response (VObject []))) (Returns (ok_response (VObject []))))
    (fun _ => false) ["leader1"; "follower1"] ["leader1"]
    (Returns Result_success) [(5%N, "s1")]
    (fun _ => Returns (Result_success, 1500%N, false))
    (Returns Result_success) 100 (Returns 100%N) 0 0.

Definition description1 : ActionDescription :=
  mkDescription "db" "s1" "c1" "leader1" false false.

Definition st0 : St :=
  mkSt [] 1 [] (SynchronizeShard_new description1 NORMAL_PRIORITY)
    (mkFeature ∅ {["s1"]} ∅ 0).




(** The leader finds 100 documents, the follower 90, before and after the
    local recount; the leader answers the recount request as told. *)
Definition wrong_checksum (recountAnswer : Answer Response) : Script :=
  mkScript
    (leader_answers hard_lock_answer
       (error_response fuerte_NoError TRI_ERROR_REPLICATION_WRONG_CHECKSUM)
       recountAnswer (Returns (ok_response (VObject []))))
    (fun _ => false) ["leader1"; "follower1"] ["leader1"]
    (Returns Result_success) [(5%N, "s1")]
    (fun _ => Returns (Result_success, 1500%N, false))
    (Returns Result_success) 90 (Returns 90%N) 0 0.

(** A leader from before 3.8.3: no following term id in the answer. *)
Definition old_leader : Script :=
  mkScript
    (leader_answers (ok_response (VObject [])) (ok_response (VObject []))
       (Returns (ok_response (VObject []))) (Returns (ok_response (VObject []))))
    (fun _ => false) ["leader1"; "follower1"] ["leader1"]
    (Returns Result_success) [(5%N, "s1")]
    (fun _ => Returns (Result_success, 1500%N, false))
    (Returns Result_success) 100 (Returns 100%N) 0 0.

(** The lock request fails with the given transport error. *)
Definition lock_fails (e : fuerte_Error) : Script :=
  mkScript
    (leader_answers (error_response e (TRI_ERROR_other 1))
       (ok_response (VObject []))
       (Returns (ok_response (VObject []))) (Returns (ok_response (VObject []))))
    (fun _ => false) ["leader1"; "follower1"] ["leader1"]
    (Returns Result_success) [(5%N, "s1")]
    (fun _ => Returns (Result_success, 1500%N, false))
    (Returns Result_success) 100 (Returns 100%N) 0 0.

(** What [setState] leaves in the maintenance feature's store, for a job
    [j] that moves to the terminal state [state]. *)
Definition terminal_store (state : ActionState) (j : SynchronizeShard)
  (f : MaintenanceFeature) : MaintenanceFeature :=
  let database := DATABASE (_description j) in
  let shard := desc_SHARD (_description j) in
  let haveRequeued := Result_is (_result j) TRI_ERROR_ACTION_UNFINISHED in
  let isTimeoutExceeded :=
    Result_is (_result j)
      TRI_ERROR_REPLICATION_SHARD_SYNC_ATTEMPT_TIMEOUT_EXCEEDED in
  let booked :=
    if bool_decide (state = COMPLETE) then
      removeReplicationError database shard f
    else
      let counted :=
        if negb haveRequeued && negb isTimeoutExceeded
        then storeReplicationError database shard f else f in
      if isTimeoutExceeded then countTimedOutSyncAttempt counted
      else counted in
  let bumped := incShardVersion shard booked in
  if negb haveRequeued then unlockShard shard bumped else bumped.

(** This server already is in Current. *)
Definition already_current : Script :=
  mkScript
    (leader_answers hard_lock_answer (ok_response (VObject []))
       (Returns (ok_response (VObject []))) (Returns (ok_response (VObject []))))
    (fun _ => false) ["leader1"; "follower1"] ["leader1"; "follower1"]
    (Returns Result_success) [(5%N, "s1")]
    (fun _ => Returns (Result_success, 1500%N, false))
    (Returns Result_success) 100 (Returns 100%N) 0 0.

(** The follower has 20000 documents, the leader 100. *)
Definition far_behind : Script :=
  mkScript
    (leader_answers hard_lock_answer (ok_response (VObject []))
       (Returns (ok_response (VObject []))) (Returns (ok_response (VObject []))))
    (fun _ => false) ["leader1"; "follower1"] ["leader1"]
    (Returns Result_success) [(5%N, "s1")]
    (fun _ => Returns (Result_success, 1500%N, false))
    (Returns Result_success) 20000 (Returns 20000%N) 0 0.

(** The bulk synchronisation fails and every look at the clock finds that
    an hour has passed; the attempt timeout is 10 s. *)
Definition slow_bulk : Script :=
  mkScript
    (leader_answers hard_lock_answer (ok_response (VObject []))
       (Returns (ok_response (VObject []))) (Returns (ok_response (VObject []))))
    (fun _ => false) ["leader1"; "follower1"] ["leader1"]
    (Returns (mkResult (TRI_ERROR_other 1400) "no response")) [(5%N, "s1")]
    (fun _ => Returns (Result_success, 1500%N, false))
    (Returns Result_success) 100 (Returns 100%N) 10 3600000000.

(** The bulk synchronisation fails, and no attempt timeout is set. *)
Definition failing_bulk : Script :=
  mkScript
    (leader_answers hard_lock_answer (ok_response (VObject []))
       (Returns (ok_response (VObject []))) (Returns (ok_response (VObject []))))
    (fun _ => false) ["leader1"; "follower1"] ["leader1"]
    (Returns (mkResult (TRI_ERROR_other 1400) "no response")) [(5%N, "s1")]
    (fun _ => Returns (Result_success, 1500%N, false))
    (Returns Result_success) 100 (Returns 100%N) 0 0.

Definition description_byRevision : ActionDescription :=
  mkDescription "db" "s1" "c1" "leader1" false true.

(** A state in which the shard ["db"/"s1"] has failed [n] times in a row. *)
Definition st_failed (n : N) : St :=
  mkSt [] 1 [] (SynchronizeShard_new description1 NORMAL_PRIORITY)
    (mkFeature {[("db", "s1") := n]} {["s1"]} ∅ 0).

Definition st_byRevision : St :=
  mkSt [] 1 [] (SynchronizeShard_new description_byRevision NORMAL_PRIORITY)
    (mkFeature ∅ {["s1"]} ∅ 0).

(** ** The cancellation checks handed to the syncers *)

(** The deadline test of both checks:
    [endTime.time_since_epoch().count() > 0 && now >= endTime]. *)
Definition deadlinePassed (endTime now : Q) : bool :=
  Qlt_bool 0 endTime && Qle_bool endTime now.

(** Lines 1064-1082: the check given to the tailing syncer.  [true] means
    that the tailing is to be aborted. *)
Definition tailingCancellationCheck (endTime now : Q) : bool :=
  if deadlinePassed endTime now then true (* configured timeout exceeded *)
  else false.

(** The key of the shard's plan in the agency cache. *)
Definition planPath (database : string) (planId : N) (shard : string)
  : string :=
  "Plan/Collections/" +:+ database +:+ "/" +:+ to_string planId
    +:+ "/shards/" +:+ shard.

(** [s.isString() && s.isEqualString(x)] *)
Definition VPack_isEqualString (s : VPackSlice) (x : string) : bool :=
  match s with VString y => String.eqb y x | _ => false end.

(** Lines 612-654: the check given to the initial syncer.  [plan] is what
    the agency cache has under [planPath], if anything; [true] means that
    the synchronisation is to be aborted. *)
Definition initialSyncCancellationCheck (endTime now : Q)
  (leaderId myself : string) (plan : option VPackSlice) : bool :=
  if deadlinePassed endTime now then true (* configured timeout exceeded *)
  else
    match plan with
    | Some (VArray items) =>
        if (2 <=? length items)%nat
           && VPack_isEqualString (default VNone (items !! 0%nat)) leaderId
           && existsb (fun s => VPack_isEqualString s myself) (drop 1 items)
        then false (* do not abort the synchronization *)
        else true
    | _ => true (* abort synchronization *)
    end.

(** ** More of what the proofs look at *)

(** The WAL tailing runs under the exclusive lock, newest first: where each
    started and its upper bound. *)
Fixpoint finalizes (t : Trace) : list (N * N) :=
  match t with
  | [] => []
  | EvSyncCollectionFinalize fromTick toTick :: t' =>
      (fromTick, toTick) :: finalizes t'
  | _ :: t' => finalizes t'
  end.

Definition finalize_view (st : St) := finalizes (trace st).
Definition tick_view (st : St) := _tailingUpperBoundTick (job st).

(** The requests sent to the leader, newest first. *)
Fixpoint requests (t : Trace) : list (RestVerb * string * VPackSlice) :=
  match t with
  | [] => []
  | EvSendRequest verb url body _ :: t' => (verb, url, body) :: requests t'
  | _ :: t' => requests t'
  end.

(** How a run may end: [ret] holds of what it returns, [thr] of what it
    throws. *)
Definition outcome_is {A} (ret : A -> Prop) (thr : Exn -> Prop)
  (o : Outcome A) : Prop :=
  match o with
  | Ret a => ret a
  | Throw e => thr e
  | OutOfFuel => True
  end.

(** [behaves env m P E]: from every state, [m] returns something of which
    [P] holds or throws something of which [E] holds. *)
Definition behaves {A} (env : Env) (m : M A) (P : A -> Prop)
  (E : Exn -> Prop) : Prop :=
  forall st, outcome_is P E (m env st).1.

(** The history is [base] and what came after it. *)
Definition extends (base : Trace) (st : St) : Prop :=
  exists new, trace st = (new ++ base)%list.

(** Since [base], the leader has answered an add-follower request with
    success. *)
Definition registered (env : Env) (base : Trace) (t : Trace) : Prop :=
  exists later earlier body options response,
    t = (later ++ EvSendRequest Put REPL_ADD_FOLLOWER body options
           :: earlier ++ base)%list
    /\ sendRequest_get env
         (EvSendRequest Put REPL_ADD_FOLLOWER body options :: earlier ++ base)
       = Returns response
    /\ Result_ok (combinedResult response) = true.

(** An exception that stands for a failure: its code, if it has one, is
    not [TRI_ERROR_NO_ERROR]. *)
Definition Exn_failing (e : Exn) : Prop :=
  match e with
  | basics_Exception code _ => code <> TRI_ERROR_NO_ERROR
  | std_exception _ => True
  end.

(** No exception of the network layer, of the local count or of the initial
    syncer carries the code of success. *)
Definition sane (env : Env) : Prop :=
  (forall t e, sendRequest_get env t = Throws e -> Exn_failing e)
  /\ (forall t e, collectionCount_ext env t = Throws e -> Exn_failing e)
  /\ (forall t e, initialSyncer_run env t = Throws e -> Exn_failing e).

(** The job's result is a failure, or the follower is registered. *)
Definition failed_or_registered (env : Env) (base : Trace) (st : St) : Prop :=
  Result_ok (_result (job st)) = true -> registered env base (trace st).

(** What is known of an exception of a sane world. *)
Definition sane_exn (env : Env) (e : Exn) : Prop := sane env -> Exn_failing e.

(** [settles env base E m]: a part of the attempt that ends it.  When [m]
    returns, it returns [false], and the job's result is a failure unless
    the follower was registered since [base]. *)
Definition settles (env : Env) (base : Trace) (E : Exn -> Prop) (m : M bool)
  : Prop :=
  forall st, extends base st ->
    match m env st with
    | (Ret b, st') =>
        b = false /\ (sane env -> failed_or_registered env base st')
    | (Throw e, _) => E e
    | (OutOfFuel, _) => True
    end.

(** The brake and the readiness wait either let the attempt go on, having
    only added to the history, or end it with a failure. *)
Definition gives_up_or_goes_on (st : St) (r : Outcome (option bool) * St)
  : Prop :=
  match r with
  | (Ret None, st') => exists new, trace st' = (new ++ trace st)%list
  | (Ret (Some b), st') => b = false /\ Result_ok (_result (job st')) = false
  | (Throw _, _) => False
  | (OutOfFuel, _) => True
  end.


(** [finishing m]: [m] has no loop that the model could cut short. *)
Definition finishing {A} (m : M A) : Prop :=
  forall env st, (m env st).1 <> OutOfFuel.

(** The Current versions the job waited for, newest first. *)
Fixpoint waits (t : Trace) : list N :=
  match t with
  | [] => []
  | EvWaitForCurrentVersion v :: t' => v :: waits t'
  | _ :: t' => waits t'
  end.

(** The leader has answered a request for a lock id with [rlid]. *)
Definition leader_gave_id (env : Env) (database : string) (timeout : Q)
  (rlid : N) : Prop :=
  exists t response,
    sendRequest_get env
      (EvSendRequest Get REPL_HOLD_READ_LOCK VNone
         (mkOptions database timeout true) :: t) = Returns response
    /\ Result_ok (combinedResult response) = true
    /\ VPack_copyString (VPack_get (slice response) ID) ≫= std_stoull env
       = Some rlid.


(** What the job asks the leader first of all: the number of documents of
    its shard. *)
Definition countRequest (j : SynchronizeShard)
  : RestVerb * string * VPackSlice :=
  (Get, "/_api/collection/" +:+ desc_SHARD (_description j) +:+ "/count",
   VNone).

(** What the leader was sent, and what the job is about. *)
Definition talk_view (st : St) := (requests (trace st), _description (job st)).

(** [asks_count_first m]: if [m] sends anything to the leader, the first
    thing it sends is the count request. *)
Definition asks_count_first {A} (m : M A) : Prop :=
  forall env st,
    requests (trace (m env st).2) = requests (trace st)
    \/ exists later,
         requests (trace (m env st).2)
         = (later ++ countRequest (job st) :: requests (trace st))%list.

(** * Proofs *)

(** ** Symbolic execution *)

(** Unfold the monad and the primitive effects, and nothing else. *)
Ltac msimpl :=
  cbv beta iota zeta delta
    [mbind M_bind mret M_ret throw try_catch get_job get_feature get_env
     modify_job modify_feature emit ask ask_exn out_of_fuel result requeueMe
     getDatabase getShard sendRequest NetworkFeature_pool collectionCount
     Slice_get getNumber getNumericValue buildTailingSyncer logsDebug
     steady_clock_now system_clock_now sleep_for
     guard_cancel guard_fire scopeGuard
     set_trace set_clock set_guards set_job set_feature];
  cbn [trace clock guards job feature fst snd negb andb orb].


(** Split on the first thing the run is stuck on: the scrutinee of an
    innermost [match]. *)
Ltac mcase :=
  match goal with
  | |- context [match ?x with _ => _ end] =>
      lazymatch x with
      | context [match _ with _ => _ end] => fail
      | negb ?b => destruct b eqn:?
      | _ => destruct x eqn:?
      end
  end.

Ltac mrun := repeat (msimpl; mcase); msimpl.

(** ** Frame rules *)

Section Preserves.
Context {X : Type} (view : St -> X).

Lemma preserves_ret {A} (a : A) : preserves view (mret a).
Proof. intros env st. reflexivity. Qed.

Lemma preserves_bind {A B} (m : M A) (f : A -> M B) :
  preserves view m -> (forall a, preserves view (f a)) ->
  preserves view (m ≫= f).
Proof.
  intros Hm Hf env st. specialize (Hm env st).
  unfold mbind, M_bind. destruct (m env st) as [[a|e|] st1]; cbn in *;
    [rewrite Hf|..]; done.
Qed.

Lemma preserves_try_catch {A} (m : M A) (h : Exn -> M A) :
  preserves view m -> (forall e, preserves view (h e)) ->
  preserves view (try_catch m h).
Proof.
  intros Hm Hh env st. specialize (Hm env st).
  unfold try_catch. destruct (m env st) as [[a|e|] st1]; cbn in *;
    [|rewrite Hh|]; done.
Qed.

Lemma preserves_throw {A} (e : Exn) : preserves view (throw (A:=A) e).
Proof. intros env st. reflexivity. Qed.

Lemma preserves_ask {T} (e : Event) (oracle : Env -> Trace -> T) :
  (forall st, view (set_trace (e :: trace st) st) = view st) ->
  preserves view (ask e oracle).
Proof. intros H env st. apply H. Qed.

Lemma preserves_ask_exn {T} (e : Event) (oracle : Env -> Trace -> Answer T) :
  (forall st, view (set_trace (e :: trace st) st) = view st) ->
  preserves view (ask_exn e oracle).
Proof.
  intros H env st. unfold ask_exn.
  destruct (oracle env _); apply H.
Qed.

Lemma preserves_emit (e : Event) :
  (forall st, view (set_trace (e :: trace st) st) = view st) ->
  preserves view (emit e).
Proof. intros H env st. apply H. Qed.

Lemma preserves_modify_job (f : SynchronizeShard -> SynchronizeShard) :
  (forall st, view (set_job (f (job st)) st) = view st) ->
  preserves view (modify_job f).
Proof. intros H env st. apply H. Qed.

Lemma preserves_read {A} (f : Env -> St -> A) :
  preserves view (fun env st => (Ret (f env st), st)).
Proof. intros env st. reflexivity. Qed.

Lemma preserves_guard_cancel `{!BlindGuards view} :
  preserves view guard_cancel.
Proof.
  intros env st. unfold guard_cancel.
  destruct (guards st); [done|apply blind_guards].
Qed.

Lemma preserves_guard_fire `{!BlindGuards view} (action : M unit) :
  preserves view action -> preserves view (guard_fire action).
Proof.
  intros H env st. unfold guard_fire.
  destruct (guards st) as [|[] rest]; [done| |done].
  rewrite H. apply blind_guards.
Qed.

Lemma preserves_scopeGuard `{!BlindGuards view} {A} (action : M unit)
    (body : M A) :
  preserves view action -> preserves view body ->
  preserves view (scopeGuard action body).
Proof.
  intros Ha Hb env st. unfold scopeGuard.
  specialize (Hb env (set_guards (true :: guards st) st)).
  destruct (body env _) as [o st1]. cbn [snd] in Hb.
  rewrite blind_guards in Hb.
  destruct (guards st1) as [|[] rest]; cbn [snd]; [done| |].
  - by rewrite Ha, blind_guards.
  - by rewrite blind_guards.
Qed.
End Preserves.

Section Keeps.
Context (env : Env) (I : St -> Prop).




End Keeps.

Create HintDb frame.

(** The side condition of a primitive step: the view does not see it. *)
Ltac blind_side :=
  intros;
  first [ reflexivity
        | apply blind_event; reflexivity
        | apply blind_docCountAtEnd
        | apply blind_followingTermId
        | apply blind_tailingUpperBoundTick
        | apply blind_cancel ].

Ltac frame_step :=
  match goal with
  | |- preserves _ (mret _) => apply preserves_ret
  | |- preserves _ (_ ≫= _) => apply preserves_bind; [|intros]
  | |- preserves _ (try_catch _ _) => apply preserves_try_catch; [|intros]
  | |- preserves _ (scopeGuard _ _) => apply preserves_scopeGuard; [exact _| |]
  | |- preserves _ (guard_fire _) => apply preserves_guard_fire; [exact _|]
  | |- preserves _ guard_cancel => apply preserves_guard_cancel; exact _
  | |- preserves _ (throw _) => apply preserves_throw
  | |- preserves _ (sendRequest _ _ _ _ _) => unfold sendRequest
  | |- preserves _ (Slice_get _ _) => unfold Slice_get
  | |- preserves _ (getNumber _) => unfold getNumber
  | |- preserves _ (getNumericValue _ _ _) => unfold getNumericValue
  | |- preserves _ (ask _ _) => apply preserves_ask; blind_side
  | |- preserves _ (ask_exn _ _) => apply preserves_ask_exn; blind_side
  | |- preserves _ (emit _) => apply preserves_emit; blind_side
  | |- preserves _ (modify_job _) => apply preserves_modify_job; blind_side
  | |- preserves _ (result _ _) => unfold result
  | |- preserves _ (requeueMe _) => unfold requeueMe
  | |- preserves _ get_env => apply preserves_read
  | |- preserves _ get_job => apply preserves_read
  | |- preserves _ get_feature => apply preserves_read
  | |- preserves _ getDatabase =>
      apply (preserves_read _ (fun _ st => DATABASE (_description (job st))))
  | |- preserves _ getShard =>
      apply (preserves_read _ (fun _ st => desc_SHARD (_description (job st))))
  | |- preserves _ logsDebug =>
      apply (preserves_read _
               (fun env st => Logger_isEnabled_DEBUG env (trace st)))
  | |- preserves _ _ => progress cbn [negb andb orb]
  | |- preserves _ (if ?b then _ else _) => destruct b
  | |- preserves _ (match ?x with _ => _ end) => destruct x
  | |- preserves _ _ => solve [eauto with frame typeclass_instances]
  end.

Ltac frame := repeat frame_step.

(** ** What the RPCs leave alone *)

Section Rpc.
Context {X : Type} (view : St -> X) `{!Blind view}.

Lemma NetworkFeature_pool_frame : preserves view NetworkFeature_pool.
Proof. unfold NetworkFeature_pool. frame. Qed.

Lemma collectionCount_frame : preserves view collectionCount.
Proof. unfold collectionCount. frame. Qed.

Hint Resolve NetworkFeature_pool_frame collectionCount_frame : frame.

Lemma getReadLockId_frame pool ep db clientId timeout id :
  preserves view (getReadLockId pool ep db clientId timeout id).
Proof. unfold getReadLockId. frame. Qed.

Lemma collectionReCount_frame c : preserves view (collectionReCount c).
Proof. unfold collectionReCount. frame. Qed.

Lemma addShardFollower_frame pool ep db shard id clientId syncerId info t :
  preserves view
    (addShardFollower pool ep db shard id clientId syncerId info t).
Proof. unfold addShardFollower. frame. Qed.

Lemma collectionCountOnLeader_frame ep :
  preserves view (collectionCountOnLeader ep).
Proof. unfold collectionCountOnLeader. frame. Qed.

Lemma getReadLock_soft_frame `{!BlindCancel view} pool ep coll clientId rlid
    timeout :
  preserves view (getReadLock pool ep coll clientId rlid true timeout).
Proof. unfold getReadLock. frame. Qed.

Hint Resolve getReadLockId_frame getReadLock_soft_frame : frame.

Lemma startReadLockOnLeader_soft_frame `{!BlindCancel view} ep coll clientId
    timeout :
  preserves view (startReadLockOnLeader ep coll clientId true timeout).
Proof. unfold startReadLockOnLeader. frame. Qed.

Lemma getReadLock_frame `{!BlindTerm view, !BlindCancel view} pool ep coll
    clientId rlid soft timeout :
  preserves view (getReadLock pool ep coll clientId rlid soft timeout).
Proof. unfold getReadLock. frame. Qed.

Hint Resolve getReadLock_frame : frame.

Lemma startReadLockOnLeader_frame `{!BlindTerm view, !BlindCancel view} ep
    coll clientId soft timeout :
  preserves view (startReadLockOnLeader ep coll clientId soft timeout).
Proof. unfold startReadLockOnLeader. frame. Qed.

Lemma cancelReadLockOnLeader_frame `{!BlindCancel view} pool ep db id
    clientId t :
  preserves view (cancelReadLockOnLeader pool ep db id clientId t).
Proof. unfold cancelReadLockOnLeader. frame. Qed.

Hint Resolve cancelReadLockOnLeader_frame : frame.

Lemma readLockGuard_action_frame `{!BlindCancel view} ep id clientId :
  preserves view (readLockGuard_action ep id clientId).
Proof. unfold readLockGuard_action. frame. Qed.
End Rpc.

#[export] Hint Resolve NetworkFeature_pool_frame
  collectionCount_frame getReadLockId_frame collectionReCount_frame
  addShardFollower_frame collectionCountOnLeader_frame
  startReadLockOnLeader_soft_frame startReadLockOnLeader_frame
  cancelReadLockOnLeader_frame readLockGuard_action_frame : frame.

Ltac blind_instance :=
  first [ split; intros;
          [ match goal with e : Event |- _ =>
              destruct e; try discriminate end;
            try match goal with verb : RestVerb |- _ =>
                  destruct verb; try discriminate end | ];
          reflexivity
        | split; reflexivity
        | intros ? ? ? ?; reflexivity ].

#[export] Instance lock_view_blind : Blind lock_view.
Proof. blind_instance. Qed.
#[export] Instance lock_view_blind_term : BlindTerm lock_view.
Proof. blind_instance. Qed.

#[export] Instance term_view_blind : Blind term_view.
Proof. blind_instance. Qed.
#[export] Instance term_view_blind_cancel : BlindCancel term_view.
Proof. blind_instance. Qed.
#[export] Instance term_view_blind_guards : BlindGuards term_view.
Proof. blind_instance. Qed.

#[export] Instance leader_view_blind : Blind leader_view.
Proof. blind_instance. Qed.
#[export] Instance leader_view_blind_term : BlindTerm leader_view.
Proof. blind_instance. Qed.
#[export] Instance leader_view_blind_cancel : BlindCancel leader_view.
Proof. blind_instance. Qed.
#[export] Instance leader_view_blind_guards : BlindGuards leader_view.
Proof. blind_instance. Qed.

#[export] Instance polls_view_blind : Blind polls_view.
Proof. blind_instance. Qed.
#[export] Instance polls_view_blind_term : BlindTerm polls_view.
Proof. blind_instance. Qed.
#[export] Instance polls_view_blind_cancel : BlindCancel polls_view.
Proof. blind_instance. Qed.
#[export] Instance polls_view_blind_guards : BlindGuards polls_view.
Proof. blind_instance. Qed.

#[export] Instance store_view_blind : Blind store_view.
Proof. blind_instance. Qed.
#[export] Instance store_view_blind_term : BlindTerm store_view.
Proof. blind_instance. Qed.
#[export] Instance store_view_blind_cancel : BlindCancel store_view.
Proof. blind_instance. Qed.
#[export] Instance store_view_blind_guards : BlindGuards store_view.
Proof. blind_instance. Qed.

(** ** The lock request: [getReadLock] *)

(** C10. When the POST that asks for a lock fails: on could-not-connect,
    [getReadLock] returns an error and sends nothing more; on every other
    failure it sends exactly one DELETE for the same lock and returns the
    result of the POST, whatever the DELETE does (succeed, fail or throw). *)
Theorem getReadLock_failed_POST env st endpoint collection clientId rlid soft
    timeout response :
  let buf := getReadLock_body env collection rlid soft timeout in
  let options :=
    getReadLock_options (DATABASE (_description (job st))) soft timeout in
  let post := EvSendRequest Post REPL_HOLD_READ_LOCK buf options in
  sendRequest_get env (post :: trace st) = Returns response ->
  Result_ok (combinedResult response) = false ->
  let r := getReadLock true endpoint collection clientId rlid soft timeout
             env st in
  if bool_decide (error response = fuerte_CouldNotConnect) then
    (exists res, r.1 = Ret res /\ Result_fail res = true)
    /\ trace r.2 = post :: trace st
  else
    r.1 = Ret (combinedResult response)
    /\ trace r.2
       = EvSendRequest Delete REPL_HOLD_READ_LOCK buf options
           :: post :: trace st.
Proof.
  intros buf options post Hpost Hfail r. subst r buf options post.
  unfold getReadLock. msimpl. rewrite Hpost. msimpl. rewrite Hfail.
  case_bool_decide; mrun; eauto.
Qed.

Lemma getReadLock_failed_POST_witness :
  let r := getReadLock true "tcp://leader1" "s1" "client" 42 true 300
             (world (lock_fails (fuerte_OtherError 1))) st0 in
  r.1 = Ret (mkResult (TRI_ERROR_other 1) "leader says no")
  /\ map fst (deletes (trace r.2)) = [REPL_HOLD_READ_LOCK]
  /\ length (trace r.2) = 2%nat.
Proof.
  pose proof (getReadLock_failed_POST
                (world (lock_fails (fuerte_OtherError 1))) st0
                "tcp://leader1" "s1" "client" 42 true 300
                (error_response (fuerte_OtherError 1) (TRI_ERROR_other 1))
                eq_refl eq_refl) as H.
  cbv zeta in H. rewrite bool_decide_eq_false_2 in H by discriminate.
  destruct H as [H1 H2]. cbv zeta. rewrite H1, H2.
  split; [reflexivity|split; [by vm_compute|reflexivity]].
Defined.

(** ** Lock accounting *)

(** A call of [cancelReadLockOnLeader] sends one DELETE with the id of the
    lock, and nothing when the connection pool is gone. *)
Lemma cancelReadLockOnLeader_locks pool ep db id clientId t env st :
  lock_view (cancelReadLockOnLeader pool ep db id clientId t env st).2
  = (((if pool then [cancelRequest id] else []) ++ deletes (trace st))%list,
     guards st).
Proof. unfold cancelReadLockOnLeader. destruct pool; mrun; done. Qed.












(** An answer to the lock request whose term is out of range: the
    conversion throws inside [getReadLock], after the leader granted the lock
    and before [catchupWithExclusiveLock] has a guard for it. *)
Example hard_lock_answer_out_of_range :
  let answer := ok_response (VObject [(StaticStrings_FollowingTermId,
                                       VInt (-1))]) in
  let w := world (mkScript
                    (leader_answers answer (ok_response (VObject []))
                       (Returns (ok_response (VObject [])))
                       (Returns (ok_response (VObject []))))
                    (fun _ => false) ["leader1"; "follower1"] ["leader1"]
                    (Returns Result_success) [(5%N, "s1")]
                    (fun _ => Returns (Result_success, 1500%N, false))
                    (Returns Result_success) 100 (Returns 100%N) 0 0) in
  let r := catchupWithExclusiveLock "tcp://leader1" "s1" "client" "leader1"
             7 1500 w st0 in
  r.1 = Throw (std_exception "Number out of range")
  /\ deletes (trace r.2) = [].
Proof. by vm_compute. Qed.

(** ** The soft-lock loop *)








(** ** The recount after a checksum mismatch *)





(** A successful answer to the recount request that is not an object: the
    look into the answer throws, and the exception leaves the function. *)
Example checksum_mismatch_recount_not_an_object :
  let w := world (wrong_checksum (Returns (ok_response VNone))) in
  (catchupWithExclusiveLock "tcp://leader1" "s1" "client" "leader1" 7 1500
     w st0).1
  = Throw (std_exception "Expecting Object").
Proof. vm_compute. reflexivity. Qed.

(** A successful answer to the recount request with a negative count: the
    function returns the checksum error when debug messages are not written,
    and throws when they are. *)
Example checksum_mismatch_recount_negative_count :
  let s := wrong_checksum
             (Returns (ok_response (VObject [("count", VInt (-1))]))) in
  let run w := (catchupWithExclusiveLock "tcp://leader1" "s1" "client"
                  "leader1" 7 1500 w st0).1 in
  (exists message,
     run (world_with (fun _ => true) false s)
     = Ret (mkResult TRI_ERROR_REPLICATION_WRONG_CHECKSUM message))
  /\ run (world_with (fun _ => true) true s)
     = Throw (std_exception "Number out of range").
Proof. vm_compute. eauto. Qed.

(** ** The following term id *)

Lemma preserves_bind_tail {X A B} (view : St -> X) (m : M A) (f : A -> M B)
    env st :
  (forall a, preserves view (f a)) ->
  view ((m ≫= f) env st).2 = view (m env st).2.
Proof.
  intros Hf. unfold mbind, M_bind.
  destruct (m env st) as [[a|e|] st1]; cbn [snd]; [apply Hf|done..].
Qed.

Lemma recountAfterWrongChecksum_frame {X} (view : St -> X)
    `{!Blind view, !BlindCancel view, !BlindGuards view} ep coll id clientId
    res :
  (forall st, view (set_trace (EvWrongChecksumCounter :: trace st) st)
              = view st) ->
  preserves view
    (recountAfterWrongChecksum ep coll (readLockGuard_action ep id clientId)
       res).
Proof.
  intros H. unfold recountAfterWrongChecksum.
  repeat first [frame_step | by apply preserves_emit].
Qed.

Lemma finalizeAndRegister_term ep coll clientId syncerId tick id :
  preserves term_view
    (finalizeAndRegister ep coll clientId syncerId tick id
       (readLockGuard_action ep id clientId)).
Proof.
  unfold finalizeAndRegister.
  repeat first
    [ frame_step
    | apply recountAfterWrongChecksum_frame;
      first [exact _ | intros; reflexivity] ].
Qed.

Lemma finalizeAndRegister_leader ep coll clientId syncerId tick id :
  preserves leader_view
    (finalizeAndRegister ep coll clientId syncerId tick id
       (readLockGuard_action ep id clientId)).
Proof.
  unfold finalizeAndRegister.
  repeat first
    [ frame_step
    | apply recountAfterWrongChecksum_frame;
      first [exact _ | intros; reflexivity] ].
Qed.

Lemma catchupWithReadLock_loop_term n ep coll clientId :
  forall didTimeout lastLogTick tickReached,
    preserves term_view
      (catchupWithReadLock_loop n ep coll clientId didTimeout lastLogTick
         tickReached).
Proof.
  induction n as [|n IH]; intros [] tick reached;
    cbn [catchupWithReadLock_loop negb]; try apply preserves_ret.
  apply preserves_bind; [unfold catchupWithReadLock_round; frame|].
  intros [a|[t d]]; [apply preserves_ret|apply IH].
Qed.

Lemma catchupWithReadLock_term ep coll clientId leader lastLogTick :
  preserves term_view (catchupWithReadLock ep coll clientId leader lastLogTick).
Proof. apply catchupWithReadLock_loop_term. Qed.

Lemma not_a_number s : VPack_isNumber s = false -> VPack_number s = None.
Proof. by destruct s. Qed.

Lemma number_of s n : VPack_getNumber s = Returns n -> VPack_number s = Some n.
Proof. unfold VPack_number. by intros ->. Qed.

(** The term changes only on an answer to a request for the exclusive
    lock that carries it. *)
Lemma startReadLockOnLeader_term env st ep coll clientId soft timeout :
  let r := startReadLockOnLeader ep coll clientId soft timeout env st in
  term_view r.2 = term_view st
  \/ (soft = false
      /\ exists t rlid response,
           sendRequest_get env
             (EvSendRequest Post REPL_HOLD_READ_LOCK
                (getReadLock_body env coll rlid false timeout)
                (getReadLock_options (DATABASE (_description (job st))) false
                   timeout) :: t) = Returns response
           /\ Result_ok (combinedResult response) = true
           /\ VPack_isObject (slice response) = true
           /\ VPack_number
                (VPack_get (slice response) StaticStrings_FollowingTermId)
              = Some (term_view r.2)).
Proof.
  unfold startReadLockOnLeader, getReadLockId, getReadLock, term_view,
    VPack_number.
  destruct soft; mrun; try (by left); right; (split; [done|]); cbn;
    eexists _, _, _; (split; [eassumption|]); (split; [assumption|]);
    (split; [assumption|]);
    match goal with
    | H : VPack_getNumber _ = Returns _ |- _ => by rewrite H
    end.
Qed.

(** What an exclusive lock that was granted leaves in the job: the term
    and the upper bound for the WAL tailing are those of the leader's answer
    to the lock request, where the answer is an object that has them as
    numbers, and are as before where it does not. *)
Lemma startReadLockOnLeader_hard_answer env st ep coll clientId timeout res
    lockJobId st1 :
  startReadLockOnLeader ep coll clientId false timeout env st
  = (Ret (res, lockJobId), st1) ->
  Result_ok res = true ->
  exists response,
    sendRequest_get env (hardLockRequest env st coll lockJobId timeout)
    = Returns response
    /\ Result_ok (combinedResult response) = true
    /\ trace st1 = hardLockRequest env st coll lockJobId timeout
    /\ term_view st1
       = answered (term_view st) response StaticStrings_FollowingTermId
    /\ tick_view st1 = answered (tick_view st) response "lastLogTick".
Proof.
  unfold startReadLockOnLeader, getReadLockId, getReadLock, term_view,
    tick_view, hardLockRequest.
  mrun; intros [= <- <- <-] Hok;
    try (exfalso;
         first [ discriminate Hok
               | match goal with
                 | H : Result_ok ?r = false |- _ =>
                     rewrite H in Hok; discriminate Hok
                 end ]);
    eexists; (split; [eassumption|]); (split; [assumption|]);
    (split; [reflexivity|]);
    unfold answered;
    repeat match goal with
           | H : VPack_isObject _ = _ |- _ => rewrite H; clear H
           | H : VPack_getNumber ?s = Returns _ |- _ =>
               rewrite (number_of s _ H); clear H
           | H : VPack_isNumber ?s = false |- _ =>
               rewrite (not_a_number s H); clear H
           end;
    done.
Qed.

Lemma catchupWithExclusiveLock_term env st ep coll clientId leader syncerId
    lastLogTick :
  term_view (catchupWithExclusiveLock ep coll clientId leader syncerId
               lastLogTick env st).2
  = term_view (startReadLockOnLeader ep coll clientId false
                 startReadLockOnLeader_timeout env st).2.
Proof.
  unfold catchupWithExclusiveLock. apply preserves_bind_tail.
  intros [res id].
  repeat first [frame_step | apply finalizeAndRegister_term].
Qed.

(** C7. A job starts with [_followingTermId = 0].  The soft-lock phase
    leaves it alone.  After the hard-lock phase it is non-zero only if the
    answer to the request for the exclusive lock was a success whose body
    is an object that carries that number as [followingTermId].  When the
    exclusive lock is granted, the term is the number the answer carries as
    [followingTermId] (an integer, or a double cut off to one), and zero
    when the answer carries none; the local shard and the tailing syncer are
    then both given the same leader identity, once: the leader id followed
    by ["_"] and the term in decimal when the term is non-zero, the bare
    leader id when it is zero. *)
Theorem followingTermId_and_leader_identity env st ep coll clientId leader
    syncerId lastLogTick :
  _followingTermId (job st) = 0%N ->
  let soft := catchupWithReadLock ep coll clientId leader lastLogTick env st in
  let hard := catchupWithExclusiveLock ep coll clientId leader syncerId
                lastLogTick env st in
  let term := _followingTermId (job hard.2) in
  let leaderId :=
    if bool_decide (term ≠ 0%N) then leader +:+ "_" +:+ itoa term
    else leader in
  _followingTermId (job soft.2) = 0%N
  /\ (term ≠ 0%N ->
      exists t rlid response,
        sendRequest_get env
          (EvSendRequest Post REPL_HOLD_READ_LOCK
             (getReadLock_body env coll rlid false
                startReadLockOnLeader_timeout)
             (getReadLock_options (DATABASE (_description (job st))) false
                startReadLockOnLeader_timeout) :: t) = Returns response
        /\ Result_ok (combinedResult response) = true
        /\ VPack_isObject (slice response) = true
        /\ VPack_number
             (VPack_get (slice response) StaticStrings_FollowingTermId)
           = Some term)
  /\ (forall res lockJobId st1,
        startReadLockOnLeader ep coll clientId false
          startReadLockOnLeader_timeout env st = (Ret (res, lockJobId), st1) ->
        Result_ok res = true ->
        (exists response,
           sendRequest_get env
             (hardLockRequest env st coll lockJobId
                startReadLockOnLeader_timeout) = Returns response
           /\ term = answered 0 response StaticStrings_FollowingTermId)
        /\ leader_ids (trace hard.2)
           = inr leaderId :: inl leaderId :: leader_ids (trace st)).
Proof.
  intros Hzero soft hard term leaderId.
  assert (Hterm : term = term_view (startReadLockOnLeader ep coll clientId
                     false startReadLockOnLeader_timeout env st).2)
    by apply catchupWithExclusiveLock_term.
  clearbody term.
  split; [|split].
  - subst soft. rewrite <- Hzero. apply catchupWithReadLock_term.
  - intros Hnz.
    destruct (startReadLockOnLeader_term env st ep coll clientId false
                startReadLockOnLeader_timeout) as [H|[_ H]].
    + exfalso. apply Hnz. rewrite Hterm, H. exact Hzero.
    + rewrite <- Hterm in H. exact H.
  - intros res lockJobId st1 Hlock Hok.
    destruct (startReadLockOnLeader_hard_answer env st ep coll clientId
                startReadLockOnLeader_timeout res lockJobId st1 Hlock Hok)
      as (response & Hpost & _ & Htrace & Hanswer & _).
    rewrite Hlock in Hterm. cbn [snd] in Hterm.
    split.
    { exists response. split; [exact Hpost|].
      rewrite Hterm, Hanswer. unfold term_view. by rewrite Hzero. }
    unfold term_view in Hterm.
    assert (Hl : leader_view st1 = leader_view st)
      by (unfold leader_view; rewrite Htrace; reflexivity).
    unfold leader_view in Hl.
    subst hard leaderId. unfold leaderIdWithTerm in *.
    unfold catchupWithExclusiveLock.
    unfold mbind at 1, M_bind at 1. rewrite Hlock, Hok. cbn [negb].
    msimpl.
    match goal with
    | |- context [finalizeAndRegister ?a ?b ?c ?d ?e ?f ?g env ?s] =>
        pose proof (finalizeAndRegister_leader a b c d e f env s) as Hfin;
        destruct (finalizeAndRegister a b c d e f g env s) as [o sb]
    end.
    cbn [snd] in Hfin. unfold leader_view in Hfin.
    cbn [trace leader_ids] in Hfin.
    destruct (guards sb) as [|[] rest]; cbn [snd trace].
    + by rewrite Hfin, Hl, Hterm.
    + pose proof (readLockGuard_action_frame leader_view ep lockJobId
                    clientId env
                    (mkSt (trace sb) (clock sb) rest (job sb) (feature sb)))
        as Ha.
      unfold leader_view in Ha. cbn [trace] in Ha.
      by rewrite Ha, Hfin, Hl, Hterm.
    + by rewrite Hfin, Hl, Hterm.
Qed.

Lemma followingTermId_and_leader_identity_witness :
  let hard := catchupWithExclusiveLock "tcp://leader1" "s1" "client" "leader1"
                7 1500 (world calm) st0 in
  _followingTermId (job hard.2) = 17%N
  /\ leader_ids (trace hard.2) = [inr "leader1_17"; inl "leader1_17"].
Proof.
  pose proof (followingTermId_and_leader_identity (world calm) st0
                "tcp://leader1" "s1" "client" "leader1" 7 1500 eq_refl)
    as (_ & _ & H).
  specialize (H Result_success 42%N _ ltac:(vm_compute; reflexivity) eq_refl).
  destruct H as [_ H].
  split; [by vm_compute|]. rewrite H. by vm_compute.
Defined.

(** With a leader that sends no term the bare leader id is used. *)
Example old_leader_bare_id :
  let hard := catchupWithExclusiveLock "tcp://leader1" "s1" "client" "leader1"
                7 1500 (world old_leader) st0 in
  _followingTermId (job hard.2) = 0%N
  /\ leader_ids (trace hard.2) = [inr "leader1"; inl "leader1"].
Proof. by vm_compute. Qed.

(** A leader that sends the term as a double: it is a number all the same,
    and the term is used. *)
Example double_term_is_used :
  let answer := ok_response (VObject [(StaticStrings_FollowingTermId,
                                       VDouble 17)]) in
  let w := world (mkScript
                    (leader_answers answer (ok_response (VObject []))
                       (Returns (ok_response (VObject [])))
                       (Returns (ok_response (VObject []))))
                    (fun _ => false) ["leader1"; "follower1"] ["leader1"]
                    (Returns Result_success) [(5%N, "s1")]
                    (fun _ => Returns (Result_success, 1500%N, false))
                    (Returns Result_success) 100 (Returns 100%N) 0 0) in
  let hard := catchupWithExclusiveLock "tcp://leader1" "s1" "client" "leader1"
                7 1500 w st0 in
  _followingTermId (job hard.2) = 17%N
  /\ leader_ids (trace hard.2) = [inr "leader1_17"; inl "leader1_17"].
Proof. by vm_compute. Qed.

(** ** The terminal transition *)

Lemma micros_nonneg n : (0 <= micros n)%Q.
Proof.
  unfold micros. apply Qle_shift_div_l; [reflexivity|].
  rewrite Qmult_0_l. change 0%Q with (inject_Z 0). rewrite <- Zle_Qle. lia.
Qed.

Lemma Qlt_bool_true a b : Qlt_bool a b = true -> (a < b)%Q.
Proof.
  unfold Qlt_bool. intros H. apply Qnot_le_lt. intros Hle.
  apply Qle_bool_iff in Hle. by rewrite Hle in H.
Qed.

Lemma Qlt_bool_false a b : Qlt_bool a b = false -> (b <= a)%Q.
Proof.
  unfold Qlt_bool. intros H. apply Qle_bool_iff.
  by destruct (Qle_bool b a).
Qed.

(** The wait for the Current version always ends: every round that goes on
    moves the clock by at least 100 ms towards [stoppage]. *)
Lemma fetchCurrentVersion_loop_ends fuel env stoppage :
  forall st snooze v,
    (1 # 10 <= snooze)%Q ->
    (stoppage - clock st <= inject_Z (Z.of_nat fuel) * (1 # 10))%Q ->
    exists v' st',
      fetchCurrentVersion_loop fuel stoppage snooze v env st = (Ret v', st')
      /\ feature st' = feature st /\ job st' = job st
      /\ guards st' = guards st.
Proof.
  induction fuel as [|fuel IH]; intros st snooze v Hsnooze Hfuel;
    cbn [fetchCurrentVersion_loop]; msimpl.
  - pose proof (micros_nonneg (elapsed env (EvNow :: EvIsStopping :: trace st))).
    repeat (mcase; msimpl); eauto 10;
      match goal with
      | H : Qlt_bool _ _ = true |- _ => apply Qlt_bool_true in H
      end; change (inject_Z (Z.of_nat 0)) with 0%Q in Hfuel; exfalso; lra.
  - pose proof (micros_nonneg (elapsed env (EvNow :: EvIsStopping :: trace st)))
      as Hel.
    assert (Hstep : forall st',
              (clock st + micros (elapsed env (EvNow :: EvIsStopping :: trace st))
                 + Qmax 0 snooze <= clock st')%Q ->
              (stoppage - clock st' <= inject_Z (Z.of_nat fuel) * (1 # 10))%Q).
    { intros st' Hclock.
      rewrite Nat2Z.inj_succ, <- Z.add_1_r, inject_Z_plus in Hfuel.
      pose proof (Q.le_max_r 0 snooze). change (inject_Z 1) with 1%Q in Hfuel.
      lra. }
    assert (Hsnooze' : (1 # 10 <= (if Qlt_bool snooze 2
                                   then snooze + (1 # 10) else snooze))%Q)
      by (destruct (Qlt_bool snooze 2); lra).
    repeat (mcase; msimpl); eauto 10;
      match goal with
      | |- context [fetchCurrentVersion_loop fuel stoppage ?sn ?v' env ?s] =>
          destruct (IH s sn v') as (v'' & st'' & -> & Hf & Hj & Hg);
            [ done
            | apply Hstep; cbn [clock]; lra
            | exists v'', st''; cbn in *; eauto ]
      end.
Qed.

Lemma setState_spec env st state :
  state = COMPLETE \/ state = FAILED ->
  _state (job st) <> state ->
  exists st',
    setState state env st = (Ret tt, st')
    /\ job st' = with_state state (job st)
    /\ feature st' = terminal_store state (job st) (feature st)
    /\ guards st' = guards st.
Proof.
  intros Hstate Hnew. unfold setState. msimpl.
  assert (Hcond : (bool_decide (state = COMPLETE) || bool_decide (state = FAILED))
                  && bool_decide (_state (job st) ≠ state) = true).
  { rewrite (bool_decide_eq_true_2 (_state (job st) ≠ state)) by done.
    destruct Hstate as [-> | ->]; done. }
  rewrite Hcond. clear Hcond. msimpl.
  unfold terminal_store.
  destruct (Result_is (_result (job st)) TRI_ERROR_ACTION_UNFINISHED) eqn:Hr,
    (Result_is (_result (job st))
       TRI_ERROR_REPLICATION_SHARD_SYNC_ATTEMPT_TIMEOUT_EXCEEDED) eqn:Ht;
    destruct Hstate as [-> | ->];
    rewrite ?(bool_decide_eq_true_2 (COMPLETE = COMPLETE)) by done;
    rewrite ?(bool_decide_eq_false_2 (FAILED = COMPLETE)) by done;
    msimpl;
    match goal with
    | |- context [fetchCurrentVersion_loop ?fuel ?stop ?sn ?v env ?s] =>
        destruct (fetchCurrentVersion_loop_ends fuel env stop s sn v)
          as (v' & st' & -> & Hf & Hj & Hg);
          [ lra
          | cbn [clock];
            change (inject_Z (Z.of_nat fetchCurrentVersion_rounds))
              with 6000%Q; lra
          | ]
    end;
    cbn [feature job guards] in *;
    destruct (0 <? v')%N; msimpl; rewrite Hg; msimpl;
    rewrite ?Hf, ?Hj, ?Hg; eexists; (split; [reflexivity|]); done.
Qed.

(** The store after the terminal transition. *)
Lemma terminal_store_errors state j f db sh :
  db = DATABASE (_description j) -> sh = desc_SHARD (_description j) ->
  replicationErrors (terminal_store state j f) db sh
  = if bool_decide (state = COMPLETE) then 0%N
    else if Result_is (_result j) TRI_ERROR_ACTION_UNFINISHED
            || Result_is (_result j)
                 TRI_ERROR_REPLICATION_SHARD_SYNC_ATTEMPT_TIMEOUT_EXCEEDED
         then replicationErrors f db sh
         else (replicationErrors f db sh + 1)%N.
Proof.
  intros -> ->. unfold terminal_store.
  destruct (Result_is _ TRI_ERROR_ACTION_UNFINISHED),
    (Result_is _ TRI_ERROR_REPLICATION_SHARD_SYNC_ATTEMPT_TIMEOUT_EXCEEDED);
    case_bool_decide; cbn [negb andb orb];
    unfold replicationErrors, unlockShard, incShardVersion,
      countTimedOutSyncAttempt, storeReplicationError, removeReplicationError;
    cbn [_replErrors]; by rewrite ?lookup_delete_eq, ?lookup_insert_eq.
Qed.

Lemma terminal_store_other_errors state j f database shard :
  (database, shard) <> (DATABASE (_description j), desc_SHARD (_description j)) ->
  replicationErrors (terminal_store state j f) database shard
  = replicationErrors f database shard.
Proof.
  intros Hne. unfold terminal_store.
  destruct (Result_is _ TRI_ERROR_ACTION_UNFINISHED),
    (Result_is _ TRI_ERROR_REPLICATION_SHARD_SYNC_ATTEMPT_TIMEOUT_EXCEEDED);
    case_bool_decide; cbn [negb andb orb];
    unfold replicationErrors, unlockShard, incShardVersion,
      countTimedOutSyncAttempt, storeReplicationError, removeReplicationError;
    cbn [_replErrors];
    by rewrite ?lookup_delete_ne, ?lookup_insert_ne.
Qed.

Lemma terminal_store_locks state j f :
  _shardLocks (terminal_store state j f)
  = if Result_is (_result j) TRI_ERROR_ACTION_UNFINISHED then _shardLocks f
    else _shardLocks f ∖ {[desc_SHARD (_description j)]}.
Proof.
  unfold terminal_store.
  destruct (Result_is _ TRI_ERROR_ACTION_UNFINISHED),
    (Result_is _ TRI_ERROR_REPLICATION_SHARD_SYNC_ATTEMPT_TIMEOUT_EXCEEDED);
    case_bool_decide; reflexivity.
Qed.

Lemma terminal_store_version state j f sh :
  sh = desc_SHARD (_description j) ->
  shardVersion (terminal_store state j f) sh = (shardVersion f sh + 1)%N.
Proof.
  intros ->. unfold terminal_store.
  destruct (Result_is _ TRI_ERROR_ACTION_UNFINISHED),
    (Result_is _ TRI_ERROR_REPLICATION_SHARD_SYNC_ATTEMPT_TIMEOUT_EXCEEDED);
    case_bool_decide; cbn [negb andb orb];
    unfold shardVersion, unlockShard, incShardVersion,
      countTimedOutSyncAttempt, storeReplicationError, removeReplicationError;
    cbn [_shardVersion]; by rewrite lookup_insert_eq.
Qed.

(** The re-tagging of a failed bulk synchronisation (lines 1024-1042). *)
Lemma first_afterSync_timeout env st database shard leader clientId ep r sy :
  (0 < _endTimeForAttempt (job st))%Q ->
  (_endTimeForAttempt (job st)
   <= clock st + micros (elapsed env (EvNow :: trace st)))%Q ->
  let a := first_afterSync database shard leader clientId ep (ResultT_error r)
             sy env st in
  a.1 = Ret false
  /\ errorNumber (_result (job a.2))
     = TRI_ERROR_REPLICATION_SHARD_SYNC_ATTEMPT_TIMEOUT_EXCEEDED.
Proof.
  intros Hset Hover. unfold first_afterSync. msimpl.
  assert (H1 : Qlt_bool 0 (_endTimeForAttempt (job st)) = true).
  { unfold Qlt_bool. destruct (Qle_bool _ 0) eqn:E; [|done].
    apply Qle_bool_iff in E. lra. }
  rewrite H1. msimpl.
  apply Qle_bool_iff in Hover. rewrite Hover. msimpl. done.
Qed.

(** A failed bulk synchronisation whose deadline has not passed, or that
    has none, keeps its error: the job's result carries the error number of
    the failure. *)
Lemma first_afterSync_in_time env st database shard leader clientId ep r sy :
  ~ (0 < _endTimeForAttempt (job st)
     /\ _endTimeForAttempt (job st)
        <= clock st + micros (elapsed env (EvNow :: trace st)))%Q ->
  let a := first_afterSync database shard leader clientId ep (ResultT_error r)
             sy env st in
  a.1 = Ret false
  /\ errorNumber (_result (job a.2)) = errorNumber r
  /\ _description (job a.2) = _description (job st)
  /\ _state (job a.2) = _state (job st)
  /\ feature a.2 = feature st.
Proof.
  intros Hin. unfold first_afterSync. msimpl.
  destruct (Qlt_bool 0 (_endTimeForAttempt (job st))) eqn:Hset; msimpl;
    [|done].
  destruct (Qle_bool _ _) eqn:Hover; msimpl; [|done].
  exfalso. apply Hin. split; [by apply Qlt_bool_true|].
  by apply Qle_bool_iff.
Qed.

(** C5. On the transition to a terminal state the failure counter of the
    job's (database, shard) is reset to zero on [COMPLETE], incremented by
    one on [FAILED] with an ordinary error, and left alone on [FAILED] when
    the result is the attempt-timeout error or the "unfinished" error of a
    requeue; the counters of other shards do not change.  The transition
    always ends.  When the bulk synchronisation failed and the deadline of
    the attempt has passed, [first] ends with the attempt-timeout error as
    the job's result.  When it failed and the deadline has not passed (or
    there is none), the job's result keeps the error number of the failure,
    and the transition to [FAILED] counts it unless it is one of the two
    exempt errors. *)
Theorem failure_counter_lifecycle env st state :
  state = COMPLETE \/ state = FAILED ->
  _state (job st) <> state ->
  let database := DATABASE (_description (job st)) in
  let shard := desc_SHARD (_description (job st)) in
  let done := setState state env st in
  let before := replicationErrors (feature st) database shard in
  let after := replicationErrors (feature done.2) database shard in
  let timedOut :=
    Result_is (_result (job st))
      TRI_ERROR_REPLICATION_SHARD_SYNC_ATTEMPT_TIMEOUT_EXCEEDED in
  let requeued := Result_is (_result (job st)) TRI_ERROR_ACTION_UNFINISHED in
  done.1 = Ret tt
  /\ _state (job done.2) = state
  /\ (state = COMPLETE -> after = 0%N)
  /\ (state = FAILED -> timedOut = false -> requeued = false ->
      after = (before + 1)%N)
  /\ (state = FAILED -> timedOut = true \/ requeued = true -> after = before)
  /\ (forall database' shard',
        (database', shard') <> (database, shard) ->
        replicationErrors (feature done.2) database' shard'
        = replicationErrors (feature st) database' shard')
  /\ (forall st0 db sh leader clientId ep r sy,
        (0 < _endTimeForAttempt (job st0))%Q ->
        (_endTimeForAttempt (job st0)
         <= clock st0 + micros (elapsed env (EvNow :: trace st0)))%Q ->
        let a := first_afterSync db sh leader clientId ep (ResultT_error r)
                   sy env st0 in
        a.1 = Ret false
        /\ errorNumber (_result (job a.2))
           = TRI_ERROR_REPLICATION_SHARD_SYNC_ATTEMPT_TIMEOUT_EXCEEDED)
  /\ (forall st0 db sh leader clientId ep r sy,
        ~ (0 < _endTimeForAttempt (job st0)
           /\ _endTimeForAttempt (job st0)
              <= clock st0 + micros (elapsed env (EvNow :: trace st0)))%Q ->
        let a := first_afterSync db sh leader clientId ep (ResultT_error r)
                   sy env st0 in
        let database0 := DATABASE (_description (job st0)) in
        let shard0 := desc_SHARD (_description (job st0)) in
        a.1 = Ret false
        /\ errorNumber (_result (job a.2)) = errorNumber r
        /\ feature a.2 = feature st0
        /\ forall env',
             _state (job st0) <> FAILED ->
             errorNumber r <> TRI_ERROR_ACTION_UNFINISHED ->
             errorNumber r
             <> TRI_ERROR_REPLICATION_SHARD_SYNC_ATTEMPT_TIMEOUT_EXCEEDED ->
             replicationErrors (feature (setState FAILED env' a.2).2)
               database0 shard0
             = (replicationErrors (feature st0) database0 shard0 + 1)%N).
Proof.
  intros Hstate Hnew database shard done before after timedOut requeued.
  destruct (setState_spec env st state Hstate Hnew)
    as (st' & Hrun & Hjob & Hfeature & _).
  subst done after before timedOut requeued database shard.
  rewrite Hrun. cbn [fst snd]. rewrite Hjob, Hfeature.
  rewrite (terminal_store_errors state (job st) _ _ _ eq_refl eq_refl).
  repeat split.
  - intros ->. done.
  - intros -> -> ->. done.
  - intros -> [H | H]; rewrite bool_decide_eq_false_2 by done; rewrite H;
      [destruct (Result_is (_result (job st)) TRI_ERROR_ACTION_UNFINISHED)|];
      reflexivity.
  - intros. by apply terminal_store_other_errors.
  - by eapply first_afterSync_timeout.
  - by eapply first_afterSync_timeout.
  - by eapply first_afterSync_in_time.
  - by eapply first_afterSync_in_time.
  - by eapply first_afterSync_in_time.
  - intros env' Hst Hunf Htime.
    match goal with
    | |- context [first_afterSync ?a ?b ?c ?d ?e ?f ?g env ?s] =>
        destruct (first_afterSync_in_time env s a b c d e r g H)
          as (_ & Hcode & Hdesc & Hstate0 & Hfeat);
        destruct (setState_spec env'
                    (first_afterSync a b c d e f g env s).2 FAILED
                    (or_intror eq_refl))
          as (st2 & Hrun' & Hjob' & Hfeature' & _)
    end.
    { cbv zeta in Hstate0. by rewrite Hstate0. }
    cbv zeta in *. rewrite Hrun'. cbn [snd]. rewrite Hfeature'.
    rewrite <- Hdesc.
    rewrite (terminal_store_errors FAILED _ _ _ _ eq_refl eq_refl).
    rewrite bool_decide_eq_false_2 by discriminate.
    unfold Result_is. rewrite Hcode.
    rewrite !bool_decide_eq_false_2 by done.
    cbn [orb]. by rewrite Hfeat, Hdesc.
Qed.

Lemma failure_counter_lifecycle_witness :
  let w := world slow_bulk in
  let attempt := first 3 w st_byRevision in
  errorNumber (_result (job attempt.2))
  = TRI_ERROR_REPLICATION_SHARD_SYNC_ATTEMPT_TIMEOUT_EXCEEDED
  /\ replicationErrors (feature (setState FAILED w attempt.2).2) "db" "s1"
     = 0%N.
Proof.
  pose proof (failure_counter_lifecycle (world slow_bulk)
                (first 3 (world slow_bulk) st_byRevision).2 FAILED
                (or_intror eq_refl) ltac:(vm_compute; discriminate))
    as (_ & _ & _ & _ & H & _).
  split; [by vm_compute|].
  refine (eq_trans (H eq_refl (or_introl _)) _); by vm_compute.
Defined.

(** The same failure of the bulk synchronisation with no attempt timeout
    set: the attempt keeps the error of the bulk synchronisation, and the
    terminal transition counts it. *)
Example bulk_failure_in_time_is_counted :
  let w := world failing_bulk in
  let attempt := first 3 w st_byRevision in
  attempt.1 = Ret false
  /\ errorNumber (_result (job attempt.2)) = TRI_ERROR_other 1400
  /\ replicationErrors (feature (setState FAILED w attempt.2).2) "db" "s1"
     = 1%N.
Proof. by vm_compute. Qed.

(** ** The reschedule escape *)

(** C4, as the code has it.  When the two document counts differ by more
    than 10000 and the job does not run at slow-operation priority,
    [first] stops before any synchronisation step: it asks to be requeued at
    slow-operation priority, sets the "unfinished" error as its result and
    returns, with no event and no change to the store.  The terminal
    transition that follows leaves the failure counter alone and does not
    unlock the shard, but it does bump the local version of the shard. *)
Theorem reschedule_large_difference env st database planId shard leader
    clientId syncByRevision ep docCount docCountOnLeader :
  (10000 < docCount - docCountOnLeader
   \/ 10000 < docCountOnLeader - docCount)%N ->
  _priority (job st) <> SLOW_OP_PRIORITY ->
  let r := first_fromCounts database planId shard leader clientId
             syncByRevision ep docCount docCountOnLeader env st in
  let db := DATABASE (_description (job st)) in
  let sh := desc_SHARD (_description (job st)) in
  r.1 = Ret false
  /\ trace r.2 = trace st
  /\ feature r.2 = feature st
  /\ _requeueRequested (job r.2) = Some SLOW_OP_PRIORITY
  /\ errorNumber (_result (job r.2)) = TRI_ERROR_ACTION_UNFINISHED
  /\ forall env',
       _state (job st) <> FAILED ->
       let done := setState FAILED env' r.2 in
       done.1 = Ret tt
       /\ replicationErrors (feature done.2) db sh
          = replicationErrors (feature st) db sh
       /\ _shardLocks (feature done.2) = _shardLocks (feature st)
       /\ shardVersion (feature done.2) sh
          = (shardVersion (feature st) sh + 1)%N.
Proof.
  intros Hdiff Hprio r db sh. subst r db sh.
  assert (Hneeds : needsReschedule (_priority (job st)) docCount
                     docCountOnLeader = true).
  { unfold needsReschedule.
    rewrite (bool_decide_eq_true_2 (_priority (job st) ≠ SLOW_OP_PRIORITY))
      by done.
    rewrite bool_decide_eq_true_2 by (intros ->; lia).
    cbn [andb]. apply orb_true_iff.
    destruct Hdiff; [right|left]; apply andb_true_iff; split;
      apply N.ltb_lt; lia. }
  unfold first_fromCounts. msimpl. rewrite Hneeds. msimpl.
  do 5 (split; [done|]).
  intros env' Hstate.
  match goal with
  | |- context [setState FAILED env' ?s] =>
      destruct (setState_spec env' s FAILED (or_intror eq_refl) Hstate)
        as (st' & Hrun & Hjob & Hfeature & _)
  end.
  rewrite Hrun. cbn [fst snd]. rewrite Hfeature. cbn [job feature].
  split; [done|].
  match goal with
  | |- context [terminal_store FAILED ?j ?f] =>
      rewrite (terminal_store_errors FAILED j f
                 (DATABASE (_description (job st)))
                 (desc_SHARD (_description (job st))) eq_refl eq_refl),
        (terminal_store_version FAILED j f
           (desc_SHARD (_description (job st))) eq_refl),
        terminal_store_locks
  end.
  done.
Qed.

Lemma reschedule_large_difference_witness :
  let w := world far_behind in
  let r := first_fromCounts "db" "c1" "s1" "leader1" "client" false
             "tcp://leader1" 20000 100 w st0 in
  trace r.2 = []
  /\ errorNumber (_result (job r.2)) = TRI_ERROR_ACTION_UNFINISHED
  /\ "s1" ∈ _shardLocks (feature (setState FAILED w r.2).2)
  /\ replicationErrors (feature (setState FAILED w r.2).2) "db" "s1" = 0%N.
Proof.
  pose proof (reschedule_large_difference (world far_behind) st0 "db" "c1"
                "s1" "leader1" "client" false "tcp://leader1" 20000 100
                (or_introl eq_refl) ltac:(discriminate))
    as (_ & Htrace & _ & _ & Hres & Hdone).
  destruct (Hdone (world far_behind) ltac:(discriminate))
    as (_ & Herr & Hlocks & _).
  cbv zeta. split; [exact Htrace|]. split; [exact Hres|].
  split; [|exact Herr].
  refine (eq_ind_r (fun s => "s1" ∈ s) _ Hlocks). by vm_compute.
Defined.

(** The specification's "nor the version-bump side effects" does not
    hold: the follower is 20000 documents against the leader's 100, the
    attempt is requeued (result "unfinished"), the failure counter stays 0
    and the shard stays locked, but the transition to [FAILED] bumps the
    shard's version. *)
Lemma reschedule_bumps_version :
  let w := world far_behind in
  let attempt := first 3 w st0 in
  let done := setState FAILED w attempt.2 in
  errorNumber (_result (job attempt.2)) = TRI_ERROR_ACTION_UNFINISHED
  /\ _requeueRequested (job attempt.2) = Some SLOW_OP_PRIORITY
  /\ replicationErrors (feature done.2) "db" "s1" = 0%N
  /\ shardVersion (feature attempt.2) "s1" = 0%N
  /\ shardVersion (feature done.2) "s1" = 1%N
  /\ shardVersion (feature done.2) "s1" <> shardVersion (feature attempt.2) "s1".
Proof. vm_compute. repeat split; discriminate. Qed.

(** ** The readiness wait *)

Lemma prefix_empty s : String.prefix "" s = true.
Proof. by destruct s. Qed.

Lemma prefix_app_r p : forall s t,
  String.prefix p s = true -> String.prefix p (s +:+ t) = true.
Proof.
  induction p as [|a p IH]; intros s t H; [apply prefix_empty|].
  destruct s as [|b s]; cbn in H; [discriminate|].
  change (String b s +:+ t) with (String b (s +:+ t)). cbn [String.prefix].
  destruct (ascii_dec a b); [by apply IH|discriminate].
Qed.

Lemma prefix_refl p : String.prefix p p = true.
Proof.
  induction p as [|a p IH]; [done|]. cbn [String.prefix].
  by destruct (ascii_dec a a).
Qed.

Lemma AppendShardInformationToMessage_prefix database shard planId startTime
    msg env st :
  exists message,
    AppendShardInformationToMessage database shard planId startTime msg env st
    = (Ret message,
       mkSt (EvNow :: trace st)
         (clock st + micros (elapsed env (EvNow :: trace st)))%Q
         (guards st) (job st) (feature st))
    /\ String.prefix msg message = true.
Proof.
  unfold AppendShardInformationToMessage. msimpl. eexists. split; [done|].
  repeat apply prefix_app_r. apply prefix_refl.
Qed.

(** C6, as the code has it.  A poll of the readiness wait that finds this
    server planned for the shard, the job's leader first in the plan and
    first in Current, and this server in Current too: with the
    forced-resync flag the wait is over and [first] goes on to synchronise;
    without it [first] returns with the error [TRI_ERROR_FAILED] and a
    message that starts with "already done, ", having left the store alone.
    That result is an ordinary failure for the terminal transition: [FAILED]
    increments the failure counter by one. *)
Theorem found_ourselves_in_current env st fuel database planId shard leader
    ourselves forcedResync startTime res planned id others :
  let t1 := EvIsStopping :: trace st in
  let t2 := EvGetShardServers shard :: t1 in
  let t3 := EvGetCollectionNT database planId :: t2 in
  let t4 := EvGetCollectionCurrent database (to_string id) shard :: t3 in
  isStopping env t1 = false ->
  getShardServers env t2 = (res, planned) ->
  Result_ok res = true ->
  ourselves ∈ planned ->
  head planned = Some leader ->
  getCollectionNT env t3 = Some id ->
  currentServers env t4 = leader :: others ->
  ourselves ∈ leader :: others ->
  let r := waitForLeader fuel database planId shard leader ourselves
             forcedResync startTime env st in
  feature r.2 = feature st
  /\ if forcedResync then r.1 = Ret None /\ job r.2 = job st
     else
       r.1 = Ret (Some false)
       /\ errorNumber (_result (job r.2)) = TRI_ERROR_FAILED
       /\ String.prefix "already done, " (errorMessage (_result (job r.2)))
          = true
       /\ forall env',
            _state (job st) <> FAILED ->
            let done := setState FAILED env' r.2 in
            let db := DATABASE (_description (job st)) in
            let sh := desc_SHARD (_description (job st)) in
            done.1 = Ret tt
            /\ replicationErrors (feature done.2) db sh
               = (replicationErrors (feature st) db sh + 1)%N.
Proof.
  intros t1 t2 t3 t4 Hstop Hplan Hok Hin Hhead Hcoll Hcur Hhere r.
  subst r t4 t3 t2 t1.
  destruct fuel; cbn [waitForLeader]; msimpl;
    rewrite Hstop; msimpl; rewrite Hplan, Hok;
    rewrite (bool_decide_eq_true_2 (ourselves ∈ planned)) by done;
    rewrite (bool_decide_eq_true_2 (head planned = Some leader)) by done;
    msimpl; rewrite Hcoll; msimpl; rewrite Hcur; msimpl;
    rewrite (bool_decide_eq_true_2 (leader = leader)) by done;
    rewrite (bool_decide_eq_true_2 (ourselves ∈ leader :: others)) by done;
    destruct forcedResync; msimpl; try done;
    match goal with
    | |- context [AppendShardInformationToMessage ?a ?b ?c ?d ?m env ?s] =>
        destruct (AppendShardInformationToMessage_prefix a b c d m env s)
          as (message & -> & Hprefix)
    end;
    msimpl; (split; [done|]);
    (do 3 (split; [done|])); intros env' Hstate;
    match goal with
    | |- context [setState FAILED env' ?s] =>
        destruct (setState_spec env' s FAILED (or_intror eq_refl) Hstate)
          as (st' & -> & Hjob & Hfeature & _)
    end;
    cbn [fst snd]; rewrite Hfeature; cbn [job feature];
    match goal with
    | |- context [terminal_store FAILED ?j ?f] =>
        rewrite (terminal_store_errors FAILED j f
                   (DATABASE (_description (job st)))
                   (desc_SHARD (_description (job st))) eq_refl eq_refl)
    end; done.
Qed.

Lemma found_ourselves_in_current_witness :
  let w := world already_current in
  let r := waitForLeader 3 "db" "c1" "s1" "leader1" "follower1" false 1 w st0 in
  r.1 = Ret (Some false)
  /\ errorNumber (_result (job r.2)) = TRI_ERROR_FAILED
  /\ replicationErrors (feature (setState FAILED w r.2).2) "db" "s1" = 1%N.
Proof.
  pose proof (found_ourselves_in_current (world already_current) st0 3 "db"
                "c1" "s1" "leader1" "follower1" false 1 Result_success
                ["leader1"; "follower1"] 5 ["follower1"]
                eq_refl eq_refl eq_refl
                ltac:(repeat constructor) eq_refl eq_refl eq_refl
                ltac:(repeat constructor))
    as (_ & Hret & Herr & _ & Hdone).
  destruct (Hdone (world already_current) ltac:(discriminate)) as [_ Hcount].
  cbv zeta. split; [exact Hret|]. split; [exact Herr|exact Hcount].
Defined.

(** The specification's "without incrementing the error counter" does not
    hold: this server is in Current behind the leader, the attempt ends
    with [TRI_ERROR_FAILED] "already done", and the transition to [FAILED]
    counts it as a failure. *)
Lemma already_done_is_counted :
  let w := world already_current in
  let attempt := first 3 w st0 in
  let done := setState FAILED w attempt.2 in
  attempt.1 = Ret false
  /\ errorNumber (_result (job attempt.2)) = TRI_ERROR_FAILED
  /\ String.prefix "already done, " (errorMessage (_result (job attempt.2)))
     = true
  /\ replicationErrors (feature attempt.2) "db" "s1" = 0%N
  /\ replicationErrors (feature done.2) "db" "s1" = 1%N
  /\ replicationErrors (feature done.2) "db" "s1"
     <> replicationErrors (feature attempt.2) "db" "s1".
Proof. vm_compute. repeat split; discriminate. Qed.

(** ** The history only grows *)

Lemma grows_ret {A} (a : A) : grows (mret a).
Proof. intros env st. by exists []. Qed.

Lemma grows_bind {A B} (m : M A) (f : A -> M B) :
  grows m -> (forall a, grows (f a)) -> grows (m ≫= f).
Proof.
  intros Hm Hf env st. destruct (Hm env st) as [new1 H1].
  unfold mbind, M_bind. destruct (m env st) as [[a|e|] st1]; cbn [snd] in *;
    [|by exists new1..].
  destruct (Hf a env st1) as [new2 H2]. exists (new2 ++ new1)%list.
  by rewrite H2, H1, app_assoc.
Qed.

Lemma grows_try_catch {A} (m : M A) (h : Exn -> M A) :
  grows m -> (forall e, grows (h e)) -> grows (try_catch m h).
Proof.
  intros Hm Hh env st. destruct (Hm env st) as [new1 H1].
  unfold try_catch. destruct (m env st) as [[a|e|] st1]; cbn [snd] in *;
    [by exists new1| |by exists new1].
  destruct (Hh e env st1) as [new2 H2]. exists (new2 ++ new1)%list.
  by rewrite H2, H1, app_assoc.
Qed.

Lemma grows_guard_fire (action : M unit) :
  grows action -> grows (guard_fire action).
Proof.
  intros H env st. unfold guard_fire.
  destruct (guards st) as [|[] rest]; [by exists []| |by exists []].
  apply (H env (set_guards (false :: rest) st)).
Qed.

Lemma grows_scopeGuard {A} (action : M unit) (body : M A) :
  grows action -> grows body -> grows (scopeGuard action body).
Proof.
  intros Ha Hb env st. unfold scopeGuard.
  destruct (Hb env (set_guards (true :: guards st) st)) as [new1 H1].
  destruct (body env _) as [o st1]. cbn [snd trace set_guards] in *.
  destruct (guards st1) as [|[] rest]; cbn [snd]; [by exists new1| |by exists new1].
  destruct (Ha env (set_guards rest st1)) as [new2 H2].
  exists (new2 ++ new1)%list. cbn [trace set_guards] in H2.
  by rewrite H2, H1, app_assoc.
Qed.

Lemma grows_prim {A} (m : M A) :
  (forall env st, trace (m env st).2 = trace st
                  \/ exists e, trace (m env st).2 = e :: trace st) ->
  grows m.
Proof.
  intros H env st. destruct (H env st) as [->|[e ->]];
    [by exists []|by exists [e]].
Qed.

Ltac solve_grows_prim :=
  apply grows_prim; intros ? ?; mrun; eauto.

Ltac grows_step :=
  match goal with
  | |- grows (mret _) => apply grows_ret
  | |- grows (_ ≫= _) => apply grows_bind; [|intros]
  | |- grows (try_catch _ _) => apply grows_try_catch; [|intros]
  | |- grows (scopeGuard _ _) => apply grows_scopeGuard
  | |- grows (guard_fire _) => apply grows_guard_fire
  | |- grows (result _ _) => unfold result
  | |- grows (requeueMe _) => unfold requeueMe
  | |- grows _ => progress cbn [negb andb orb]
  | |- grows (if ?b then _ else _) => destruct b
  | |- grows (match ?x with _ => _ end) => destruct x
  | |- grows _ => solve [eauto with grows]
  | |- grows _ => solve [solve_grows_prim]
  end.

Create HintDb grows.

Lemma grows_getReadLockId pool ep db clientId timeout id :
  grows (getReadLockId pool ep db clientId timeout id).
Proof. unfold getReadLockId. repeat grows_step. Qed.

Lemma grows_getReadLock pool ep coll clientId rlid soft timeout :
  grows (getReadLock pool ep coll clientId rlid soft timeout).
Proof. unfold getReadLock. repeat grows_step. Qed.

#[export] Hint Resolve grows_getReadLockId grows_getReadLock : grows.

Lemma grows_startReadLockOnLeader ep coll clientId soft timeout :
  grows (startReadLockOnLeader ep coll clientId soft timeout).
Proof. unfold startReadLockOnLeader. repeat grows_step. Qed.

Lemma grows_cancelReadLockOnLeader pool ep db id clientId t :
  grows (cancelReadLockOnLeader pool ep db id clientId t).
Proof. unfold cancelReadLockOnLeader. repeat grows_step. Qed.

#[export] Hint Resolve grows_startReadLockOnLeader
  grows_cancelReadLockOnLeader : grows.

Lemma grows_readLockGuard_action ep id clientId :
  grows (readLockGuard_action ep id clientId).
Proof. unfold readLockGuard_action. repeat grows_step. Qed.

Lemma grows_collectionReCount c : grows (collectionReCount c).
Proof. unfold collectionReCount. repeat grows_step. Qed.

Lemma grows_addShardFollower pool ep db shard id clientId syncerId info t :
  grows (addShardFollower pool ep db shard id clientId syncerId info t).
Proof. unfold addShardFollower. repeat grows_step. Qed.

#[export] Hint Resolve grows_readLockGuard_action grows_collectionReCount
  grows_addShardFollower : grows.

Lemma grows_recountAfterWrongChecksum ep coll id clientId res :
  grows (recountAfterWrongChecksum ep coll
           (readLockGuard_action ep id clientId) res).
Proof. unfold recountAfterWrongChecksum. repeat grows_step. Qed.

#[export] Hint Resolve grows_recountAfterWrongChecksum : grows.

Lemma grows_finalizeAndRegister ep coll clientId syncerId tick id :
  grows (finalizeAndRegister ep coll clientId syncerId tick id
           (readLockGuard_action ep id clientId)).
Proof. unfold finalizeAndRegister. repeat grows_step. Qed.

#[export] Hint Resolve grows_finalizeAndRegister : grows.

Lemma grows_catchupWithExclusiveLock ep coll clientId leader syncerId tick :
  grows (catchupWithExclusiveLock ep coll clientId leader syncerId tick).
Proof. unfold catchupWithExclusiveLock. repeat grows_step. Qed.

Lemma grows_catchupWithReadLock_round ep coll clientId tick reached :
  grows (catchupWithReadLock_round ep coll clientId tick reached).
Proof. unfold catchupWithReadLock_round. repeat grows_step. Qed.

Lemma grows_catchupWithReadLock_loop n ep coll clientId :
  forall didTimeout tick reached,
    grows (catchupWithReadLock_loop n ep coll clientId didTimeout tick reached).
Proof.
  induction n as [|n IH]; intros [] tick reached;
    cbn [catchupWithReadLock_loop negb]; try apply grows_ret.
  apply grows_bind; [apply grows_catchupWithReadLock_round|].
  intros [a|[t d]]; [apply grows_ret|apply IH].
Qed.

Lemma grows_catchupWithReadLock ep coll clientId leader tick :
  grows (catchupWithReadLock ep coll clientId leader tick).
Proof. apply grows_catchupWithReadLock_loop. Qed.

#[export] Hint Resolve grows_catchupWithExclusiveLock
  grows_catchupWithReadLock : grows.

(** ** After the bulk synchronisation *)

Lemma grows_after_emit {A} e (k : M A) env st :
  grows k ->
  exists later, trace ((emit e;; k) env st).2 = (later ++ e :: trace st)%list.
Proof. intros H. apply (H env (set_trace (e :: trace st) st)). Qed.

Lemma shardGoneFromLeader_head tick processed shard :
  shardGoneFromLeader (syncSummary tick processed) shard
  = negb (bool_decide (head processed.*2 = Some shard)).
Proof.
  unfold shardGoneFromLeader, syncSummary.
  destruct processed as [|[id name] rest]; [done|].
  cbn. by rewrite bool_decide_eq_false_2 by done.
Qed.

(** The bulk synchronisation is restricted to the shard
    ([restrictCollections] is the shard alone), so every collection it
    processed is the shard.  Then the shard is in the list if and only if it
    is its first entry. *)
Lemma restricted_head (processed : list (N * string)) shard :
  Forall (fun c => c.2 = shard) processed ->
  head processed.*2 = Some shard <-> shard ∈ processed.*2.
Proof.
  intros Hall. destruct processed as [|[id name] rest]; cbn.
  - split; [discriminate|]. intros H. by apply elem_of_nil in H.
  - apply Forall_cons in Hall as [Hname _]. cbn in Hname. subst name.
    split; [intros _; apply elem_of_cons; by left|done].
Qed.

(** C8.  The bulk synchronisation is restricted to the target shard
    (the configuration names the shard as the only collection to include),
    so the collections it reports are the shard or nothing.  After a
    successful bulk synchronisation the attempt goes on to the catch-up
    phase if and only if the shard is in the list of processed collections;
    when it is not, the attempt ends at once with [TRI_ERROR_INTERNAL] and the
    message that the shard seems to be gone from the leader.  What the code
    looks at is the first entry of the list: it goes on exactly when that is
    the shard, which for the lists of a restricted synchronisation is the
    same. *)
Theorem bulk_sync_must_report_shard env st database shard leader
    clientId ep syncerId tick processed :
  let sy := syncSummary tick processed in
  let r := first_afterSync database shard leader clientId ep
             (ResultT_success syncerId) sy env st in
  let goes_on :=
    r = first_catchup shard leader clientId ep syncerId sy env st
    /\ exists later,
         trace r.2 = (later ++ EvSetTailingCancellationCheck :: trace st)%list
  in
  let gone :=
    r.1 = Ret false
    /\ trace r.2 = trace st
    /\ _result (job r.2)
       = mkResult TRI_ERROR_INTERNAL
           ("shard " +:+ database +:+ "/" +:+ shard
              +:+ " seems to be gone from leader, this can happen if a collection was dropped during synchronization!")
  in
  (Forall (fun c => c.2 = shard) processed ->
   (shard ∈ processed.*2 -> goes_on) /\ (shard ∉ processed.*2 -> gone))
  /\ (head processed.*2 = Some shard -> goes_on)
  /\ (head processed.*2 <> Some shard -> gone).
Proof.
  intros sy r goes_on gone.
  assert (Hon : head processed.*2 = Some shard -> goes_on).
  { intros Hhead. subst goes_on r sy. unfold first_afterSync.
    rewrite shardGoneFromLeader_head.
    rewrite bool_decide_eq_true_2 by done. cbn [negb]. split; [done|].
    unfold first_catchup. apply grows_after_emit. repeat grows_step. }
  assert (Hoff : head processed.*2 <> Some shard -> gone).
  { intros Hhead. subst gone r sy. unfold first_afterSync.
    rewrite shardGoneFromLeader_head.
    rewrite bool_decide_eq_false_2 by done. cbn [negb]. msimpl. done. }
  split; [|by split].
  intros Hall. split; intros Hin.
  - by apply Hon, restricted_head.
  - apply Hoff. intros H. by apply Hin, (restricted_head processed shard).
Qed.

Lemma bulk_sync_must_report_shard_witness :
  let w := world calm in
  let r := first_afterSync "db" "s1" "leader1" "client" "tcp://leader1"
             (ResultT_success 7%N) (syncSummary 1000 [(5%N, "s1")]) w st0 in
  r.1 = Ret false /\ _result (job r.2) = Result_success
  /\ EvSetTailingCancellationCheck ∈ trace r.2.
Proof.
  destruct (bulk_sync_must_report_shard (world calm) st0 "db" "s1"
              "leader1" "client" "tcp://leader1" 7 1000 [(5%N, "s1")])
    as [H _].
  destruct (H ltac:(repeat constructor)) as [H' _].
  destruct (H' ltac:(cbn; apply elem_of_cons; by left))
    as [Hrun [later Hlater]].
  cbv zeta in *.
  split; [|split].
  - rewrite Hrun. vm_compute. reflexivity.
  - rewrite Hrun. vm_compute. reflexivity.
  - rewrite Hlater. apply list_elem_of_In, in_or_app. right. by left.
Defined.

(** The bulk synchronisation reports nothing: the shard is gone. *)
Example bulk_sync_reports_nothing :
  let r := first_afterSync "db" "s1" "leader1" "client" "tcp://leader1"
             (ResultT_success 7%N) (syncSummary 1000 []) (world calm) st0 in
  r.1 = Ret false
  /\ errorNumber (_result (job r.2)) = TRI_ERROR_INTERNAL
  /\ trace r.2 = [].
Proof. by vm_compute. Qed.

(** ** The brake *)

Lemma Qsum_snoc naps d : (Qsum (naps ++ [d]) == Qsum naps + d)%Q.
Proof.
  induction naps as [|x naps IH]; unfold Qsum in *; cbn [foldr app];
    [lra|rewrite IH; lra].
Qed.

Lemma brake_trace_snoc naps d t :
  (brake_trace (naps ++ [d]) ++ t)%list
  = (brake_trace naps ++ EvSleep d :: EvIsStopping :: t)%list.
Proof.
  unfold brake_trace. rewrite flat_map_app. cbn.
  by rewrite <- app_assoc.
Qed.

(** The brake sleeps in naps of at most half a second, polls the shutdown
    flag before every nap, sleeps [sleepTime] in total when no shutdown
    comes, and stops at once when one comes. *)
Lemma backoff_loop_spec fuel env :
  forall st sleepTime,
    (sleepTime <= inject_Z (Z.of_nat fuel) * (1 # 2))%Q ->
    let r := backoff_loop fuel sleepTime env st in
    exists naps,
      Forall nap_ok naps
      /\ ((r.1 = Ret None
           /\ trace r.2 = (brake_trace naps ++ trace st)%list
           /\ (Qsum naps == Qmax 0 sleepTime)%Q
           /\ job r.2 = job st /\ feature r.2 = feature st)
          \/ (r.1 = Ret (Some false)
              /\ trace r.2 = (EvIsStopping :: brake_trace naps ++ trace st)%list
              /\ isStopping env (trace r.2) = true
              /\ _result (job r.2) = mkResult TRI_ERROR_SHUTTING_DOWN ""
              /\ (Qsum naps < sleepTime)%Q))
      /\ ((forall t, isStopping env t = false) -> r.1 = Ret None).
Proof.
  induction fuel as [|fuel IH]; intros st sleepTime Hfuel r; subst r;
    cbn [backoff_loop]; msimpl;
    (destruct (Qlt_bool 0 sleepTime) eqn:Hpos;
     [apply Qlt_bool_true in Hpos|apply Qlt_bool_false in Hpos]; msimpl;
     [| exists []; split; [constructor|]; split; [|done]; left;
        destruct (Q.max_spec 0 sleepTime) as [[? ?]|[? ?]];
        repeat split; cbn; lra ]);
    (destruct (isStopping env (EvIsStopping :: trace st)) eqn:Hstop; msimpl;
     [ exists []; split; [constructor|]; split;
       [right; repeat split; cbn; done
       |intros Hnever; by rewrite Hnever in Hstop] |]).
  - change (inject_Z (Z.of_nat 0)) with 0%Q in Hfuel. exfalso. lra.
  - match goal with
    | |- context [backoff_loop fuel ?s env ?st1] =>
        destruct (IH st1 s) as (naps & Hnaps & Hcases & Hnever)
    end.
    { rewrite Nat2Z.inj_succ, <- Z.add_1_r, inject_Z_plus in Hfuel.
      change (inject_Z 1) with 1%Q in Hfuel. unfold sleepPerRound. lra. }
    cbn [trace job feature] in *.
    exists (naps ++ [Qmin sleepTime sleepPerRound])%list.
    assert (Hnap : nap_ok (Qmin sleepTime sleepPerRound)).
    { unfold nap_ok, sleepPerRound.
      destruct (Q.min_spec sleepTime (1 # 2)) as [[? ->]|[? ->]]; lra. }
    split; [apply Forall_app; split; [done|by constructor]|].
    split; [|done].
    rewrite brake_trace_snoc.
    destruct Hcases as [(Hret & Htrace & Hsum & Hj & Hf)
                       |(Hret & Htrace & Hs & Hres & Hsum)]; [left|right];
      repeat split; try done.
    + rewrite Qsum_snoc, Hsum. unfold sleepPerRound.
      destruct (Q.min_spec sleepTime (1 # 2)) as [[? ->]|[? ->]];
        destruct (Q.max_spec 0 (sleepTime - (1 # 2))) as [[? ->]|[? ->]];
        destruct (Q.max_spec 0 sleepTime) as [[? ->]|[? ->]]; lra.
    + rewrite Qsum_snoc. unfold sleepPerRound in *.
      destruct (Q.min_spec sleepTime (1 # 2)) as [[? ->]|[? ->]]; lra.
Qed.





(** Ten failures in a row: 2 + 0.1 * 55 = 7.5 s.  The cap of 15 s is
    reached from 16 failures on. *)
Example backoff_ten_failures :
  let r := backoff (world calm) (st_failed 10) in
  (Qsum (sleeps (trace r.2)) == 75 # 10)%Q
  /\ length (sleeps (trace r.2)) = 15%nat.
Proof. vm_compute. repeat split; reflexivity. Qed.

Example backoff_capped :
  let r := backoff (world calm) (st_failed 16) in
  (Qsum (sleeps (trace r.2)) == 15)%Q /\ length (sleeps (trace r.2)) = 30%nat.
Proof. vm_compute. repeat split; reflexivity. Qed.

(** A shutdown at the third poll: two naps, then the brake gives up. *)
Example backoff_interrupted :
  let stopping (t : Trace) := bool_decide (polls t = 3%nat) in
  let w := world (mkScript (script_send calm) stopping [] [] (Returns Result_success)
                    [] (script_catchup calm) (Returns Result_success) 0
                    (Returns 0%N) 0 0) in
  let r := backoff w (st_failed 7) in
  r.1 = Ret (Some false)
  /\ length (sleeps (trace r.2)) = 2%nat
  /\ errorNumber (_result (job r.2)) = TRI_ERROR_SHUTTING_DOWN.
Proof. vm_compute. repeat split; reflexivity. Qed.

(** * More of the job *)

(** ** How runs end *)

Section Behaves.
Context (env : Env).

Lemma behaves_ret {A} (a : A) (P : A -> Prop) E :
  P a -> behaves env (mret a) P E.
Proof. intros H st. exact H. Qed.

Lemma behaves_bind {A B} (m : M A) (f : A -> M B) P1 P E :
  behaves env m P1 E -> (forall a, P1 a -> behaves env (f a) P E) ->
  behaves env (m ≫= f) P E.
Proof.
  intros Hm Hf st. specialize (Hm st). unfold mbind, M_bind.
  destruct (m env st) as [[a|e|] st1]; cbn in *; [by apply Hf|done..].
Qed.

Lemma behaves_try_catch {A} (m : M A) (h : Exn -> M A) P E1 E :
  behaves env m P E1 -> (forall e, E1 e -> behaves env (h e) P E) ->
  behaves env (try_catch m h) P E.
Proof.
  intros Hm Hh st. specialize (Hm st). unfold try_catch.
  destruct (m env st) as [[a|e|] st1]; cbn in *; [done|by apply Hh|done].
Qed.

Lemma behaves_weaken {A} (m : M A) (P P' : A -> Prop) (E E' : Exn -> Prop) :
  behaves env m P E -> (forall a, P a -> P' a) -> (forall e, E e -> E' e) ->
  behaves env m P' E'.
Proof.
  intros Hm HP HE st. specialize (Hm st).
  destruct (m env st).1; cbn in *; auto.
Qed.

Lemma behaves_scopeGuard {A} (action : M unit) (body : M A) P E :
  behaves env body P E -> behaves env (scopeGuard action body) P E.
Proof.
  intros Hb st. unfold scopeGuard.
  specialize (Hb (set_guards (true :: guards st) st)).
  destruct (body env _) as [o st1]. cbn [fst] in Hb.
  by destruct (guards st1) as [|[] rest].
Qed.

Lemma behaves_ask {T} e (oracle : Env -> Trace -> T) E :
  behaves env (ask e oracle) (fun _ => True) E.
Proof. intros st. exact I. Qed.

Lemma behaves_ask_exn {T} ev (oracle : Env -> Trace -> Answer T)
    (E : Exn -> Prop) :
  (forall t e, oracle env t = Throws e -> E e) ->
  behaves env (ask_exn ev oracle) (fun _ => True) E.
Proof.
  intros H st. unfold ask_exn.
  destruct (oracle env _) eqn:Ho; cbn; [done|by eapply H].
Qed.

(** What does not throw, whatever it does to the state. *)
Lemma behaves_quiet {A} (m : M A) E :
  (forall st, exists a st', m env st = (Ret a, st')) ->
  behaves env m (fun _ => True) E.
Proof. intros H st. by destruct (H st) as (a & st' & ->). Qed.
End Behaves.

(** An error result built from the code of a failure is a failure. *)
Lemma Result_ok_mkResult r message :
  Result_ok r = false -> Result_ok (mkResult (errorNumber r) message) = false.
Proof. done. Qed.

Lemma sane_sendRequest env t e :
  sendRequest_get env t = Throws e -> sane_exn env e.
Proof. intros H (Hs & _). by eapply Hs. Qed.

Lemma sane_collectionCount env t e :
  collectionCount_ext env t = Throws e -> sane_exn env e.
Proof. intros H (_ & Hs & _). by eapply Hs. Qed.

Lemma sane_initialSyncer_run env t e :
  initialSyncer_run env t = Throws e -> sane_exn env e.
Proof. intros H (_ & _ & Hs). by eapply Hs. Qed.

Lemma sane_std env what : sane_exn env (std_exception what).
Proof. by intros _. Qed.

Lemma sane_getNumber env s e : VPack_getNumber s = Throws e -> sane_exn env e.
Proof.
  intros H _. destruct s; cbn in H;
    repeat match type of H with
           | (if ?b then _ else _) = _ => destruct b
           end;
    first [discriminate H | by injection H as <-].
Qed.

Lemma Result_fail_true r : Result_fail r = true -> Result_ok r = false.
Proof. apply negb_true_iff. Qed.

Lemma Result_is_failing r c :
  Result_is r c = true -> c <> TRI_ERROR_NO_ERROR -> Result_ok r = false.
Proof.
  unfold Result_is, Result_ok. intros H Hc.
  apply bool_decide_eq_true_1 in H. apply bool_decide_eq_false_2.
  by rewrite H.
Qed.

(** The end of a symbolic run: what came out is as it should be.  (No
    [done] here: it would compute with the equations on results.) *)
Ltac failing_result :=
  solve [ assumption
        | reflexivity
        | apply Result_fail_true; assumption
        | apply negb_true_iff; assumption
        | eapply Result_is_failing; [eassumption|discriminate] ].

Ltac outcome_done :=
  cbn [outcome_is fst snd];
  first
    [ exact I
    | reflexivity
    | assumption
    | failing_result
    | apply Result_ok_mkResult; failing_result
    | eapply sane_sendRequest; eassumption
    | eapply sane_collectionCount; eassumption
    | eapply sane_initialSyncer_run; eassumption
    | eapply sane_getNumber; eassumption
    | apply sane_std ].

Lemma startReadLockOnLeader_behaves env ep coll clientId soft timeout :
  behaves env (startReadLockOnLeader ep coll clientId soft timeout)
    (fun _ => True) (sane_exn env).
Proof.
  intros st. unfold startReadLockOnLeader, getReadLockId, getReadLock.
  mrun; outcome_done.
Qed.

(** A round of the soft-lock loop that ends the loop reports a failure. *)
Lemma catchupWithReadLock_round_behaves env ep coll clientId tick reached :
  behaves env (catchupWithReadLock_round ep coll clientId tick reached)
    (fun a => match a with
              | inl (ResultT_error r) => Result_ok r = false
              | inl (ResultT_success _) => False
              | inr _ => True
              end)
    (sane_exn env).
Proof.
  intros st.
  unfold catchupWithReadLock_round, startReadLockOnLeader, getReadLockId,
    getReadLock, readLockGuard_action, cancelReadLockOnLeader.
  mrun; outcome_done.
Qed.

Lemma catchupWithReadLock_loop_behaves env n ep coll clientId :
  forall didTimeout tick reached,
    behaves env
      (catchupWithReadLock_loop n ep coll clientId didTimeout tick reached)
      (fun a => match a with
                | ResultT_error r => Result_ok r = false
                | ResultT_success _ => True
                end)
      (sane_exn env).
Proof.
  induction n as [|n IH]; intros [] tick reached;
    cbn [catchupWithReadLock_loop negb]; try by apply behaves_ret.
  eapply behaves_bind; [apply catchupWithReadLock_round_behaves|].
  intros [[r|v]|[t d]] Ha; [by apply behaves_ret|done|apply IH].
Qed.


Lemma behaves_guard_fire env (action : M unit) P E :
  P tt -> behaves env action P E -> behaves env (guard_fire action) P E.
Proof.
  intros HP Ha st. unfold guard_fire.
  destruct (guards st) as [|[] rest]; [done|apply Ha|done].
Qed.

Lemma behaves_throw {A} env (e : Exn) (P : A -> Prop) (E : Exn -> Prop) :
  E e -> behaves env (throw e) P E.
Proof. intros H st. exact H. Qed.

Ltac quiet_prim :=
  apply behaves_quiet; intros ?; unfold guard_cancel;
  repeat first [ progress msimpl | mcase ]; eauto.

Ltac behaves_step :=
  match goal with
  | |- behaves _ (mret _) ?P _ =>
      first [ is_evar P; apply (behaves_ret _ _ (fun _ => True)); exact I
            | apply behaves_ret; outcome_done ]
  | |- behaves _ (_ ≫= _) _ _ => eapply behaves_bind; [|intros ? ?]
  | |- behaves _ (try_catch _ _) _ _ =>
      eapply behaves_try_catch; [|intros ? ?]
  | |- behaves _ (scopeGuard _ _) _ _ => apply behaves_scopeGuard
  | |- behaves _ (guard_fire _) ?P _ =>
      try (is_evar P; unify P (fun _ : unit => True));
      apply behaves_guard_fire; [exact I|]
  | |- behaves _ (throw _) _ _ => apply behaves_throw; outcome_done
  | |- behaves _ (sendRequest _ _ _ _ _) _ _ =>
      apply behaves_ask_exn;
      first [ intros; exact I | intros; by eapply sane_sendRequest ]
  | |- behaves _ collectionCount _ _ =>
      apply behaves_ask_exn;
      first [ intros; exact I | intros; by eapply sane_collectionCount ]
  | |- behaves _ (ask _ _) _ _ => apply behaves_ask
  | |- behaves _ NetworkFeature_pool _ _ => apply behaves_ask
  | |- behaves _ (ask_exn _ _) _ _ =>
      apply behaves_ask_exn;
      first [ intros; exact I
            | intros; by eapply sane_initialSyncer_run ]
  | |- behaves _ _ _ _ => progress cbn [negb andb orb]
  | |- behaves _ (if ?b then _ else _) _ _ => destruct b eqn:?
  | |- behaves _ (match ?x with _ => _ end) _ _ => destruct x eqn:?
  | |- behaves _ (let '(_, _) := ?x in _) _ _ => destruct x eqn:?
  | |- behaves _ _ _ _ => solve [eauto with behaves]
  | |- behaves _ ?m _ _ =>
      lazymatch m with
      | get_job => idtac | get_env => idtac | get_feature => idtac
      | getDatabase => idtac | getShard => idtac | logsDebug => idtac
      | modify_job _ => idtac | modify_feature _ => idtac
      | emit _ => idtac | result _ _ => idtac | requeueMe _ => idtac
      | steady_clock_now => idtac | system_clock_now => idtac
      | sleep_for _ => idtac | guard_cancel => idtac
      end;
      solve [quiet_prim]
  end.

Create HintDb behaves.

(** The accessors of velocypack throw nothing but plain exceptions. *)
Lemma Slice_get_behaves env s key :
  behaves env (Slice_get s key) (fun _ => True) (sane_exn env).
Proof. intros st. destruct s; cbn; first [exact I | apply sane_std]. Qed.

Lemma getNumber_behaves env s :
  behaves env (getNumber s) (fun _ => True) (sane_exn env).
Proof.
  intros st. unfold getNumber.
  destruct (VPack_getNumber s) eqn:H; cbn; [exact I|by eapply sane_getNumber].
Qed.

Lemma getNumericValue_behaves env s name d :
  behaves env (getNumericValue s name d) (fun _ => True) (sane_exn env).
Proof.
  unfold getNumericValue. destruct (VPack_isNumber _);
    [apply getNumber_behaves|by apply behaves_ret].
Qed.

#[export] Hint Resolve Slice_get_behaves getNumber_behaves
  getNumericValue_behaves : behaves.

Lemma collectionReCount_behaves env c :
  behaves env (collectionReCount c) (fun _ => True) (sane_exn env).
Proof. unfold collectionReCount. repeat behaves_step. Qed.

Lemma cancelReadLockOnLeader_behaves env pool ep db id clientId timeout :
  behaves env (cancelReadLockOnLeader pool ep db id clientId timeout)
    (fun _ => True) (sane_exn env).
Proof. unfold cancelReadLockOnLeader. repeat behaves_step. Qed.

Lemma readLockGuard_action_behaves env ep id clientId E :
  behaves env (readLockGuard_action ep id clientId) (fun _ => True) E.
Proof.
  unfold readLockGuard_action.
  eapply behaves_try_catch with (E1 := fun _ => True).
  - eapply behaves_weaken;
      [|intros a Ha; exact Ha|intros e He; exact I].
    eapply behaves_bind; [apply behaves_ask|intros pool _].
    eapply behaves_bind; [quiet_prim|intros db _].
    eapply behaves_bind; [apply cancelReadLockOnLeader_behaves|intros r _].
    by apply behaves_ret.
  - intros e _. by apply behaves_ret.
Qed.

#[export] Hint Resolve collectionReCount_behaves
  cancelReadLockOnLeader_behaves readLockGuard_action_behaves
  startReadLockOnLeader_behaves : behaves.

Lemma recountAfterWrongChecksum_behaves env ep coll id clientId res :
  Result_ok res = false ->
  behaves env
    (recountAfterWrongChecksum ep coll (readLockGuard_action ep id clientId)
       res)
    (fun r => Result_ok r = false) (sane_exn env).
Proof.
  intros Hres. unfold recountAfterWrongChecksum. repeat behaves_step.
Qed.

(** ** Registration *)

Lemma registered_later env base new t :
  registered env base t -> registered env base (new ++ t)%list.
Proof.
  intros (later & earlier & body & options & response & -> & H).
  exists (new ++ later)%list, earlier, body, options, response.
  by rewrite <- app_assoc.
Qed.

Lemma registered_rebase env base mid t :
  registered env (mid ++ base)%list t -> registered env base t.
Proof.
  intros (later & earlier & body & options & response & -> & H).
  exists later, (earlier ++ mid)%list, body, options, response.
  by rewrite <- !app_assoc.
Qed.


(** [addShardFollower] always returns, and it returns success only after
    the leader has answered the add-follower request with success. *)
Lemma addShardFollower_registers env st pool ep db shard id clientId
    syncerId info timeout :
  let r := addShardFollower pool ep db shard id clientId syncerId info
             timeout env st in
  exists res,
    r.1 = Ret res
    /\ (Result_ok res = true -> registered env (trace st) (trace r.2)).
Proof.
  unfold addShardFollower.
  mrun; eexists; (split; [reflexivity|]); intros Hok;
    first
      [ exfalso;
        match type of Hok with
        | Result_ok ?R = true =>
            assert (Hf : Result_ok R = false) by outcome_done;
            rewrite Hf in Hok; discriminate Hok
        end
      | match goal with
        | H : sendRequest_get _ (_ :: _) = Returns ?r |- _ =>
            unfold registered;
            eexists [], [EvCollectionCount; EvLookupCollection shard;
                         EvDatabaseGuard db], _, _, r;
            split; [reflexivity|split; [exact H|]]
        end;
        apply negb_false_iff; assumption ].
Qed.

(** A result that is known to be a failure is not a success. *)
Ltac not_ok :=
  let Hok := fresh "Hok" in
  intros Hok; exfalso;
  match type of Hok with
  | Result_ok ?R = true =>
      let Hf := fresh in
      assert (Hf : Result_ok R = false) by outcome_done;
      rewrite Hf in Hok; discriminate Hok
  end.

Lemma finalizeAndRegister_registers env st ep coll clientId syncerId tick id :
  let r := finalizeAndRegister ep coll clientId syncerId tick id
             (readLockGuard_action ep id clientId) env st in
  outcome_is
    (fun res => Result_ok res = true -> registered env (trace st) (trace r.2))
    (sane_exn env) r.1.
Proof.
  unfold finalizeAndRegister. msimpl.
  destruct (syncCollectionFinalize env _) as [res|ex]; msimpl.
  all: match goal with
       | |- context [if negb (Result_ok ?r) then _ else _] =>
           destruct (Result_ok r) eqn:Hfin; msimpl; [|not_ok]
       end.
  2: discriminate Hfin.
  match goal with
  | |- context [addShardFollower ?pool ?e ?db ?sh ?i ?c ?sy ?info ?t env ?s] =>
      destruct (addShardFollower_registers env s pool e db sh i c sy info t)
        as (res' & Hres & Hreg);
      destruct (addShardFollower pool e db sh i c sy info t env s)
        as [o s'] eqn:Hadd
  end.
  cbn [fst snd trace] in Hres, Hreg. subst o.
  destruct (Result_is res' TRI_ERROR_REPLICATION_WRONG_CHECKSUM) eqn:Hsum.
  - assert (Hfail : Result_ok res' = false)
      by (eapply Result_is_failing; [eassumption|discriminate]).
    pose proof (recountAfterWrongChecksum_behaves env ep coll id clientId
                  res' Hfail s') as Hrec.
    destruct (recountAfterWrongChecksum _ _ _ _ env s') as [[r|e|] s''];
      cbn [outcome_is fst snd] in *; [not_ok|exact Hrec|exact I].
  - destruct (Result_ok res') eqn:Hok'; msimpl; [|not_ok].
    intros _.
    exact (registered_rebase env (trace st) [_; _] _ (Hreg eq_refl)).
Qed.

Lemma outcome_is_weaken {A} (P P' : A -> Prop) (E : Exn -> Prop) o :
  outcome_is P E o -> (forall a, P a -> P' a) -> outcome_is P' E o.
Proof. destruct o; cbn; auto. Qed.

Lemma catchupWithExclusiveLock_registers env st ep coll clientId leader
    syncerId tick :
  let r := catchupWithExclusiveLock ep coll clientId leader syncerId tick
             env st in
  outcome_is
    (fun res => Result_ok res = true -> registered env (trace st) (trace r.2))
    (sane_exn env) r.1.
Proof.
  unfold catchupWithExclusiveLock. msimpl.
  pose proof (startReadLockOnLeader_behaves env ep coll clientId false
                startReadLockOnLeader_timeout st) as Hb.
  destruct (grows_startReadLockOnLeader ep coll clientId false
              startReadLockOnLeader_timeout env st) as [new Hnew].
  destruct (startReadLockOnLeader _ _ _ _ _ env st) as [[[res id]|e|] st1];
    cbn [outcome_is fst snd] in *; [|exact Hb|exact I].
  destruct (Result_ok res) eqn:Hres; cbn [negb]; [|msimpl; not_ok].
  msimpl.
  match goal with
  | |- context [finalizeAndRegister ?a ?b ?c ?d ?e ?f ?g env ?s] =>
      pose proof (finalizeAndRegister_registers env s a b c d e f) as Hfin;
      destruct (finalizeAndRegister a b c d e f g env s) as [o sb]
  end.
  cbn [fst snd trace] in Hfin.
  assert (Hbase : forall later t,
            registered env
              (EvSyncerSetLeaderId later :: EvSetTheLeader later :: trace st1)
              t ->
            registered env (trace st) t).
  { intros later t H. rewrite Hnew in H.
    exact (registered_rebase env (trace st) (_ :: _ :: new) _ H). }
  destruct (guards sb) as [|[] rest]; cbn [fst snd].
  - eapply outcome_is_weaken; [exact Hfin|]. cbn beta. eauto.
  - destruct (grows_readLockGuard_action ep id clientId env
                (mkSt (trace sb) (clock sb) rest (job sb) (feature sb)))
      as [new2 H2].
    cbn [trace] in H2. rewrite H2.
    eapply outcome_is_weaken; [exact Hfin|]. cbn beta.
    intros a Ha Hok. apply registered_later. eauto.
  - eapply outcome_is_weaken; [exact Hfin|]. cbn beta. eauto.
Qed.

(** ** How an attempt ends *)

Lemma extends_later base new st st' :
  trace st' = (new ++ trace st)%list -> extends base st -> extends base st'.
Proof.
  intros H [new0 H0]. exists (new ++ new0)%list.
  by rewrite H, H0, app_assoc.
Qed.

Section Settles.
Context (env : Env) (base : Trace).

(** The attempt ends with a failure. *)
Lemma settles_failed r E :
  (sane env -> Result_ok r = false) ->
  settles env base E (modify_job (with_result r);; mret false).
Proof.
  intros Hr st Hext. msimpl. split; [reflexivity|].
  intros Hs Hok. cbn in Hok. rewrite (Hr Hs) in Hok. discriminate Hok.
Qed.

Lemma settles_result code message E :
  (sane env -> code <> TRI_ERROR_NO_ERROR) ->
  settles env base E (result code message;; mret false).
Proof.
  intros Hc. apply settles_failed. intros Hs.
  apply bool_decide_eq_false_2. exact (Hc Hs).
Qed.

Lemma settles_bind {A} (m : M A) (f : A -> M bool) P E :
  grows m -> behaves env m P E ->
  (forall a, P a -> settles env base E (f a)) ->
  settles env base E (m ≫= f).
Proof.
  intros Hg Hm Hf st Hext. specialize (Hm st). destruct (Hg env st) as [new Hn].
  unfold mbind, M_bind. destruct (m env st) as [[a|e|] st1];
    cbn [outcome_is fst snd] in *; [|exact Hm|exact I].
  apply (Hf a Hm st1). by eapply extends_later.
Qed.

Lemma settles_try_catch (m : M bool) (h : Exn -> M bool) E1 E :
  grows m -> settles env base E1 m ->
  (forall e, E1 e -> settles env base E (h e)) ->
  settles env base E (try_catch m h).
Proof.
  intros Hg Hm Hh st Hext. specialize (Hm st Hext).
  destruct (Hg env st) as [new Hn].
  unfold try_catch. destruct (m env st) as [[a|e|] st1]; cbn [snd] in *;
    [exact Hm| |exact I].
  apply (Hh e Hm st1). by eapply extends_later.
Qed.

Lemma settles_weaken (m : M bool) (E E' : Exn -> Prop) :
  settles env base E m -> (forall e, E e -> E' e) -> settles env base E' m.
Proof.
  intros Hm HE st Hext. specialize (Hm st Hext).
  destruct (m env st) as [[a|e|] st1]; auto.
Qed.
End Settles.

Lemma first_catchup_settles env base shard leader clientId ep syncerId sy :
  settles env base (sane_exn env)
    (first_catchup shard leader clientId ep syncerId sy).
Proof.
  unfold first_catchup.
  eapply settles_bind; [solve_grows_prim|quiet_prim|intros _ _].
  eapply settles_bind;
    [solve_grows_prim|apply getNumericValue_behaves|intros lastTick _].
  intros st Hext. msimpl.
  match goal with
  | |- context [catchupWithReadLock ?a ?b ?c ?d ?t env ?s] =>
      pose proof (catchupWithReadLock_loop_behaves env 18 a b c true t 0 s)
        as Hsoft;
      destruct (grows_catchupWithReadLock a b c d t env s) as [new1 Hn1];
      change (catchupWithReadLock_loop 18 a b c true t 0)
        with (catchupWithReadLock a b c d t) in Hsoft;
      destruct (catchupWithReadLock a b c d t env s) as [[[r|tick]|e|] st1]
  end; cbn [outcome_is fst snd trace] in *; [| |exact Hsoft|exact I].
  - msimpl. split; [reflexivity|]. intros _ Hok. cbn in Hok.
    rewrite Hsoft in Hok. discriminate Hok.
  - match goal with
    | |- context [catchupWithExclusiveLock ?a ?b ?c ?d ?i ?t env ?s] =>
        pose proof (catchupWithExclusiveLock_registers env s a b c d i t)
          as Hhard;
        destruct (catchupWithExclusiveLock a b c d i t env s)
          as [[res|e|] st2]
    end; cbn [outcome_is fst snd trace] in *; [|exact Hhard|exact I].
    destruct (Result_ok res) eqn:Hres; msimpl; (split; [reflexivity|]).
    + intros _ _. destruct Hext as [new0 Hn0].
      specialize (Hhard eq_refl). rewrite Hn1 in Hhard.
      cbn [trace] in Hhard. rewrite Hn0 in Hhard.
      exact (registered_rebase env base (new1 ++ new0) _
               ltac:(by rewrite <- app_assoc)).
    + intros _ Hok. cbn in Hok. rewrite Hres in Hok. discriminate Hok.
Qed.

(** What the bulk synchronisation reports as an error is a failure. *)
Lemma replicationSynchronize_behaves env config E :
  behaves env (replicationSynchronize config)
    (fun a => match a.1 with
              | ResultT_error r => sane env -> Result_ok r = false
              | ResultT_success _ => True
              end) E.
Proof.
  intros st. unfold replicationSynchronize. msimpl.
  destruct (initialSyncer_run env _) as [r|[code what|what]] eqn:Hrun; msimpl.
  - destruct (Result_fail r) eqn:Hr; msimpl; [|exact I].
    intros _. by apply Result_fail_true.
  - intros Hs. apply bool_decide_eq_false_2.
    exact (sane_initialSyncer_run env _ _ Hrun Hs).
  - by intros _.
Qed.

Lemma grows_first_catchup shard leader clientId ep syncerId sy :
  grows (first_catchup shard leader clientId ep syncerId sy).
Proof. unfold first_catchup. repeat grows_step; solve_grows_prim. Qed.

Lemma grows_replicationSynchronize config :
  grows (replicationSynchronize config).
Proof. unfold replicationSynchronize. repeat grows_step; solve_grows_prim. Qed.

Lemma grows_first_afterSync database shard leader clientId ep syncRes sy :
  grows (first_afterSync database shard leader clientId ep syncRes sy).
Proof.
  unfold first_afterSync.
  repeat first [apply grows_first_catchup | grows_step]; solve_grows_prim.
Qed.

Lemma grows_first_attempt database shard leader clientId ep docCount :
  grows (first_attempt database shard leader clientId ep docCount).
Proof.
  unfold first_attempt.
  repeat first [ apply grows_first_afterSync
               | apply grows_replicationSynchronize
               | grows_step ]; solve_grows_prim.
Qed.

Lemma grows_buildTailingSyncer ep : grows (buildTailingSyncer ep).
Proof. unfold buildTailingSyncer. repeat grows_step. Qed.

Lemma buildTailingSyncer_behaves env ep :
  behaves env (buildTailingSyncer ep) (fun _ => True) (fun _ => True).
Proof. intros st. unfold buildTailingSyncer. mrun; exact I. Qed.

#[export] Hint Resolve grows_buildTailingSyncer : grows.
#[export] Hint Resolve buildTailingSyncer_behaves : behaves.

Lemma grows_first_fromCounts database planId shard leader clientId
    syncByRevision ep docCount docCountOnLeader :
  grows (first_fromCounts database planId shard leader clientId
           syncByRevision ep docCount docCountOnLeader).
Proof.
  unfold first_fromCounts.
  repeat first [apply grows_first_attempt | grows_step]; solve_grows_prim.
Qed.

Lemma grows_collectionCountOnLeader ep : grows (collectionCountOnLeader ep).
Proof. unfold collectionCountOnLeader. repeat grows_step; solve_grows_prim. Qed.

Lemma grows_first_sync database planId shard leader clientId syncByRevision :
  grows (first_sync database planId shard leader clientId syncByRevision).
Proof.
  unfold first_sync.
  repeat first [ apply grows_first_fromCounts
               | apply grows_collectionCountOnLeader
               | grows_step ]; solve_grows_prim.
Qed.

Lemma Result_fail_code r :
  Result_fail r = true -> errorNumber r <> TRI_ERROR_NO_ERROR.
Proof.
  intros H. apply negb_true_iff in H. by apply bool_decide_eq_false_1 in H.
Qed.

Lemma Result_ok_code r :
  Result_ok r = false -> errorNumber r <> TRI_ERROR_NO_ERROR.
Proof. apply bool_decide_eq_false_1. Qed.

#[export] Hint Resolve replicationSynchronize_behaves : behaves.

Ltac settles_step :=
  match goal with
  | |- settles _ _ _ (result _ _ ≫= fun _ => mret false) =>
      apply settles_result; intros ?;
      first [ discriminate
            | apply Result_fail_code; assumption
            | apply Result_ok_code; assumption ]
  | |- settles _ _ _ (_ ≫= _) =>
      eapply settles_bind;
      [ solve [repeat grows_step; solve_grows_prim]
      | solve [repeat behaves_step]
      | intros ? ? ]
  | |- settles _ _ _ _ => progress cbn [negb andb orb]
  | |- settles _ _ _ (if ?b then _ else _) => destruct b eqn:?
  | |- settles _ _ _ (match ?x with _ => _ end) => destruct x eqn:?
  end.

Lemma first_afterSync_settles env base database shard leader clientId ep
    syncRes sy :
  match syncRes with
  | ResultT_error r => sane env -> Result_ok r = false
  | ResultT_success _ => True
  end ->
  settles env base (sane_exn env)
    (first_afterSync database shard leader clientId ep syncRes sy).
Proof.
  intros Hsync. unfold first_afterSync. destruct syncRes as [r|syncerId].
  - settles_step.
    eapply settles_bind with (P := fun r' => sane env -> Result_ok r' = false).
    + repeat grows_step; solve_grows_prim.
    + intros st. msimpl. repeat (mcase; msimpl); cbn; auto.
    + intros r' Hr'. apply settles_result. intros Hs.
      apply Result_ok_code. exact (Hr' Hs).
  - repeat settles_step. apply first_catchup_settles.
Qed.

Lemma first_attempt_settles env base database shard leader clientId ep
    docCount :
  settles env base (sane_exn env)
    (first_attempt database shard leader clientId ep docCount).
Proof.
  unfold first_attempt. settles_step. settles_step; [settles_step|].
  do 2 settles_step.
  eapply settles_bind;
    [ apply grows_replicationSynchronize
    | apply replicationSynchronize_behaves
    | intros [syncRes sy] Ha ].
  settles_step. by apply first_afterSync_settles.
Qed.

Lemma first_fromCounts_settles env base database planId shard leader clientId
    syncByRevision ep docCount docCountOnLeader :
  settles env base (fun _ => True)
    (first_fromCounts database planId shard leader clientId syncByRevision ep
       docCount docCountOnLeader).
Proof.
  unfold first_fromCounts. settles_step. settles_step.
  - settles_step. settles_step.
  - do 5 settles_step.
    eapply settles_try_catch with (E1 := sane_exn env).
    + apply grows_first_attempt.
    + apply first_attempt_settles.
    + intros [code what|what] He.
      * apply settles_result. exact He.
      * apply settles_result. by intros _.
Qed.

Lemma collectionCountOnLeader_behaves env ep :
  behaves env (collectionCountOnLeader ep) (fun _ => True) (fun _ => True).
Proof. intros st. unfold collectionCountOnLeader. mrun; exact I. Qed.

#[export] Hint Resolve grows_collectionCountOnLeader : grows.
#[export] Hint Resolve collectionCountOnLeader_behaves : behaves.

Lemma first_sync_settles env base database planId shard leader clientId
    syncByRevision :
  settles env base (fun _ => True)
    (first_sync database planId shard leader clientId syncByRevision).
Proof.
  unfold first_sync.
  repeat first [apply first_fromCounts_settles | settles_step].
Qed.

Lemma backoff_loop_gives_up_or_goes_on env fuel :
  forall sleepTime st,
    gives_up_or_goes_on st (backoff_loop fuel sleepTime env st).
Proof.
  induction fuel as [|fuel IH]; intros sleepTime st;
    cbn [backoff_loop]; msimpl;
    destruct (Qlt_bool 0 sleepTime); msimpl; try (by exists []);
    destruct (isStopping env _); msimpl; try done.
  specialize (IH (sleepTime - sleepPerRound)%Q
                (mkSt (EvSleep (Qmin sleepTime sleepPerRound)
                         :: EvIsStopping :: trace st)
                   (clock st + Qmax 0 (Qmin sleepTime sleepPerRound))%Q
                   (guards st) (job st) (feature st))).
  unfold gives_up_or_goes_on in *.
  destruct (backoff_loop fuel _ env _) as [[[b|]|e|] st']; try done.
  destruct IH as [new Hn]. cbn [trace] in Hn.
  exists (new ++ [EvSleep (Qmin sleepTime sleepPerRound); EvIsStopping])%list.
  by rewrite Hn, <- app_assoc.
Qed.

Lemma backoff_gives_up_or_goes_on env st :
  gives_up_or_goes_on st (backoff env st).
Proof.
  unfold backoff. msimpl.
  destruct (delayThreshold <=? _)%N; msimpl; [|by exists []].
  apply backoff_loop_gives_up_or_goes_on.
Qed.

Lemma waitForLeader_gives_up_or_goes_on env fuel database planId shard leader
    ourselves forcedResync startTime :
  forall st,
    gives_up_or_goes_on st
      (waitForLeader fuel database planId shard leader ourselves forcedResync
         startTime env st).
Proof.
  induction fuel as [|fuel IH]; intros st; cbn [waitForLeader];
    unfold AppendShardInformationToMessage;
    repeat (msimpl; mcase); msimpl; cbn [gives_up_or_goes_on];
    try (split; reflexivity); try (eexists [_; _; _; _]; reflexivity);
    try exact I.
  match goal with
  | |- context [waitForLeader fuel _ _ _ _ _ _ _ env ?s] =>
      specialize (IH s); unfold gives_up_or_goes_on in *;
      destruct (waitForLeader fuel _ _ _ _ _ _ _ env s) as [[[b|]|e|] st'];
      try done
  end.
  destruct IH as [new Hn]. cbn [trace] in Hn.
  eexists (new ++ [_; _; _; _; _])%list. by rewrite Hn, <- app_assoc.
Qed.

(** However [first] is left, it returns [false]; no exception escapes it;
    and its result is a failure unless the follower was registered. *)
Lemma first_ends env fuel st :
  match first fuel env st with
  | (Ret b, st') =>
      b = false /\ (sane env -> failed_or_registered env (trace st) st')
  | (Throw _, _) => False
  | (OutOfFuel, _) => True
  end.
Proof.
  unfold first. msimpl.
  pose proof (backoff_gives_up_or_goes_on env st) as Hb.
  destruct (backoff env st) as [[[b|]|e|] st1];
    cbn [gives_up_or_goes_on] in Hb; msimpl; [| |done..].
  { destruct Hb as [-> Hb]. split; [reflexivity|].
    intros _ Hok. rewrite Hb in Hok. discriminate Hok. }
  destruct Hb as [new1 Hn1].
  match goal with
  | |- context [waitForLeader fuel ?d ?p ?s ?l ?o ?f ?t env ?s2] =>
      pose proof (waitForLeader_gives_up_or_goes_on env fuel d p s l o f t s2)
        as Hw;
      destruct (waitForLeader fuel d p s l o f t env s2) as [[[b|]|e|] st2]
  end; cbn [gives_up_or_goes_on trace] in Hw; msimpl; [| |done..].
  { destruct Hw as [-> Hw]. split; [reflexivity|].
    intros _ Hok. rewrite Hw in Hok. discriminate Hok. }
  destruct Hw as [new2 Hn2].
  match goal with
  | |- context [first_sync ?d ?p ?s ?l ?c ?r env st2] =>
      pose proof (settles_try_catch env (trace st)
                    (first_sync d p s l c r)
                    (fun e => result TRI_ERROR_INTERNAL (Exn_what e);;
                              mret false)
                    (fun _ => True) (fun _ => False)
                    (grows_first_sync d p s l c r)
                    (first_sync_settles env (trace st) d p s l c r)) as Hs
  end.
  assert (Hext : extends (trace st) st2).
  { exists (new2 ++ EvNow :: new1)%list.
    by rewrite Hn2, Hn1, <- app_assoc. }
  specialize (Hs ltac:(intros e _; apply settles_result; by intros _)
                st2 Hext).
  revert Hs. unfold try_catch. msimpl. done.
Qed.

(** ** What always comes to an end *)

Lemma finishing_ret {A} (a : A) : finishing (mret a).
Proof. intros env st. discriminate. Qed.

Lemma finishing_bind {A B} (m : M A) (f : A -> M B) :
  finishing m -> (forall a, finishing (f a)) -> finishing (m ≫= f).
Proof.
  intros Hm Hf env st. specialize (Hm env st). unfold mbind, M_bind.
  destruct (m env st) as [[a|e|] st1]; cbn in *;
    [apply Hf|discriminate|done].
Qed.

Lemma finishing_try_catch {A} (m : M A) (h : Exn -> M A) :
  finishing m -> (forall e, finishing (h e)) -> finishing (try_catch m h).
Proof.
  intros Hm Hh env st. specialize (Hm env st). unfold try_catch.
  destruct (m env st) as [[a|e|] st1]; cbn in *;
    [discriminate|apply Hh|done].
Qed.

Lemma finishing_scopeGuard {A} (action : M unit) (body : M A) :
  finishing body -> finishing (scopeGuard action body).
Proof.
  intros Hb env st. unfold scopeGuard.
  specialize (Hb env (set_guards (true :: guards st) st)).
  destruct (body env _) as [o st1]. cbn [fst] in Hb.
  by destruct (guards st1) as [|[] rest].
Qed.

Lemma finishing_guard_fire (action : M unit) :
  finishing action -> finishing (guard_fire action).
Proof.
  intros Ha env st. unfold guard_fire.
  destruct (guards st) as [|[] rest]; [discriminate|apply Ha|discriminate].
Qed.

Lemma finishing_prim {A} (m : M A) :
  (forall env st, exists o st', m env st = (o, st') /\ o <> OutOfFuel) ->
  finishing m.
Proof. intros H env st. by destruct (H env st) as (o & st' & -> & Ho). Qed.

Ltac solve_finishing_prim :=
  apply finishing_prim; intros ? ?; unfold guard_cancel; mrun;
  eexists _, _; (split; [reflexivity|discriminate]).

Create HintDb finishing.

Ltac finishing_step :=
  match goal with
  | |- finishing (mret _) => apply finishing_ret
  | |- finishing (_ ≫= _) => apply finishing_bind; [|intros]
  | |- finishing (try_catch _ _) => apply finishing_try_catch; [|intros]
  | |- finishing (scopeGuard _ _) => apply finishing_scopeGuard
  | |- finishing (guard_fire _) => apply finishing_guard_fire
  | |- finishing (result _ _) => unfold result
  | |- finishing (requeueMe _) => unfold requeueMe
  | |- finishing _ => progress cbn [negb andb orb]
  | |- finishing (if ?b then _ else _) => destruct b
  | |- finishing (match ?x with _ => _ end) => destruct x
  | |- finishing _ => solve [eauto with finishing]
  | |- finishing ?m =>
      lazymatch m with
      | get_job => idtac | get_env => idtac | get_feature => idtac
      | getDatabase => idtac | getShard => idtac | logsDebug => idtac
      | modify_job _ => idtac | modify_feature _ => idtac
      | emit _ => idtac | ask _ _ => idtac | ask_exn _ _ => idtac
      | throw _ => idtac
      | sendRequest _ _ _ _ _ => idtac | NetworkFeature_pool => idtac
      | collectionCount => idtac
      | Slice_get _ _ => idtac | getNumber _ => idtac
      | getNumericValue _ _ _ => idtac
      | steady_clock_now => idtac | system_clock_now => idtac
      | sleep_for _ => idtac | guard_cancel => idtac
      end;
      solve [solve_finishing_prim]
  end.

Ltac finishing := repeat finishing_step.

Lemma finishing_buildTailingSyncer ep : finishing (buildTailingSyncer ep).
Proof. unfold buildTailingSyncer. finishing. Qed.

#[export] Hint Resolve finishing_buildTailingSyncer : finishing.

Lemma finishing_startReadLockOnLeader ep coll clientId soft timeout :
  finishing (startReadLockOnLeader ep coll clientId soft timeout).
Proof. unfold startReadLockOnLeader, getReadLockId, getReadLock. finishing. Qed.

Lemma finishing_cancelReadLockOnLeader pool ep db id clientId t :
  finishing (cancelReadLockOnLeader pool ep db id clientId t).
Proof. unfold cancelReadLockOnLeader. finishing. Qed.

#[export] Hint Resolve finishing_startReadLockOnLeader
  finishing_cancelReadLockOnLeader : finishing.

Lemma finishing_readLockGuard_action ep id clientId :
  finishing (readLockGuard_action ep id clientId).
Proof. unfold readLockGuard_action. finishing. Qed.

Lemma finishing_addShardFollower pool ep db shard id clientId syncerId info t :
  finishing (addShardFollower pool ep db shard id clientId syncerId info t).
Proof. unfold addShardFollower. finishing. Qed.

#[export] Hint Resolve finishing_readLockGuard_action
  finishing_addShardFollower : finishing.

Lemma finishing_catchupWithExclusiveLock ep coll clientId leader syncerId tick :
  finishing (catchupWithExclusiveLock ep coll clientId leader syncerId tick).
Proof.
  unfold catchupWithExclusiveLock, finalizeAndRegister,
    recountAfterWrongChecksum, collectionReCount.
  finishing.
Qed.

Lemma finishing_catchupWithReadLock_loop n ep coll clientId :
  forall didTimeout tick reached,
    finishing
      (catchupWithReadLock_loop n ep coll clientId didTimeout tick reached).
Proof.
  induction n as [|n IH]; intros [] tick reached;
    cbn [catchupWithReadLock_loop negb]; try apply finishing_ret.
  apply finishing_bind; [unfold catchupWithReadLock_round; finishing|].
  intros [a|[t d]]; [apply finishing_ret|apply IH].
Qed.

Lemma finishing_catchupWithReadLock ep coll clientId leader tick :
  finishing (catchupWithReadLock ep coll clientId leader tick).
Proof. apply finishing_catchupWithReadLock_loop. Qed.

#[export] Hint Resolve finishing_catchupWithExclusiveLock
  finishing_catchupWithReadLock : finishing.

Lemma finishing_first_sync database planId shard leader clientId
    syncByRevision :
  finishing (first_sync database planId shard leader clientId syncByRevision).
Proof.
  unfold first_sync, collectionCountOnLeader, first_fromCounts, first_attempt,
    replicationSynchronize, first_afterSync, first_catchup.
  finishing.
Qed.

Lemma backoff_finishes env st : (backoff env st).1 <> OutOfFuel.
Proof.
  unfold backoff. msimpl.
  destruct (delayThreshold <=? _)%N; msimpl; [|discriminate].
  match goal with
  | |- context [backoff_loop 30 ?t env ?s] =>
      destruct (backoff_loop_spec 30 env s t) as (naps & _ & [H|H] & _)
  end.
  - unfold backoff_sleepTime.
    eapply Qle_trans; [apply Q.le_min_r|]. vm_compute. discriminate.
  - destruct H as [-> _]. discriminate.
  - destruct H as [-> _]. discriminate.
Qed.

(** The readiness wait polls again only when Current is empty. *)
Lemma waitForLeader_finishes env fuel database planId shard leader ourselves
    forcedResync startTime st :
  (forall t, currentServers env t <> []) ->
  (waitForLeader fuel database planId shard leader ourselves forcedResync
     startTime env st).1 <> OutOfFuel.
Proof.
  intros Hcurrent.
  destruct fuel; cbn [waitForLeader];
    unfold AppendShardInformationToMessage;
    repeat (msimpl; mcase); msimpl; try discriminate;
    by edestruct Hcurrent.
Qed.

(** X1. [first] never lets an exception escape, whatever the leader, the
    syncers and the local shard throw, and it never returns [true]: there
    is no second step.  The model can only run out of fuel in the readiness
    wait, and it does not when Current is never empty. *)
Theorem first_returns_false env fuel st :
  let r := first fuel env st in
  (r.1 = Ret false \/ r.1 = OutOfFuel)
  /\ ((forall t, currentServers env t <> []) -> r.1 = Ret false).
Proof.
  intros r.
  assert (Hends : r.1 = Ret false \/ r.1 = OutOfFuel).
  { subst r. pose proof (first_ends env fuel st) as H.
    destruct (first fuel env st) as [[b|e|] st']; cbn [fst];
      [left; by destruct H as [-> _]|done|by right]. }
  split; [exact Hends|]. intros Hcurrent.
  destruct Hends as [H|H]; [exact H|]. exfalso. revert H. subst r.
  unfold first. msimpl.
  pose proof (backoff_finishes env st) as Hb.
  destruct (backoff env st) as [[[b|]|e|] st1]; msimpl; try done.
  match goal with
  | |- context [waitForLeader fuel ?d ?p ?s ?l ?o ?f ?t env ?s2] =>
      pose proof (waitForLeader_finishes env fuel d p s l o f t s2 Hcurrent)
        as Hw;
      destruct (waitForLeader fuel d p s l o f t env s2) as [[[b|]|e|] st2]
  end; msimpl; try done.
  match goal with
  | |- context [first_sync ?d ?p ?s ?l ?c ?r env st2] =>
      pose proof (finishing_first_sync d p s l c r env st2) as Hs;
      destruct (first_sync d p s l c r env st2) as [[b|e|] st3]
  end; msimpl; done.
Qed.

Lemma first_returns_false_witness : (first 0 (world calm) st0).1 = Ret false.
Proof.
  apply (first_returns_false (world calm) 0 st0). intros t. discriminate.
Defined.

(** X2. An attempt that ends with a success as its result has registered
    this server with the leader: after the attempt began, the leader
    answered an add-follower request with success.  Every other way out of
    [first] leaves a failure as the job's result.  (The world is taken to
    throw no exception that carries the code of success.) *)
Theorem ok_result_means_registered env fuel st :
  sane env ->
  let r := first fuel env st in
  r.1 = Ret false ->
  Result_ok (_result (job r.2)) = true ->
  registered env (trace st) (trace r.2).
Proof.
  intros Hsane r Hret Hok. subst r.
  pose proof (first_ends env fuel st) as H.
  destruct (first fuel env st) as [[b|e|] st']; cbn [fst snd] in *;
    [|done|discriminate Hret].
  destruct H as [_ H]. exact (H Hsane Hok).
Qed.

Lemma sane_calm : sane (world calm).
Proof.
  repeat split; intros t e H; try discriminate H.
  cbn in H. unfold leader_answers in H.
  destruct t as [|[] t]; try discriminate H.
  destruct verb; try discriminate H;
    destruct (String.eqb _ _); discriminate H.
Qed.

Lemma ok_result_means_registered_witness :
  registered (world calm) [] (trace (first 3 (world calm) st0).2).
Proof.
  apply (ok_result_means_registered (world calm) 3 st0 sane_calm);
    vm_compute; reflexivity.
Defined.

(** ** Shutdown *)

Lemma backoff_sleepTime_pos n : Qlt_bool 0 (backoff_sleepTime n) = true.
Proof.
  unfold backoff_sleepTime, Qlt_bool. apply negb_true_iff.
  destruct (Qle_bool _ 0) eqn:H; [|reflexivity]. exfalso.
  apply Qle_bool_iff in H.
  set (k := inject_Z _) in H.
  assert (0 <= k)%Q.
  { unfold k. change 0%Q with (inject_Z 0). rewrite <- Zle_Qle.
    apply N2Z.is_nonneg. }
  destruct (Q.min_spec (2 + (1 # 10) * k) 15) as [[_ Hm]|[_ Hm]];
    rewrite Hm in H; lra.
Qed.

(** X3. When the server is stopping, an attempt ends at its first look at
    the shutdown flag, in the brake or in the readiness wait: with
    [TRI_ERROR_SHUTTING_DOWN] as its result, without having slept, without
    a request to the leader, and with the store of the maintenance feature
    as it was. *)
Theorem first_during_shutdown env fuel st :
  (forall t, isStopping env t = true) ->
  let r := first fuel env st in
  r.1 = Ret false
  /\ _result (job r.2) = mkResult TRI_ERROR_SHUTTING_DOWN ""
  /\ polls (trace r.2) = S (polls (trace st))
  /\ sleeps (trace r.2) = sleeps (trace st)
  /\ requests (trace r.2) = requests (trace st)
  /\ feature r.2 = feature st.
Proof.
  intros Hstop r. subst r. unfold first, backoff. msimpl.
  destruct (delayThreshold <=? _)%N; msimpl.
  - cbn [backoff_loop]. rewrite backoff_sleepTime_pos. msimpl.
    rewrite Hstop. msimpl. done.
  - destruct fuel; cbn [waitForLeader]; msimpl; rewrite Hstop; msimpl; done.
Qed.

Lemma first_during_shutdown_witness :
  let stopping (t : Trace) := true in
  let w := world (mkScript (script_send calm) stopping [] []
                    (Returns Result_success) [] (script_catchup calm)
                    (Returns Result_success) 0 (Returns 0%N) 0 0) in
  (first 0 w (st_failed 7)).1 = Ret false
  /\ errorNumber (_result (job (first 0 w (st_failed 7)).2))
     = TRI_ERROR_SHUTTING_DOWN.
Proof.
  intros stopping w.
  destruct (first_during_shutdown w 0 (st_failed 7) (fun _ => eq_refl))
    as (H1 & H2 & _).
  split; [exact H1|]. by rewrite H2.
Defined.

(** ** More on the terminal transition *)

(** The loop that asks the agency for the Current version waits for
    nothing itself, hands back a version that the agency gave (or the one
    it started with), and asks nothing when the server is stopping. *)
Lemma fetchCurrentVersion_loop_trace fuel env stoppage :
  forall st snooze v,
    let r := fetchCurrentVersion_loop fuel stoppage snooze v env st in
    waits (trace r.2) = waits (trace st)
    /\ (forall v', r.1 = Ret v' ->
          v' = v
          \/ exists t, fetchCurrentVersion env t = Returns (ResultT_success v'))
    /\ (isStopping env (EvIsStopping :: trace st) = true ->
        r = (Ret v, set_trace (EvIsStopping :: trace st) st)).
Proof.
  induction fuel as [|fuel IH]; intros st snooze v;
    cbn [fetchCurrentVersion_loop]; msimpl;
    destruct (isStopping env _) eqn:Hstop; msimpl;
    try (split; [reflexivity|split; [by left; congruence|done]]).
  - repeat (mcase; msimpl); (split; [reflexivity|split; [|done]]);
      intros v' [= <-]; eauto.
  - repeat (mcase; msimpl);
      try ((split; [reflexivity|split; [|done]]); intros v' [= <-]; by eauto);
      match goal with
      | |- context [fetchCurrentVersion_loop fuel stoppage ?sn ?v0 env ?s] =>
          destruct (IH s sn v0) as (Hw & Hv & _); cbn [trace waits] in Hw;
          (split; [exact Hw|split; [|done]]);
          intros v' Hv'; destruct (Hv v' Hv') as [->|?]; eauto
      end.
Qed.

(** X4. Only a move to [COMPLETE] or [FAILED] from another state books
    anything: every other call of [setState] just sets the state.  So the
    terminal transition is booked once: a second call with the same state
    changes nothing at all. *)
Theorem setState_books_once env st state :
  ((state <> COMPLETE /\ state <> FAILED) \/ _state (job st) = state ->
   setState state env st = (Ret tt, set_job (with_state state (job st)) st))
  /\ ((state = COMPLETE \/ state = FAILED) -> _state (job st) <> state ->
      forall env',
        let once := (setState state env st).2 in
        setState state env' once = (Ret tt, once)).
Proof.
  assert (Hnone : forall env0 st0,
            (state <> COMPLETE /\ state <> FAILED) \/ _state (job st0) = state ->
            setState state env0 st0
            = (Ret tt, set_job (with_state state (job st0)) st0)).
  { intros env0 st0 H. unfold setState. msimpl.
    assert (Hcond : (bool_decide (state = COMPLETE)
                     || bool_decide (state = FAILED))
                    && bool_decide (_state (job st0) ≠ state) = false).
    { destruct H as [[H1 H2]|H].
      - rewrite (bool_decide_eq_false_2 (state = COMPLETE)) by done.
        rewrite (bool_decide_eq_false_2 (state = FAILED)) by done.
        reflexivity.
      - rewrite (bool_decide_eq_false_2 (_ ≠ _)) by (intros Hne; by apply Hne).
        apply andb_false_r. }
    rewrite Hcond. reflexivity. }
  split; [apply Hnone|].
  intros Hstate Hnew env' once.
  destruct (setState_spec env st state Hstate Hnew)
    as (st' & Hrun & Hjob & _).
  subst once. rewrite Hrun. cbn [snd].
  rewrite Hnone by (right; by rewrite Hjob).
  f_equal. destruct st' as [t c g j f]. cbn in *. unfold set_job. cbn.
  f_equal. rewrite Hjob. reflexivity.
Qed.

Lemma setState_books_once_witness :
  let w := world calm in
  let once := (setState FAILED w st0).2 in
  setState FAILED w once = (Ret tt, once)
  /\ replicationErrors (feature once) "db" "s1" = 1%N.
Proof.
  intros w once. split.
  - exact (proj2 (setState_books_once w st0 FAILED) (or_intror eq_refl)
             ltac:(discriminate) w).
  - vm_compute. reflexivity.
Defined.

(** X5. The terminal transition asks the agency for the Current version
    and waits for a version at most once, for a positive version that the
    agency gave.  When the server is stopping it asks nothing and waits for
    nothing, and still books the outcome. *)
Theorem setState_agency env st state :
  state = COMPLETE \/ state = FAILED ->
  _state (job st) <> state ->
  let r := setState state env st in
  (waits (trace r.2) = waits (trace st)
   \/ exists v t,
        (0 < v)%N
        /\ fetchCurrentVersion env t = Returns (ResultT_success v)
        /\ waits (trace r.2) = v :: waits (trace st))
  /\ (isStopping env (EvIsStopping :: EvNow :: trace st) = true ->
      trace r.2 = EvIsStopping :: EvNow :: trace st
      /\ feature r.2 = terminal_store state (job st) (feature st)).
Proof.
  intros Hstate Hnew r.
  destruct (setState_spec env st state Hstate Hnew)
    as (done & Hrun & _ & Hfeature & _).
  assert (Hf : feature r.2 = terminal_store state (job st) (feature st))
    by (subst r; by rewrite Hrun).
  clear Hrun Hfeature done. revert Hf. generalize (terminal_store state (job st)
                                               (feature st)).
  intros store Hf. subst r. revert Hf. unfold setState. msimpl.
  assert (Hcond : (bool_decide (state = COMPLETE) || bool_decide (state = FAILED))
                  && bool_decide (_state (job st) ≠ state) = true).
  { rewrite (bool_decide_eq_true_2 (_state (job st) ≠ state)) by done.
    destruct Hstate as [-> | ->]; done. }
  rewrite Hcond. clear Hcond. msimpl.
  destruct (Result_is (_result (job st)) TRI_ERROR_ACTION_UNFINISHED) eqn:Hr,
    (Result_is (_result (job st))
       TRI_ERROR_REPLICATION_SHARD_SYNC_ATTEMPT_TIMEOUT_EXCEEDED) eqn:Ht;
    destruct Hstate as [-> | ->];
    rewrite ?(bool_decide_eq_true_2 (COMPLETE = COMPLETE)) by done;
    rewrite ?(bool_decide_eq_false_2 (FAILED = COMPLETE)) by done;
    msimpl;
    match goal with
    | |- context [fetchCurrentVersion_loop ?fuel ?stop ?sn ?v env ?s] =>
        destruct (fetchCurrentVersion_loop_ends fuel env stop s sn v)
          as (v' & st' & Hrun & _ & _ & Hg);
          [ lra
          | cbn [clock];
            change (inject_Z (Z.of_nat fetchCurrentVersion_rounds))
              with 6000%Q; lra
          | ];
        destruct (fetchCurrentVersion_loop_trace fuel env stop s sn v)
          as (Hw & Hv & Hs);
        rewrite Hrun in *
    end;
    cbn [fst snd trace guards waits] in *;
    specialize (Hv v' eq_refl);
    destruct (0 <? v')%N eqn:Hpos; msimpl; rewrite Hg; msimpl;
    intros Hf;
    (split;
     [ first [ left; exact Hw
             | right; destruct Hv as [->|[t Ht']]; [discriminate Hpos|];
               exists v', t; cbn [waits]; rewrite Hw;
               apply N.ltb_lt in Hpos; done ]
     | intros Hstop; specialize (Hs Hstop);
       injection Hs as -> ->; first [discriminate Hpos | done] ]).
Qed.

Lemma setState_agency_witness :
  waits (trace (setState COMPLETE (world calm) st0).2) = [3%N].
Proof.
  destruct (setState_agency (world calm) st0 COMPLETE (or_introl eq_refl)
              ltac:(discriminate)) as [[H|(v & t & _ & _ & H)] _].
  - vm_compute in H. discriminate H.
  - vm_compute. reflexivity.
Defined.

Lemma terminal_store_other_version state j f sh :
  sh <> desc_SHARD (_description j) ->
  shardVersion (terminal_store state j f) sh = shardVersion f sh.
Proof.
  intros Hne. unfold terminal_store.
  destruct (Result_is _ TRI_ERROR_ACTION_UNFINISHED),
    (Result_is _ TRI_ERROR_REPLICATION_SHARD_SYNC_ATTEMPT_TIMEOUT_EXCEEDED);
    case_bool_decide; cbn [negb andb orb];
    unfold shardVersion, unlockShard, incShardVersion,
      countTimedOutSyncAttempt, storeReplicationError, removeReplicationError;
    cbn [_shardVersion]; by rewrite lookup_insert_ne.
Qed.

Lemma terminal_store_timeouts state j f :
  _timedOutSyncAttempts (terminal_store state j f)
  = if bool_decide (state = COMPLETE) then _timedOutSyncAttempts f
    else if Result_is (_result j)
              TRI_ERROR_REPLICATION_SHARD_SYNC_ATTEMPT_TIMEOUT_EXCEEDED
         then (_timedOutSyncAttempts f + 1)%N
         else _timedOutSyncAttempts f.
Proof.
  unfold terminal_store.
  destruct (Result_is _ TRI_ERROR_ACTION_UNFINISHED),
    (Result_is _ TRI_ERROR_REPLICATION_SHARD_SYNC_ATTEMPT_TIMEOUT_EXCEEDED);
    case_bool_decide; reflexivity.
Qed.

(** X6. A terminal transition that is not a requeue gives the shard back
    to the scheduler: the shard is unlocked, whatever the outcome was; the
    locks and the versions of the other shards stay as they are; and an
    attempt that ran into its deadline is counted among the timed-out
    attempts, and only such an attempt. *)
Theorem setState_releases_shard env st state :
  state = COMPLETE \/ state = FAILED ->
  _state (job st) <> state ->
  Result_is (_result (job st)) TRI_ERROR_ACTION_UNFINISHED = false ->
  let shard := desc_SHARD (_description (job st)) in
  let f := feature st in
  let f' := feature (setState state env st).2 in
  (shard ∉ _shardLocks f')
  /\ (forall other, other <> shard ->
        (other ∈ _shardLocks f' <-> other ∈ _shardLocks f)
        /\ shardVersion f' other = shardVersion f other)
  /\ _timedOutSyncAttempts f'
     = if bool_decide (state = FAILED)
          && Result_is (_result (job st))
               TRI_ERROR_REPLICATION_SHARD_SYNC_ATTEMPT_TIMEOUT_EXCEEDED
       then (_timedOutSyncAttempts f + 1)%N
       else _timedOutSyncAttempts f.
Proof.
  intros Hstate Hnew Hreq shard f f'. subst f'.
  destruct (setState_spec env st state Hstate Hnew)
    as (st' & Hrun & _ & Hf & _).
  rewrite Hrun. cbn [snd]. rewrite Hf. split; [|split].
  - rewrite terminal_store_locks, Hreq. set_solver.
  - intros other Hother. split.
    + rewrite terminal_store_locks, Hreq. set_solver.
    + by apply terminal_store_other_version.
  - rewrite terminal_store_timeouts.
    destruct Hstate as [-> | ->]; by repeat case_bool_decide.
Qed.

Lemma setState_releases_shard_witness :
  "s1" ∉ _shardLocks (feature (setState FAILED (world calm) st0).2).
Proof.
  exact (proj1 (setState_releases_shard (world calm) st0 FAILED
                  (or_intror eq_refl) ltac:(discriminate) eq_refl)).
Defined.

(** ** The cancellation checks *)

Lemma VPack_isEqualString_true s x :
  VPack_isEqualString s x = true <-> s = VString x.
Proof.
  destruct s; cbn; try (split; [discriminate|intros [=]]).
  rewrite String.eqb_eq. split; [by intros ->|by intros [= ->]].
Qed.

Lemma deadlinePassed_true endTime now :
  deadlinePassed endTime now = true <-> (0 < endTime /\ endTime <= now)%Q.
Proof.
  unfold deadlinePassed. rewrite andb_true_iff, Qle_bool_iff. split.
  - intros [H1 H2]. split; [by apply Qlt_bool_true|done].
  - intros [H1 H2]. split; [|done]. unfold Qlt_bool. apply negb_true_iff.
    destruct (Qle_bool endTime 0) eqn:H; [|done].
    apply Qle_bool_iff in H. exfalso. lra.
Qed.

(** X7. The initial syncer is told to go on if and only if the deadline of
    the attempt, if there is one, has not passed, and the plan of the shard
    in the agency cache is a list that starts with the leader and has this
    server among its followers.  The tailing syncer is told to go on if and
    only if the deadline has not passed; so a deadline that stops the
    tailing stops the initial synchronisation too, and with no deadline
    ([endTime = 0]) the tailing is never cancelled. *)
Theorem cancellation_checks endTime now leaderId myself plan :
  (initialSyncCancellationCheck endTime now leaderId myself plan = false
   <-> ~ (0 < endTime /\ endTime <= now)%Q
       /\ exists followers,
            plan = Some (VArray (VString leaderId :: followers))
            /\ VString myself ∈ followers)
  /\ (tailingCancellationCheck endTime now = false
      <-> ~ (0 < endTime /\ endTime <= now)%Q)
  /\ (tailingCancellationCheck endTime now = true ->
      initialSyncCancellationCheck endTime now leaderId myself plan = true)
  /\ ((endTime == 0)%Q -> tailingCancellationCheck endTime now = false).
Proof.
  unfold initialSyncCancellationCheck, tailingCancellationCheck.
  pose proof (deadlinePassed_true endTime now) as Hd.
  destruct (deadlinePassed endTime now).
  { repeat split; try done.
    - intros [H _]. exfalso. apply H. by apply Hd.
    - intros H. exfalso. apply H. by apply Hd.
    - intros H0. exfalso. destruct (proj1 Hd eq_refl) as [H1 _]. lra. }
  assert (Hno : ~ (0 < endTime /\ endTime <= now)%Q).
  { intros H. apply Hd in H. discriminate H. }
  split; [split|split; [done|split; [discriminate|done]]].
  - intros Hgo. split; [exact Hno|].
    destruct plan as [[| | | | | |items|]|]; try discriminate Hgo.
    destruct items as [|front followers]; [discriminate Hgo|].
    change (default VNone ((front :: followers) !! 0%nat)) with front in Hgo.
    change (drop 1 (front :: followers)) with followers in Hgo.
    destruct (_ && _ && _) eqn:Hc; [|discriminate Hgo].
    apply andb_true_iff in Hc as [Hc Hmy].
    apply andb_true_iff in Hc as [_ Hfront].
    apply VPack_isEqualString_true in Hfront. subst front.
    exists followers. split; [done|].
    apply existsb_exists in Hmy as (s & Hin & Hs).
    apply VPack_isEqualString_true in Hs as ->. by apply list_elem_of_In.
  - intros (_ & followers & -> & Hin).
    change (default VNone ((VString leaderId :: followers) !! 0%nat))
      with (VString leaderId).
    change (drop 1 (VString leaderId :: followers)) with followers.
    assert (H2 : (2 <=? length (VString leaderId :: followers))%nat = true).
    { apply Nat.leb_le. destruct followers; [by apply elem_of_nil in Hin|].
      cbn. lia. }
    rewrite H2. cbn [andb VPack_isEqualString]. rewrite String.eqb_refl.
    cbn [andb].
    assert (Hex : existsb (fun s => VPack_isEqualString s myself) followers
                  = true).
    { apply existsb_exists. exists (VString myself).
      split; [by apply list_elem_of_In|]. cbn. apply String.eqb_refl. }
    by rewrite Hex.
Qed.

Lemma cancellation_checks_witness :
  initialSyncCancellationCheck 0 5 "leader1" "follower1"
    (Some (VArray [VString "leader1"; VString "follower1"])) = false
  /\ initialSyncCancellationCheck 0 5 "leader1" "leader1"
       (Some (VArray [VString "leader1"])) = true
  /\ tailingCancellationCheck 0 5 = false.
Proof.
  destruct (cancellation_checks 0 5 "leader1" "follower1"
              (Some (VArray [VString "leader1"; VString "follower1"])))
    as (_ & _ & _ & H).
  split; [reflexivity|]. split; [reflexivity|]. by apply H.
Defined.

(** ** The lock handshake *)

(** X8. [startReadLockOnLeader] talks to the leader in a fixed order and
    about one lock only: first it asks for a lock id (GET); only with an
    id from the leader does it ask for the lock (POST), with that id in the
    body; and only after the POST does it ever cancel (DELETE), with the
    same body.  It reports success only if the POST was sent, and the lock
    id it hands back is then the one the leader gave. *)
Theorem lock_handshake env st ep coll clientId soft timeout :
  let r := startReadLockOnLeader ep coll clientId soft timeout env st in
  let database := DATABASE (_description (job st)) in
  let get := (Get, REPL_HOLD_READ_LOCK, VNone) in
  let post rlid := (Post, REPL_HOLD_READ_LOCK,
                    getReadLock_body env coll rlid soft timeout) in
  let delete rlid := (Delete, REPL_HOLD_READ_LOCK,
                      getReadLock_body env coll rlid soft timeout) in
  let old := requests (trace st) in
  (requests (trace r.2) = old
   \/ requests (trace r.2) = get :: old
   \/ exists rlid,
        leader_gave_id env database timeout rlid
        /\ (requests (trace r.2) = post rlid :: get :: old
            \/ requests (trace r.2) = delete rlid :: post rlid :: get :: old))
  /\ (forall res id,
        r.1 = Ret (res, id) -> Result_ok res = true ->
        leader_gave_id env database timeout id
        /\ requests (trace r.2) = post id :: get :: old).
Proof.
  intros r database get post delete old.
  subst r database get post delete old.
  unfold startReadLockOnLeader, getReadLockId, getReadLock, leader_gave_id.
  mrun;
    try match goal with
        | H : Result_ok (mkResult TRI_ERROR_INTERNAL _) = true |- _ =>
            discriminate H
        | H : Result_ok (mkResult TRI_ERROR_SHUTTING_DOWN _) = true |- _ =>
            discriminate H
        | H : true = false |- _ => discriminate H
        | H : false = true |- _ => discriminate H
        end;
    cbn [requests]; split;
    try (intros res id Hret Hok; injection Hret as <- <-);
    try (intros res id Hret Hok; discriminate Hret).
  all: try (left; reflexivity).
  all: try (right; left; reflexivity).
  all: try (exfalso;
            match type of Hok with
            | Result_ok ?R = true =>
                assert (Hf : Result_ok R = false) by outcome_done;
                rewrite Hf in Hok; discriminate Hok
            end).
  all: try (right; right; eexists).
  all: (split;
        [ match goal with
          | H1 : sendRequest_get _ (EvSendRequest Get _ _ _ :: ?t)
                 = Returns ?resp,
            H3 : _ = Some ?v |- _ =>
              exists t, resp; split; [exact H1|split; [assumption|exact H3]]
          end
        | first [reflexivity | left; reflexivity | right; reflexivity] ]).
Qed.

Lemma lock_handshake_witness :
  let r := startReadLockOnLeader "tcp://leader1" "s1" "client" true 300
             (world calm) st0 in
  leader_gave_id (world calm) "db" 300 42%N
  /\ requests (trace r.2)
     = [(Post, REPL_HOLD_READ_LOCK,
         getReadLock_body (world calm) "s1" 42%N true 300);
        (Get, REPL_HOLD_READ_LOCK, VNone)].
Proof.
  exact (proj2 (lock_handshake (world calm) st0 "tcp://leader1" "s1" "client"
                  true 300) Result_success 42%N eq_refl eq_refl).
Defined.

(** ** The upper bound of the WAL tailing *)

#[export] Instance finalize_view_blind : Blind finalize_view.
Proof. blind_instance. Qed.
#[export] Instance finalize_view_blind_term : BlindTerm finalize_view.
Proof. blind_instance. Qed.
#[export] Instance finalize_view_blind_cancel : BlindCancel finalize_view.
Proof. blind_instance. Qed.
#[export] Instance finalize_view_blind_guards : BlindGuards finalize_view.
Proof. blind_instance. Qed.

#[export] Instance tick_view_blind : Blind tick_view.
Proof. blind_instance. Qed.
#[export] Instance tick_view_blind_cancel : BlindCancel tick_view.
Proof. blind_instance. Qed.
#[export] Instance tick_view_blind_guards : BlindGuards tick_view.
Proof. blind_instance. Qed.

(** The WAL tailing under the exclusive lock runs once, from the tick it
    is given to the upper bound that the job holds. *)
Lemma finalizeAndRegister_finalizes env st ep coll clientId syncerId tick id :
  finalize_view
    (finalizeAndRegister ep coll clientId syncerId tick id
       (readLockGuard_action ep id clientId) env st).2
  = (tick, _tailingUpperBoundTick (job st)) :: finalize_view st.
Proof.
  unfold finalizeAndRegister.
  unfold mbind at 1, M_bind at 1, get_job at 1. cbn beta iota.
  rewrite preserves_bind_tail.
  - unfold finalize_view. msimpl.
    by destruct (syncCollectionFinalize env _).
  - intros res.
    repeat first
      [ frame_step
      | apply recountAfterWrongChecksum_frame;
        first [exact _ | intros; reflexivity] ].
Qed.

(** X9. Under the exclusive lock the WAL tailing runs exactly once: from
    the tick that the soft-lock phase reached, up to the upper bound that
    the job holds once the lock is there.  That bound is the [lastLogTick]
    of the leader's answer to the lock request when the answer is an object
    that has one as a number, and the bound the job had before when it has
    none. *)
Theorem finalize_upper_bound env st ep coll clientId leader syncerId
    lastLogTick res lockJobId st1 :
  startReadLockOnLeader ep coll clientId false startReadLockOnLeader_timeout
    env st = (Ret (res, lockJobId), st1) ->
  Result_ok res = true ->
  let hard := catchupWithExclusiveLock ep coll clientId leader syncerId
                lastLogTick env st in
  exists response,
    sendRequest_get env
      (hardLockRequest env st coll lockJobId startReadLockOnLeader_timeout)
    = Returns response
    /\ finalizes (trace hard.2)
       = (lastLogTick,
          answered (_tailingUpperBoundTick (job st)) response "lastLogTick")
           :: finalizes (trace st).
Proof.
  intros Hlock Hok hard.
  destruct (startReadLockOnLeader_hard_answer env st ep coll clientId
              startReadLockOnLeader_timeout res lockJobId st1 Hlock Hok)
    as (response & Hpost & _ & Htrace & _ & Htick).
  exists response. split; [exact Hpost|].
  unfold tick_view in Htick. rewrite <- Htick.
  assert (Hv : finalizes (trace st1) = finalizes (trace st))
    by (rewrite Htrace; reflexivity).
  subst hard.
  unfold catchupWithExclusiveLock.
  unfold mbind at 1, M_bind at 1. rewrite Hlock, Hok. cbn [negb].
  msimpl.
  match goal with
  | |- context [finalizeAndRegister ?a ?b ?c ?d ?e ?f ?g env ?s] =>
      pose proof (finalizeAndRegister_finalizes env s a b c d e f) as Hfin;
      destruct (finalizeAndRegister a b c d e f g env s) as [o sb]
  end.
  cbn [snd] in Hfin. unfold finalize_view in Hfin.
  cbn [trace finalizes job] in Hfin.
  destruct (guards sb) as [|[] rest]; cbn [snd trace].
  - by rewrite Hfin, Hv.
  - pose proof (readLockGuard_action_frame finalize_view ep lockJobId
                  clientId env
                  (mkSt (trace sb) (clock sb) rest (job sb) (feature sb)))
      as Ha.
    unfold finalize_view in Ha. cbn [trace] in Ha.
    by rewrite Ha, Hfin, Hv.
  - by rewrite Hfin, Hv.
Qed.

Lemma finalize_upper_bound_witness :
  finalizes (trace (catchupWithExclusiveLock "tcp://leader1" "s1" "client"
                      "leader1" 7 1500 (world calm) st0).2)
  = [(1500%N, 2000%N)].
Proof.
  destruct (finalize_upper_bound (world calm) st0 "tcp://leader1" "s1"
              "client" "leader1" 7 1500 Result_success 42
              (startReadLockOnLeader "tcp://leader1" "s1" "client" false
                 startReadLockOnLeader_timeout (world calm) st0).2
              ltac:(vm_compute; reflexivity) eq_refl)
    as (response & Hpost & Hfin).
  cbv zeta in Hfin. rewrite Hfin.
  vm_compute in Hpost. injection Hpost as <-. vm_compute. reflexivity.
Defined.

(** ** The readiness wait *)

Lemma planned_as_follower res (planned : list string) ourselves leader :
  negb (Result_ok res) || negb (bool_decide (ourselves ∈ planned))
  || negb (bool_decide (head planned = Some leader)) = false ->
  Result_ok res = true /\ ourselves ∈ planned /\ head planned = Some leader.
Proof.
  intros H. apply orb_false_iff in H as [H H3].
  apply orb_false_iff in H as [H1 H2].
  apply negb_false_iff in H1. apply negb_false_iff in H2.
  apply negb_false_iff in H3.
  apply bool_decide_eq_true_1 in H2. apply bool_decide_eq_true_1 in H3.
  done.
Qed.

(** X10. The readiness wait only reads the cluster metadata: it sends
    nothing to the leader and leaves the store alone.  When it ends the
    attempt, it does so with a failure ([TRI_ERROR_SHUTTING_DOWN] or
    [TRI_ERROR_FAILED]).  When it lets the attempt go on, the job is as
    it was, and at the last poll the plan listed this server with the
    job's leader first, and Current had the leader first and either did not
    list this server or the resync is forced. *)
Theorem readiness_wait env fuel database planId shard leader ourselves
    forcedResync startTime :
  forall st,
    let r := waitForLeader fuel database planId shard leader ourselves
               forcedResync startTime env st in
    requests (trace r.2) = requests (trace st)
    /\ feature r.2 = feature st
    /\ (forall b, r.1 = Ret (Some b) ->
          b = false
          /\ (errorNumber (_result (job r.2)) = TRI_ERROR_SHUTTING_DOWN
              \/ errorNumber (_result (job r.2)) = TRI_ERROR_FAILED))
    /\ (r.1 = Ret None ->
        job r.2 = job st
        /\ exists t res planned t' others,
             getShardServers env t = (res, planned)
             /\ Result_ok res = true
             /\ ourselves ∈ planned
             /\ head planned = Some leader
             /\ currentServers env t' = leader :: others
             /\ (ourselves ∉ leader :: others \/ forcedResync = true)).
Proof.
  induction fuel as [|fuel IH]; intros st r; subst r;
    cbn [waitForLeader]; unfold AppendShardInformationToMessage;
    repeat (msimpl; mcase); msimpl; cbn [requests];
    try (split; [reflexivity|split; [reflexivity|split;
           [ intros b0 [= <-]; split; [reflexivity|]; cbn; by eauto
           | intros [=] ]]]).
  all: try (split; [reflexivity|split; [reflexivity|split;
              [ intros b0 [=] | ]]]).
  all: try (try intros _; split; [reflexivity|];
            match goal with
            | Hp : getShardServers _ ?t = (?res, ?planned),
              Hc : currentServers _ ?t' = ?front :: ?others,
              Hplan : _ || _ || _ = false,
              Hfront : bool_decide (?front = _) = true |- _ =>
                apply planned_as_follower in Hplan as (H1 & H2 & H3);
                apply bool_decide_eq_true_1 in Hfront; subst front;
                exists t, res, planned, t', others;
                repeat (split; [assumption|])
            end;
            first [ left;
                    match goal with
                    | H : bool_decide _ = false |- _ =>
                        exact (bool_decide_eq_false_1 _ H)
                    end
                  | right; reflexivity ]).
  all: try (intros [=]).
  match goal with
  | |- context [waitForLeader fuel _ _ _ _ _ _ _ env ?s] =>
      specialize (IH s); cbv zeta in IH;
      destruct IH as (Hreq & Hfeat & Hbad & Hgood);
      cbn [trace requests feature job] in *
  end.
  split; [exact Hreq|]. split; [exact Hfeat|]. split; [exact Hbad|].
  exact Hgood.
Qed.

Lemma readiness_wait_witness :
  let r := waitForLeader 3 "db" "c1" "s1" "leader1" "follower1" false 1
             (world calm) st0 in
  r.1 = Ret None /\ job r.2 = job st0.
Proof.
  split; [vm_compute; reflexivity|].
  refine (proj1 (proj2 (proj2 (proj2
            (readiness_wait (world calm) 3 "db" "c1" "s1" "leader1"
               "follower1" false 1 st0))) _)).
  vm_compute; reflexivity.
Defined.

(** ** What the leader is told when the follower registers *)

(** X11. [addShardFollower] never throws: whatever goes wrong on the way,
    an exception of the network layer included, comes back as a result.
    It sends at most one request; without one the result is a failure.  The
    request is a PUT to the add-follower route whose checksum is the local
    count just taken, in decimal, which is also what the job keeps as its
    count at the end; the lock id is in the body exactly when it is not
    zero. *)
Theorem addShardFollower_request env st pool ep db shard id clientId
    syncerId info timeout :
  let r := addShardFollower pool ep db shard id clientId syncerId info
             timeout env st in
  exists res,
    r.1 = Ret res
    /\ feature r.2 = feature st
    /\ ((requests (trace r.2) = requests (trace st)
         /\ Result_ok res = false)
        \/ exists body t counted,
             requests (trace r.2)
             = (Put, REPL_ADD_FOLLOWER, body) :: requests (trace st)
             /\ collectionCount_ext env t
                = Returns (counted, _docCountAtEnd (job r.2))
             /\ VPack_get body "checksum"
                = VString (to_string (_docCountAtEnd (job r.2)))
             /\ VPack_get body SHARD = VString shard
             /\ VPack_get body "readLockId"
                = if bool_decide (id ≠ 0%N) then VString (to_string id)
                  else VNone).
Proof.
  unfold addShardFollower.
  mrun; eexists; (split; [reflexivity|]); (split; [reflexivity|]);
    cbn [requests trace job _docCountAtEnd with_docCountAtEnd].
  all: first
    [ left; split; [reflexivity|outcome_done]
    | right; eexists _, _, _;
      split; [reflexivity|];
      split; [eassumption|];
      split; [reflexivity|];
      split; [reflexivity|];
      repeat match goal with
             | H : bool_decide _ = _ |- _ => rewrite H; clear H
             end;
      reflexivity ].
Qed.

(** ** The first request of an attempt *)

Lemma requests_app (new t : Trace) :
  requests (new ++ t)%list = (requests new ++ requests t)%list.
Proof.
  induction new as [|e new IH]; [done|].
  destruct e; cbn [requests app]; by rewrite ?IH.
Qed.

Lemma backoff_loop_quiet fuel :
  forall sleepTime, preserves talk_view (backoff_loop fuel sleepTime).
Proof.
  induction fuel as [|fuel IH]; intros sleepTime env st;
    cbn [backoff_loop]; mrun; try reflexivity.
  match goal with
  | |- context [backoff_loop fuel ?s env ?st'] => rewrite (IH s env st')
  end.
  reflexivity.
Qed.

Lemma backoff_quiet : preserves talk_view backoff.
Proof.
  intros env st. unfold backoff. msimpl.
  destruct (delayThreshold <=? _)%N; msimpl; [|reflexivity].
  apply backoff_loop_quiet.
Qed.

Lemma waitForLeader_quiet fuel database planId shard leader ourselves
    forcedResync startTime :
  preserves talk_view
    (waitForLeader fuel database planId shard leader ourselves forcedResync
       startTime).
Proof.
  induction fuel as [|fuel IH]; intros env st;
    cbn [waitForLeader]; unfold AppendShardInformationToMessage;
    mrun; try reflexivity.
  match goal with
  | |- context [waitForLeader fuel _ _ _ _ _ _ _ env ?st'] =>
      rewrite (IH env st')
  end.
  reflexivity.
Qed.

Lemma asks_count_first_quiet {A} (m : M A) :
  preserves talk_view m -> asks_count_first m.
Proof. intros H env st. left. by injection (H env st). Qed.

Lemma asks_count_first_bind {A B} (m : M A) (f : A -> M B) :
  preserves talk_view m -> (forall a, asks_count_first (f a)) ->
  asks_count_first (m ≫= f).
Proof.
  intros Hm Hf env st. specialize (Hm env st).
  unfold mbind, M_bind.
  destruct (m env st) as [[a|e|] st1]; cbn [fst snd] in *;
    injection Hm as Hreq Hdesc; [|by left..].
  unfold countRequest. rewrite <- Hreq, <- Hdesc. apply Hf.
Qed.

Lemma asks_count_first_try_catch {A} (m : M A) (h : Exn -> M A) :
  asks_count_first m -> (forall e, preserves talk_view (h e)) ->
  asks_count_first (try_catch m h).
Proof.
  intros Hm Hh env st. specialize (Hm env st). unfold try_catch.
  destruct (m env st) as [[a|e|] st1]; cbn [fst snd] in *; [done| |done].
  specialize (Hh e env st1). injection Hh as Hreq _.
  by rewrite Hreq.
Qed.

Lemma asks_count_first_here {B} ep (f : Result * N -> M B) :
  (forall a, grows (f a)) ->
  asks_count_first (collectionCountOnLeader ep ≫= f).
Proof.
  intros Hf env st. right. unfold collectionCountOnLeader. msimpl.
  destruct (sendRequest_get env _) as [response|e]; msimpl;
    [|by exists []].
  repeat (mcase; msimpl);
    first
      [ match goal with
        | |- context [f ?a env ?s] =>
            destruct (Hf a env s) as [new ->]; exists (requests new);
            by rewrite requests_app
        end
      | by exists [] ].
Qed.

Lemma first_sync_asks_count_first database planId shard leader clientId
    syncByRevision :
  asks_count_first
    (first_sync database planId shard leader clientId syncByRevision).
Proof.
  unfold first_sync.
  apply asks_count_first_bind; [frame|intros []].
  apply asks_count_first_bind; [frame|intros found].
  destruct found; cbn [negb]; [|apply asks_count_first_quiet; frame].
  apply asks_count_first_bind; [frame|intros ep].
  apply asks_count_first_here. intros [res n].
  repeat first [apply grows_first_fromCounts | grows_step]; solve_grows_prim.
Qed.

(** X12. An attempt sends nothing to the leader while it brakes and while
    it waits for the leader to be ready.  If it sends anything at all, the
    first thing it sends is the request for the number of documents of the
    job's shard on the leader. *)
Theorem first_asks_for_the_count env fuel st :
  let r := first fuel env st in
  requests (trace r.2) = requests (trace st)
  \/ exists later,
       requests (trace r.2)
       = (later
          ++ (Get,
              "/_api/collection/" +:+ desc_SHARD (_description (job st))
                +:+ "/count",
              VNone) :: requests (trace st))%list.
Proof.
  assert (H : asks_count_first (first fuel)); [|exact (H env st)].
  unfold first.
  apply asks_count_first_bind; [frame|intros j].
  apply asks_count_first_bind; [apply backoff_quiet|intros [answer|]].
  { apply asks_count_first_quiet; frame. }
  apply asks_count_first_bind; [frame|intros env'].
  apply asks_count_first_bind; [by intros ? ?|intros startTime].
  apply asks_count_first_bind; [apply waitForLeader_quiet|intros [answer|]].
  { apply asks_count_first_quiet; frame. }
  apply asks_count_first_try_catch;
    [apply first_sync_asks_count_first|intros e; frame].
Qed.
